(** * Lead-generation backend: a shallow embedding and its properties

  The development follows the layout of [backend/]:
  - [Database]    : [app/database.py]   (the three mapped classes, [to_dict]);
  - [RateLimiter] : [app/rate_limiter.py];
  - [Businesses]  : [app/routers/businesses.py];
  - [PlacesApi]   : [services/places_api.py].

  Python [int] is [Z]; Python [float] values that are only stored, compared
  and subtracted (ratings, coordinates, clock readings) are rationals [Q];
  [str] is [string] (one character per code point below 256); [None]-able
  attributes are [option]s. *)

From Stdlib Require Import ZArith QArith Qround Lqa Lia List Ascii String Bool.
From Stdlib Require Import SpecFloat Sorted Permutation.
From stdpp Require Import base option list sorting gmap strings pretty.

Local Open Scope string_scope.
Local Open Scope list_scope.
Local Open Scope Z_scope.

Set Warnings "-register-all".

(** ** Python values as they appear in JSON responses *)

Module Py.

Inductive value :=
| VNone
| VInt (n : Z)
| VFloat (x : Q)
| VStr (s : string)
| VList (l : list value).

(** A [dict] literal keeps the order in which its keys are written. *)
Definition dict := list (string * value).

Fixpoint get (k : string) (d : dict) : option value :=
  match d with
  | [] => None
  | (k', v) :: d' => if String.eqb k k' then Some v else get k d'
  end.

Definition keys (d : dict) : list string := map fst d.

Definition of_int (o : option Z) : value := from_option VInt VNone o.
Definition of_float (o : option Q) : value := from_option VFloat VNone o.
Definition of_str (o : option string) : value := from_option VStr VNone o.

(** Truthiness of the values the code tests with [if x:]. *)
Definition truthy_int (o : option Z) : bool :=
  match o with
  | Some n => negb (n =? 0)
  | None => false
  end.

(** A float is falsy exactly when it is zero (of either sign). *)
Definition truthy_float (o : option Q) : bool :=
  match o with
  | Some x => negb (Qnum x =? 0)
  | None => false
  end.

Definition len {A} (l : list A) : Z := Z.of_nat (length l).

(** [l[:n]]: the first [n] items, or all but the last [-n] when [n < 0]. *)
Definition slice_to {A} (n : Z) (l : list A) : list A :=
  if 0 <=? n then firstn (Z.to_nat n) l
  else firstn (Z.to_nat (len l + n)) l.

(** *** Strings *)

(** [str.isspace] on the code points below 256. *)
Definition is_space (c : ascii) : bool :=
  let n := N_of_ascii c in
  ((9 <=? n) && (n <=? 13) || (28 <=? n) && (n <=? 32)
   || (n =? 133) || (n =? 160))%N.

Fixpoint lstrip (s : string) : string :=
  match s with
  | EmptyString => EmptyString
  | String c s' => if is_space c then lstrip s' else s
  end.

Fixpoint rstrip (s : string) : string :=
  match s with
  | EmptyString => EmptyString
  | String c s' =>
      match rstrip s' with
      | EmptyString => if is_space c then EmptyString else String c EmptyString
      | r => String c r
      end
  end.

(** [s.strip()] *)
Definition strip (s : string) : string := rstrip (lstrip s).

(** [s.split(sep)[0]] for a one-character separator: the text before the
    first separator, or all of [s] when there is none. *)
Fixpoint split_first (sep : ascii) (s : string) : string :=
  match s with
  | EmptyString => EmptyString
  | String c s' =>
      if Ascii.eqb c sep then EmptyString else String c (split_first sep s')
  end.

(** *** Comparison of rationals *)

Definition Qltb (x y : Q) : bool := negb (Qle_bool y x).

(** *** Binary64 arithmetic *)

Definition float := spec_float.
Definition prec : Z := 53.
Definition emax : Z := 1024.

(** An integer as the float of the same value: exact below [2^53], rounded
    to nearest even above. *)
Definition float_of_int (n : Z) : float := binary_normalize prec emax n 0 false.

(** The integer as an unrounded significand with exponent 0. *)
Definition int_as_float (n : Z) : float :=
  match n with
  | Z0 => S754_zero false
  | Zpos p => S754_finite false p 0
  | Zneg p => S754_finite true p 0
  end.

(** [a / b] on two [int]s: [ZeroDivisionError] ([None]) when [b] is zero,
    else the quotient of the two integers rounded once. *)
Definition true_div (a b : Z) : option float :=
  if b =? 0 then None
  else Some (SFdiv prec emax (int_as_float a) (int_as_float b)).

(** [x * n] for a float [x] and an [int] [n]. *)
Definition mul_int (x : float) (n : Z) : float :=
  SFmul prec emax x (float_of_int n).

(** Nearest integer to [n / d] for [0 <= n], [0 < d], ties to even. *)
Definition div_half_even (n d : Z) : Z :=
  let q := n / d in
  match 2 * (n mod d) ?= d with
  | Lt => q
  | Gt => q + 1
  | Eq => if Z.even q then q else q + 1
  end.

(** The number of tenths nearest to the magnitude of a finite float
    [m * 2^e], ties to even. *)
Definition tenths (m : positive) (e : Z) : Z :=
  if 0 <=? e then 10 * Z.pos m * 2 ^ e
  else div_half_even (10 * Z.pos m) (2 ^ (- e)).

(** [round(x, 1)]: the decimal value of [x] is rounded to one digit after
    the point (ties to even) and the float nearest to that decimal is
    returned.  A float with a non-negative exponent is an integer and is
    returned as it is, as are zeros, infinities and NaN. *)
Definition round1 (x : float) : float :=
  match x with
  | S754_finite s m e =>
      if 0 <=? e then x
      else match tenths m e with
           | Zpos k => SFdiv prec emax (S754_finite s k 0) (float_of_int 10)
           | _ => S754_zero s
           end
  | _ => x
  end.

(** [round((a / b) * 100, 1)] *)
Definition percentage (a b : Z) : option float :=
  x ← true_div a b; Some (round1 (mul_int x 100)).

(** The float nearest to [k / 10], for [0 <= k]. *)
Definition tenth_float (k : Z) : float :=
  match k with
  | Zpos p => SFdiv prec emax (S754_finite false p 0) (float_of_int 10)
  | _ => S754_zero false
  end.

Definition float_eqb (x y : float) : bool :=
  match x, y with
  | S754_zero a, S754_zero b => Bool.eqb a b
  | S754_infinity a, S754_infinity b => Bool.eqb a b
  | S754_nan, S754_nan => true
  | S754_finite a m e, S754_finite b n f =>
      Bool.eqb a b && Pos.eqb m n && Z.eqb e f
  | _, _ => false
  end.

(** [k] tenths is a nearest number of tenths to [100 * a / b]. *)
Definition nearest_tenths (a b k : Z) : bool :=
  Z.abs (2 * (k * b - 1000 * a)) <=? b.

(** [percentage a b] is the float of a nearest number of tenths. *)
Definition percentage_is_nearest (a b : Z) : bool :=
  match percentage a b with
  | Some x =>
      existsb (fun k => float_eqb x (tenth_float k) && nearest_tenths a b k)
        [1000 * a / b; 1000 * a / b + 1]
  | None => false
  end.

(** A number that is either an [int] or a [float]. *)
Inductive number :=
| NInt (n : Z)
| NFloat (x : float).

End Py.

(** ** What the endpoints raise and return *)

Module Http.

(** [fastapi.HTTPException(status_code, detail, headers)] *)
Record HTTPException := mkHTTPException {
  status_code : Z;
  detail : string;
  headers : list (string * string)
}.

(** What a client gets from an endpoint: the 422 that the framework sends
    when the request does not validate against the declared model (the
    endpoint function is not called), the [HTTPException] the function
    raised, another exception that escaped it, or the value it returned. *)
Inductive reply (A : Type) :=
| Unprocessable
| Raised (e : HTTPException)
| Crashed (msg : string)
| Returned (a : A).

Arguments Unprocessable {A}.
Arguments Raised {A} e.
Arguments Crashed {A} msg.
Arguments Returned {A} a.

(** The status line of a reply; an escaped exception gives 500. *)
Definition status {A} (r : reply A) : Z :=
  match r with
  | Unprocessable => 422
  | Raised e => status_code e
  | Crashed _ => 500
  | Returned _ => 200
  end.

End Http.

(** ** [app/database.py] *)

Module Database.

(** [class Search(Base)].  A [datetime] is kept as its ISO-8601 text. *)
Record Search := mkSearch {
  s_id : option Z;
  s_query : string;
  s_location : string;
  s_radius_km : Z;
  s_results_count : Z;
  s_created_at : option string
}.

(** [class Business(Base)].  The [business_types] column holds the text
    [json.dumps(types)]; it is kept as the list that text encodes, so that
    [json.loads] reads it back; [None] stands for a NULL or empty column. *)
Record Business := mkBusiness {
  id : option Z;
  place_id : option string;
  name : option string;
  address : option string;
  phone : option string;
  website : option string;
  rating : option Q;
  review_count : option Z;
  business_types : option (list string);
  latitude : option Q;
  longitude : option Q;
  search_id : option Z;
  created_at : option string
}.

(** [class APIUsage(Base)]. *)
Record APIUsage := mkAPIUsage {
  u_id : option Z;
  u_month : string;
  u_call_count : Z;
  u_last_updated : option string
}.

(** [Business.to_dict], lines 50-65: the twelve keys of the literal, in the
    order they are written. *)
Definition to_dict (self : Business) : Py.dict :=
  [ ("id", Py.of_int (id self));
    ("place_id", Py.of_str (place_id self));
    ("name", Py.of_str (name self));
    ("address", Py.of_str (address self));
    ("phone", Py.of_str (phone self));
    ("website", Py.of_str (website self));
    ("rating", Py.of_float (rating self));
    ("review_count", Py.of_int (review_count self));
    ("business_types",
       match business_types self with
       | Some l => Py.VList (map Py.VStr l)
       | None => Py.VList []
       end);
    ("latitude", Py.of_float (latitude self));
    ("longitude", Py.of_float (longitude self));
    ("created_at", Py.of_str (created_at self)) ].

(** The types listed for a business: none for a NULL or empty column. *)
Definition types_of (b : Business) : list string := default [] (business_types b).

(** The record built by [test_to_dict_includes_lead_score]. *)
Definition test_business : Business :=
  {| id := Some 1; place_id := Some "test_place_id";
     name := Some "Test Business"; address := None;
     phone := Some "+123"; website := None;
     rating := Some (45 # 10)%Q; review_count := Some 100;
     business_types := Some []; latitude := None; longitude := None;
     search_id := None; created_at := None |}.

End Database.

(** ** [app/rate_limiter.py] *)

Module RateLimiter.

(** What [check] and [get_remaining] read of a [Request]: the value of the
    [X-Forwarded-For] header, if the request carries one, and the host of
    [request.client], if there is a client. *)
Record Request := mkRequest {
  x_forwarded_for : option string;
  client_host : option string
}.

Record HTTPException := mkHTTPException {
  status_code : Z;
  detail : string;
  retry_after : string
}.

(** [class RateLimiter]; [requests] is the [defaultdict(list)]. *)
Record t := mk {
  requests_per_minute : Z;
  burst_limit : Z;
  requests : gmap string (list Q)
}.

(** [RateLimiter.__init__] with its defaults. *)
Definition init (requests_per_minute burst_limit : Z) : t :=
  mk requests_per_minute burst_limit ∅.

(** The module-level instance, [RateLimiter(30, 10)]. *)
Definition rate_limiter : t := init 30 10.

(** [self.requests[ip]] read: a missing key reads as the empty list. *)
Definition window (self : t) (ip : string) : list Q :=
  default [] (requests self !! ip).

Definition set_window (self : t) (ip : string) (w : list Q) : t :=
  mk (requests_per_minute self) (burst_limit self) (<[ip := w]> (requests self)).

(** [t for t in l if now - t < seconds] *)
Definition within (now : Q) (seconds : Z) (l : list Q) : list Q :=
  List.filter (fun t => Py.Qltb (now - t) (inject_Z seconds)) l.

(** [_clean_old_requests]; [now] is the reading of [time.time()]. *)
Definition _clean_old_requests (self : t) (ip : string) (now : Q) : t :=
  set_window self ip (within now 60 (window self ip)).

(** [_check_burst]; it is called after [_clean_old_requests], so the key is
    present and the read adds no entry. *)
Definition _check_burst (self : t) (ip : string) (now : Q) : bool :=
  burst_limit self <=? Py.len (within now 5 (window self ip)).

(** The client identifier computed at the head of [check]. *)
Definition check_ip (request : Request) : string :=
  match x_forwarded_for request with
  | Some forwarded =>
      if negb (String.eqb forwarded "")
      then Py.strip (Py.split_first "," forwarded)
      else default "unknown" (client_host request)
  | None => default "unknown" (client_host request)
  end.

(** The client identifier computed at the head of [get_remaining]. *)
Definition remaining_ip (request : Request) : string :=
  default "unknown" (client_host request).

(** The three readings of [time.time()] made by one call of [check], in the
    order they are made: in [_clean_old_requests], in [_check_burst] and in
    the final [append]. *)
Record Clock := mkClock {
  at_clean : Q;
  at_burst : Q;
  at_record : Q
}.

(** [check]: the exception raised, or [tt], and the limiter afterwards. *)
Definition check (self : t) (request : Request) (clock : Clock)
  : (HTTPException + unit) * t :=
  let ip := check_ip request in
  let self := _clean_old_requests self ip (at_clean clock) in
  if _check_burst self ip (at_burst clock) then
    (inl (mkHTTPException 429 "Too many requests. Please slow down." "5"), self)
  else if requests_per_minute self <=? Py.len (window self ip) then
    (inl (mkHTTPException 429
            ("Rate limit exceeded. Max " +:+ pretty (requests_per_minute self)
               +:+ " requests per minute.") "60"), self)
  else
    (inr tt, set_window self ip (window self ip ++ [at_record clock])).

Record Remaining := mkRemaining {
  limit : Z;
  remaining : Z;
  reset_in_seconds : Z
}.

(** [get_remaining] *)
Definition get_remaining (self : t) (request : Request) (now : Q)
  : Remaining * t :=
  let ip := remaining_ip request in
  let self := _clean_old_requests self ip now in
  let used := Py.len (window self ip) in
  (mkRemaining (requests_per_minute self)
     (Z.max 0 (requests_per_minute self - used)) 60, self).

(** The two rejections of the module's instance. *)
Definition burst_rejection : HTTPException :=
  mkHTTPException 429 "Too many requests. Please slow down." "5".

Definition minute_rejection : HTTPException :=
  mkHTTPException 429 "Rate limit exceeded. Max 30 requests per minute." "60".

(** A client behind a proxy: ten requests recorded in the first second. *)
Definition proxied : Request := mkRequest (Some "203.0.113.7, 10.0.0.1") (Some "10.0.0.1").

Definition bursting : t :=
  set_window rate_limiter "203.0.113.7"
    (map (fun n => (n # 10)%Q) [0; 1; 2; 3; 4; 5; 6; 7; 8; 9]).

Definition at_time (now : Q) : Clock := mkClock now now now.

End RateLimiter.

(** ** [app/routers/businesses.py] *)

Module Businesses.
Import Database.

(** [Business.website.isnot(None), Business.website != ""] *)
Definition has_site (b : Business) : bool :=
  match website b with
  | Some w => negb (String.eqb w "")
  | None => false
  end.

(** [(Business.website.is_(None)) | (Business.website == "")] *)
Definition has_no_site (b : Business) : bool :=
  match website b with
  | Some w => String.eqb w ""
  | None => true
  end.

(** [Business.search_id == search_id]: a NULL column matches nothing. *)
Definition search_id_is (n : Z) (b : Business) : bool :=
  match search_id b with
  | Some m => m =? n
  | None => false
  end.

(** [Business.rating >= min_rating]: a NULL rating matches nothing. *)
Definition rating_at_least (x : Q) (b : Business) : bool :=
  match rating b with
  | Some r => Qle_bool x r
  | None => false
  end.

(** The three optional [filter] calls of [list_businesses], in order. *)
Definition apply_filters (search_id : option Z) (has_website : option bool)
    (min_rating : option Q) (query : list Business) : list Business :=
  let query :=
    match search_id with
    | Some n => if Py.truthy_int search_id
                then List.filter (search_id_is n) query else query
    | None => query
    end in
  let query :=
    match has_website with
    | Some true => List.filter has_site query
    | Some false => List.filter has_no_site query
    | None => query
    end in
  match min_rating with
  | Some x => if Py.truthy_float min_rating
              then List.filter (rating_at_least x) query else query
  | None => query
  end.

(** [a] may come before [b] under [rating DESC NULLS LAST]. *)
Definition rating_before (a b : Business) : bool :=
  match rating a, rating b with
  | Some x, Some y => Qle_bool y x
  | Some _, None => true
  | None, Some _ => false
  | None, None => true
  end.

Fixpoint insert_by_rating (b : Business) (l : list Business) : list Business :=
  match l with
  | [] => [b]
  | c :: l' =>
      if rating_before b c then b :: c :: l' else c :: insert_by_rating b l'
  end.

(** [order_by(Business.rating.desc().nullslast())]; rows of equal rating
    keep the order of the table. *)
Fixpoint order_by_rating (l : list Business) : list Business :=
  match l with
  | [] => []
  | b :: l' => insert_by_rating b (order_by_rating l')
  end.

(** [.offset(offset).limit(limit)] as SQLite evaluates [LIMIT ? OFFSET ?]:
    a negative offset counts as zero and a negative limit puts no bound on
    the number of rows. *)
Definition offset_limit {A} (offset limit : Z) (l : list A) : list A :=
  let l := skipn (Z.to_nat offset) l in
  if limit <? 0 then l else firstn (Z.to_nat limit) l.

Record Listing := mkListing {
  total : Z;
  limit : Z;
  offset : Z;
  businesses : list Py.dict
}.

(** [list_businesses]; [db] is the [businesses] table. *)
Definition list_businesses (search_id : option Z) (has_website : option bool)
    (min_rating : option Q) (limit offset : Z) (db : list Business) : Listing :=
  let query := apply_filters search_id has_website min_rating db in
  let total := Py.len query in
  let businesses := offset_limit offset limit (order_by_rating query) in
  mkListing total limit offset (map to_dict businesses).

Record Stats := mkStats {
  total_businesses : Z;
  with_website : Z;
  without_website : Z;
  website_percentage : Py.number
}.

(** [get_stats]; [None] is the [ZeroDivisionError] of [with_website / total]. *)
Definition get_stats (db : list Business) : option Stats :=
  let total := Py.len db in
  let with_website := Py.len (List.filter has_site db) in
  let without_website := total - with_website in
  pct ← (if 0 <? total
         then Py.NFloat <$> Py.percentage with_website total
         else Some (Py.NInt 0));
  Some (mkStats total with_website without_website pct).

(** The order of [rating DESC NULLS LAST] as a relation. *)
Definition ranks_before (a b : Business) : Prop := rating_before a b = true.

(** A stored business of the given website, rating and owning search. *)
Definition stored (w : option string) (r : option Q) (s : option Z) : Business :=
  mkBusiness (Some 1) (Some "p") (Some "n") None None w r None None None None
    s None.

(** Four businesses, three of them with a website. *)
Definition three_of_four : list Business :=
  [ stored (Some "https://a.example") (Some 4.5%Q) (Some 1);
    stored None None (Some 1);
    stored (Some "https://b.example") (Some 3%Q) (Some 2);
    stored (Some "https://c.example") None (Some 2) ].

(** A business without a rating. *)
Definition unrated : Business := stored None None (Some 1).

(** The float [75.0]. *)
Definition seventy_five : Py.float := S754_finite false 5277655813324800 (-46).

(** Three businesses, one of them with a website. *)
Definition one_of_three : list Business :=
  [ stored (Some "https://a.example") (Some 4.5%Q) (Some 1);
    stored None None (Some 1);
    stored (Some "") (Some 3%Q) (Some 2) ].

(** The float [33.3]. *)
Definition thirty_three_point_three : Py.float :=
  S754_finite false 4686558362232422 (-47).

(** [Business.id == business_id] *)
Definition id_is (n : Z) (b : Business) : bool :=
  match id b with
  | Some m => m =? n
  | None => false
  end.

(** [get_business] *)
Definition get_business (business_id : Z) (db : list Business)
  : Http.HTTPException + Py.dict :=
  match find (id_is business_id) db with
  | Some business => inr (to_dict business)
  | None => inl (Http.mkHTTPException 404 "Business not found" [])
  end.

(** No two rows share a primary key, and every row has one. *)
Definition keyed (db : list Business) : Prop :=
  NoDup (map id db) /\ Forall (fun b => id b <> None) db.

(** Three stored businesses with keys 1 to 3. *)
Definition catalogue : list Business :=
  [ mkBusiness (Some 1) (Some "A") (Some "Smile Dental") None None
      (Some "https://smile.example") (Some 4.5%Q) (Some 120) None None None
      (Some 1) None;
    mkBusiness (Some 2) (Some "B") (Some "Tooth Clinic") None None
      None (Some 3.9%Q) (Some 40) None None None (Some 1) None;
    mkBusiness (Some 3) (Some "C") (Some "Corner Cafe") None None
      (Some "") None None None None None (Some 2) None ].

End Businesses.

(** ** [services/places_api.py] *)

Module PlacesApi.
Import Database.

(** *** The Google Maps client

    What the service reads of the client's answers.  An answer is either the
    text [str(e)] of the exception [e] the call raised, or the value
    returned. *)

Record GeocodeResult := mkGeocodeResult {
  g_lat : Q;
  g_lng : Q
}.

(** One item of [results["results"]]; every field is read with [.get]. *)
Record Place := mkPlace {
  p_place_id : option string;
  p_name : option string;
  p_formatted_address : option string;
  p_rating : option Q;
  p_user_ratings_total : option Z;
  p_types : option (list string);
  p_lat : option Q;
  p_lng : option Q
}.

Record PlaceDetails := mkPlaceDetails {
  d_formatted_phone_number : option string;
  d_website : option string;
  d_url : option string
}.

(** The external calls, as the service issues them. *)
Inductive Call :=
| Geocode (location : string)
| TextSearch (query : string) (lat lng : Q) (radius : Z)
| Details (place_id : option string).

(** The client may answer the same call differently at different moments:
    each answer depends on the calls made before it.  [places] returns the
    value of the ["results"] key, if present, and [place] that of the
    ["result"] key. *)
Record Client := mkClient {
  geocode : list Call -> string -> string + list GeocodeResult;
  places : list Call -> string -> Q * Q -> Z -> string + option (list Place);
  place : list Call -> option string -> string + option PlaceDetails
}.

(** *** The database session *)

Record Db := mkDb {
  searches : list Search;
  businesses : list Business;
  api_usage : list APIUsage
}.

(** [pending] holds the [Business] objects passed to [db.add] and not yet
    written: the session is created with [autoflush=False], so queries read
    the tables only.  [calls] records the external calls made so far.
    [failed] is set when a flush has raised: the session has rolled its
    transaction back and refuses every database access until
    [rollback()] is called, which the program never does. *)
Record State := mkState {
  db : Db;
  pending : list Business;
  calls : list Call;
  failed : bool
}.

Inductive exn :=
| APILimitExceeded (msg : string)
| PlacesAPIError (msg : string)
| ClientError (msg : string)
| IntegrityError (msg : string)
| PendingRollbackError (msg : string)
| ZeroDivisionError.

(** [str(e)] *)
Definition str (e : exn) : string :=
  match e with
  | APILimitExceeded msg | PlacesAPIError msg
  | ClientError msg | IntegrityError msg | PendingRollbackError msg => msg
  | ZeroDivisionError => "division by zero"
  end.

(** A computation either raises or returns, and leaves a state behind in
    both cases. *)
Definition M (A : Type) : Type := State -> (exn + A) * State.

#[export] Instance M_ret : MRet M := fun A a st => (inr a, st).

#[export] Instance M_bind : MBind M := fun A B f m st =>
  match m st with
  | (inr a, st') => f a st'
  | (inl e, st') => (inl e, st')
  end.

Definition raise {A} (e : exn) : M A := fun st => (inl e, st).

(** [try: m  except Exception as e: h e] *)
Definition try_except {A} (m : M A) (h : exn -> M A) : M A := fun st =>
  match m st with
  | (inl e, st') => h e st'
  | r => r
  end.

(** What a session whose flush has failed raises at a database access; in
    Python the text goes on with that of the original exception. *)
Definition rolled_back : exn :=
  PendingRollbackError
    ("This Session's transaction has been rolled back due to a previous "
     +:+ "exception during flush. To begin a new transaction with this "
     +:+ "Session, first issue Session.rollback().").

(** A statement sent to the database through the session: refused by a
    session that has failed, answered from the tables otherwise. *)
Definition execute {A} (q : Db -> A) : M A := fun st =>
  if failed st then (inl rolled_back, st) else (inr (q (db st)), st).

(** The primary key SQLite gives to a new row: one more than the largest. *)
Definition next_id {A} (ident : A -> option Z) (tbl : list A) : Z :=
  1 + fold_right Z.max 0 (map (fun r => default 0 (ident r)) tbl).

(** [Business.place_id == p], which is [IS NULL] when [p] is [None]. *)
Definition place_id_is (p : option string) (b : Business) : bool :=
  match p, place_id b with
  | Some x, Some y => String.eqb x y
  | None, None => true
  | _, _ => false
  end.

(** Two rows clash under [unique=True] when both identifiers are set and
    equal. *)
Definition clashes (b c : Business) : bool :=
  match place_id b, place_id c with
  | Some x, Some y => String.eqb x y
  | _, _ => false
  end.

Section Service.

(** [self.client], [settings.MONTHLY_API_LIMIT] and the reading of
    [datetime.utcnow()] as ISO-8601 text, taken as constant over one
    request. *)
Variable client : Client.
Variable MONTHLY_API_LIMIT : Z.
Variable utcnow : string.

(** [INSERT] of one pending business: [name] is [nullable=False] and
    [place_id] is [unique=True]; the row gets its key and the default of
    [created_at]. *)
Definition insert_business (tbl : list Business) (b : Business)
  : option (list Business) :=
  match name b with
  | None => None
  | Some _ =>
      if existsb (clashes b) tbl then None
      else Some (tbl ++ [
        {| id := Some (next_id id tbl); place_id := place_id b;
           name := name b; address := address b; phone := phone b;
           website := website b; rating := rating b;
           review_count := review_count b;
           business_types := business_types b;
           latitude := latitude b; longitude := longitude b;
           search_id := search_id b;
           created_at := Some (default utcnow (created_at b)) |}])
  end.

Fixpoint flush (tbl : list Business) (new : list Business)
  : option (list Business) :=
  match new with
  | [] => Some tbl
  | b :: new' => tbl' ← insert_business tbl b; flush tbl' new'
  end.

(** [self.db.commit()] after the change [f] to the other tables: the pending
    businesses are written with it.  When a constraint fails the transaction
    is rolled back: nothing is written, the pending objects leave the
    session, and the session has failed.  A session that has failed refuses
    to commit. *)
Definition commit_with (f : Db -> Db) : M unit := fun st =>
  if failed st then (inl rolled_back, st)
  else
    match flush (businesses (db st)) (pending st) with
    | Some tbl =>
        (inr tt,
         mkState (f (mkDb (searches (db st)) tbl (api_usage (db st)))) []
           (calls st) false)
    | None =>
        (inl (IntegrityError "constraint failed"),
         mkState (db st) [] (calls st) true)
    end.

Definition commit : M unit := commit_with (fun d => d).

(** [_get_current_month]: [strftime("%Y-%m")]. *)
Definition _get_current_month : string := substring 0 7 utcnow.

Definition month_is (m : string) (u : APIUsage) : bool := String.eqb (u_month u) m.

(** [self.db.query(APIUsage).filter(APIUsage.month == month).first()] *)
Definition usage_row (d : Db) : option APIUsage :=
  find (month_is _get_current_month) (api_usage d).

(** [usage.call_count if usage else 0]: the calls counted for the month. *)
Definition month_count (d : Db) : Z := from_option u_call_count 0 (usage_row d).

(** [_check_api_limit] *)
Definition _check_api_limit : M (Z * Z) :=
  current_count ← execute month_count;
  mret (current_count, MONTHLY_API_LIMIT).

(** The first row of the month with [count] added and the update time set. *)
Fixpoint bump (count : Z) (tbl : list APIUsage) : list APIUsage :=
  match tbl with
  | [] => []
  | u :: tbl' =>
      if month_is _get_current_month u
      then mkAPIUsage (u_id u) (u_month u) (u_call_count u + count)
             (Some utcnow) :: tbl'
      else u :: bump count tbl'
  end.

(** [_increment_api_usage]: the query of line 45 and the commit of line 54
    are refused by a failed session alike, with the session left as it
    is. *)
Definition _increment_api_usage (count : Z) : M unit :=
  commit_with (fun d =>
    mkDb (searches d) (businesses d)
      match usage_row d with
      | Some _ => bump count (api_usage d)
      | None =>
          api_usage d ++
          [mkAPIUsage (Some (next_id u_id (api_usage d))) _get_current_month
             count (Some utcnow)]
      end).

Record UsageStats := mkUsageStats {
  month : string;
  calls_used : Z;
  calls_limit : Z;
  calls_remaining : Z;
  percentage_used : Py.number
}.

(** [get_usage_stats] *)
Definition get_usage_stats : M UsageStats :=
  '(current, limit) ← _check_api_limit;
  pct ← (if 0 <? limit
         then match Py.percentage current limit with
              | Some x => mret (Py.NFloat x)
              | None => raise ZeroDivisionError
              end
         else mret (Py.NInt 0));
  mret (mkUsageStats _get_current_month current limit
          (Z.max 0 (limit - current)) pct).

(** An external call: it is recorded, then it raises or returns. *)
Definition external {A} (c : Call) (answer : list Call -> string + A) : M A :=
  fun st =>
    let st' := mkState (db st) (pending st) (calls st ++ [c]) (failed st) in
    match answer (calls st) with
    | inl msg => (inl (ClientError msg), st')
    | inr a => (inr a, st')
    end.

(** [self.db.query(Business).filter(Business.place_id == p).first()] *)
Definition existing_business (p : option string) : M (option Business) :=
  execute (fun d => find (place_id_is p) (businesses d)).

(** [search_record.id]: every commit and every rollback expires the
    attributes of the [Search] object, so that reading its key afterwards
    loads it from the database. *)
Definition search_record_id (key : Z) : M Z := execute (fun _ => key).

(** [self.db.add]: the object waits in the session.  The program reaches
    this call with a session that has not failed only. *)
Definition add (b : Business) : M unit := fun st =>
  (inr tt, mkState (db st) (pending st ++ [b]) (calls st) (failed st)).

(** The [Business(...)] built from a search result and the details. *)
Definition new_business (search_id : Z) (p : Place)
    (details : option PlaceDetails) : Business :=
  {| id := None;
     place_id := p_place_id p;
     name := p_name p;
     address := p_formatted_address p;
     phone := details ≫= d_formatted_phone_number;
     website := details ≫= d_website;
     rating := p_rating p;
     review_count := p_user_ratings_total p;
     business_types := Some (default [] (p_types p));
     latitude := p_lat p;
     longitude := p_lng p;
     search_id := Some search_id;
     created_at := None |}.

Definition no_details : PlaceDetails := mkPlaceDetails None None None.

(** Lines 148-159: [details] and [current] after the guarded [try].  The
    bare [except] keeps what was assigned before the exception, and
    swallows the failure of the commit that counts the call: the session is
    then left failed. *)
Definition fetch_details (p : Place) (current limit : Z)
  : M (option PlaceDetails * Z) :=
  if current + 2 <? limit then
    try_except
      (details_response ← external (Details (p_place_id p))
                            (fun h => place client h (p_place_id p));
       let details := Some (default no_details details_response) in
       try_except
         (_ ← _increment_api_usage 1; mret (details, current + 1))
         (fun _ => mret (details, current)))
      (fun _ => mret (None, current))
  else mret (None, current).

(** The body of the [for] loop, lines 137-176, on the locals [current] and
    [businesses].  The last argument of [Business(...)], line 173, reads
    [search_record.id]. *)
Definition process_place (search_id limit : Z) (p : Place)
    (locals : Z * list Py.dict) : M (Z * list Py.dict) :=
  let '(current, businesses) := locals in
  existing ← existing_business (p_place_id p);
  match existing with
  | Some b => mret (current, businesses ++ [to_dict b])
  | None =>
      '(details, current) ← fetch_details p current limit;
      search_id ← search_record_id search_id;
      let business := new_business search_id p details in
      _ ← add business;
      mret (current, businesses ++ [to_dict business])
  end.

Fixpoint process_places (search_id limit : Z) (ps : list Place)
    (locals : Z * list Py.dict) : M (Z * list Py.dict) :=
  match ps with
  | [] => mret locals
  | p :: ps' =>
      locals ← process_place search_id limit p locals;
      process_places search_id limit ps' locals
  end.

(** Lines 123-130: the [Search] row is added and committed; its key is
    returned. *)
Definition add_search (query location : string) (radius_km count : Z) : M Z :=
  fun st =>
    let key := next_id s_id (searches (db st)) in
    let row := mkSearch (Some key) query location radius_km count (Some utcnow) in
    match commit_with (fun d =>
            mkDb (searches d ++ [row]) (businesses d) (api_usage d)) st with
    | (inr _, st') => (inr key, st')
    | (inl e, st') => (inl e, st')
    end.

Record Response := mkResponse {
  r_search_id : Z;
  r_query : string;
  r_location : string;
  r_radius_km : Z;
  total_results : Z;
  r_businesses : list Py.dict;
  r_api_usage : UsageStats
}.

(** [search_businesses] *)
Definition search_businesses (query location : string)
    (radius_km max_results : Z) : M Response :=
  '(current, limit) ← _check_api_limit;
  if limit <=? current then
    raise (APILimitExceeded
             ("Monthly API limit reached (" +:+ pretty current +:+ "/"
                +:+ pretty limit +:+ "). Limit resets next month."))
  else
    geocode_result ←
      try_except
        (r ← external (Geocode location) (fun h => geocode client h location);
         _ ← _increment_api_usage 1;
         mret r)
        (fun e => raise (PlacesAPIError
                           ("Failed to geocode location: " +:+ str e)));
    match geocode_result with
    | [] => raise (PlacesAPIError ("Could not find location: " +:+ location))
    | g :: _ =>
        let lat := g_lat g in
        let lng := g_lng g in
        let search_query := query +:+ " in " +:+ location in
        let radius_meters := radius_km * 1000 in
        results ←
          try_except
            (r ← external (TextSearch search_query lat lng radius_meters)
                   (fun h => places client h search_query (lat, lng)
                               radius_meters);
             _ ← _increment_api_usage 1;
             mret r)
            (fun e => raise (PlacesAPIError
                               ("Places search failed: " +:+ str e)));
        search_id ← add_search query location radius_km
                      (Py.len (default [] results));
        let places_to_process := Py.slice_to max_results (default [] results) in
        '(_, businesses) ←
          process_places search_id limit places_to_process (current, []);
        _ ← commit;
        search_id ← search_record_id search_id;
        usage ← get_usage_stats;
        mret (mkResponse search_id query location radius_km
                (Py.len businesses) businesses usage)
    end.

End Service.

(** No two stored businesses share a place identifier. *)
Definition unique_place_ids (tbl : list Business) : Prop :=
  NoDup (omap place_id tbl).

(** [m] keeps the property [I] of the state, whether it raises or returns. *)
Definition keeps {A} (I : State -> Prop) (m : M A) : Prop :=
  forall st, I st -> I (snd (m st)).

Definition unique_state (st : State) : Prop :=
  unique_place_ids (businesses (db st)).

(** The calls the loop makes. *)
Definition is_details (c : Call) : Prop :=
  match c with Details _ => True | _ => False end.

(** *** A run used in the examples: a search for dentists in Cape Town in
    January 2024, answered with two places, every details call answered. *)

Definition january : string := "2024-01-15T10:30:00".

Definition dentist : Place :=
  mkPlace (Some "A") (Some "Smile Dental") (Some "1 Main Rd") (Some 4.5%Q)
    (Some 120) (Some ["dentist"]) (Some (-33.9)%Q) (Some 18.4%Q).

Definition clinic : Place :=
  mkPlace (Some "B") (Some "Tooth Clinic") (Some "2 Long St") (Some 3.9%Q)
    (Some 40) (Some ["dentist"; "health"]) (Some (-33.92)%Q) (Some 18.42%Q).

Definition answering : Client :=
  mkClient
    (fun _ _ => inr [mkGeocodeResult (-33.9)%Q 18.4%Q])
    (fun _ _ _ _ => inr (Some [dentist; clinic]))
    (fun _ _ => inr (Some (mkPlaceDetails (Some "+27 21 000 0000")
                             (Some "https://smile.example") None))).

(** A database with no search, the given businesses and [n] calls counted
    for January 2024, seen through a new session. *)
Definition counted (n : Z) (tbl : list Business) : State :=
  mkState (mkDb [] tbl [mkAPIUsage (Some 1) "2024-01" n None]) [] [] false.

(** The state in which the loop starts when the search begins at
    [counted n tbl]. *)
Definition at_loop (n : Z) (tbl : list Business) : State :=
  mkState
    (mkDb [mkSearch (Some 1) "dentists" "Cape Town" 10 2 (Some january)] tbl
       [mkAPIUsage (Some 1) "2024-01" (n + 2) (Some january)])
    []
    [Geocode "Cape Town";
     TextSearch "dentists in Cape Town" (-33.9)%Q 18.4%Q 10000]
    false.

(** The dentist as stored by an earlier search. *)
Definition stored_dentist : Business :=
  mkBusiness (Some 1) (Some "A") (Some "Smile Dental") (Some "1 Main Rd")
    (Some "+27 21 000 0000") (Some "https://smile.example") (Some 4.5%Q)
    (Some 120) (Some ["dentist"]) (Some (-33.9)%Q) (Some 18.4%Q) (Some 7)
    (Some "2023-12-01T08:00:00").

(** At most one usage row per month. *)
Definition one_row_per_month (d : Db) : Prop :=
  NoDup (map u_month (api_usage d)).

(** Whatever [m] raises satisfies [P]. *)
Definition raises_only {A} (P : exn -> Prop) (m : M A) : Prop :=
  forall st e, fst (m st) = inl e -> P e.

(** The exceptions [search_businesses] classifies or lets through from the
    session. *)
Definition classified (e : exn) : Prop :=
  match e with
  | APILimitExceeded _ | PlacesAPIError _ | IntegrityError _
  | PendingRollbackError _ => True
  | ClientError _ | ZeroDivisionError => False
  end.

(** The result is not stored. *)
Definition unknown (tbl : list Business) (p : Place) : bool :=
  match find (place_id_is (p_place_id p)) tbl with
  | None => true
  | Some _ => false
  end.

(** A client whose text search answers twice with the same new place. *)
Definition repeating : Client :=
  mkClient
    (fun _ _ => inr [mkGeocodeResult (-33.9)%Q 18.4%Q])
    (fun _ _ _ _ => inr (Some [dentist; dentist]))
    (fun _ _ => inr None).

(** A result without a name, which the [businesses] table refuses. *)
Definition nameless : Place :=
  mkPlace (Some "N") None (Some "3 Side St") None None None None None.

(** A client whose text search answers with the nameless place, then the
    clinic, and whose details calls are answered. *)
Definition careless : Client :=
  mkClient
    (fun _ _ => inr [mkGeocodeResult (-33.9)%Q 18.4%Q])
    (fun _ _ _ _ => inr (Some [nameless; clinic]))
    (fun _ _ => inr None).

(** The loop of the search above after its first iteration: the nameless
    business waits in the session. *)
Definition at_clinic : State :=
  mkState
    (mkDb [mkSearch (Some 1) "dentists" "Cape Town" 10 2 (Some january)] []
       [mkAPIUsage (Some 1) "2024-01" 3 (Some january)])
    [new_business 1 nameless (Some no_details)]
    [Geocode "Cape Town";
     TextSearch "dentists in Cape Town" (-33.9)%Q 18.4%Q 10000;
     Details (Some "N")]
    false.

(** A client whose calls all raise. *)
Definition failing : Client :=
  mkClient (fun _ _ => inl "timeout") (fun _ _ _ _ => inl "timeout")
    (fun _ _ => inl "timeout").

(** A client that finds no location. *)
Definition lost : Client :=
  mkClient (fun _ _ => inr []) (fun _ _ _ _ => inr None) (fun _ _ => inr None).

(** A client that finds the location and whose text search raises. *)
Definition half_failing : Client :=
  mkClient (fun _ _ => inr [mkGeocodeResult (-33.9)%Q 18.4%Q])
    (fun _ _ _ _ => inl "OVER_QUERY_LIMIT") (fun _ _ => inr None).

End PlacesApi.

(** ** [app/routers/search.py] *)

Module SearchRouter.
Import PlacesApi.

(** [class SearchRequest(BaseModel)] *)
Record SearchRequest := mkSearchRequest {
  query : string;
  location : string;
  radius_km : Z;
  max_results : Z
}.

(** The bounds declared with [Field(ge=1, le=50)] and [Field(ge=1, le=20)]. *)
Definition validates (request : SearchRequest) : bool :=
  (1 <=? radius_km request) && (radius_km request <=? 50)
  && (1 <=? max_results request) && (max_results request <=? 20).

(** What the endpoints work on: the module's rate limiter, the tables and
    the record of the external calls made. *)
Record World := mkWorld {
  limiter : RateLimiter.t;
  tables : Db;
  called : list Call
}.

(** The [HTTPException] of the rate limiter, with its [Retry-After]
    header. *)
Definition of_rate_limit (e : RateLimiter.HTTPException) : Http.HTTPException :=
  Http.mkHTTPException (RateLimiter.status_code e) (RateLimiter.detail e)
    [("Retry-After", RateLimiter.retry_after e)].

Section Endpoints.

(** [settings.GOOGLE_MAPS_API_KEY] and [settings.MONTHLY_API_LIMIT]; what
    [googlemaps.Client(key=...)] gives for that key, the text of the
    exception it raises or the client; and the reading of
    [datetime.utcnow()]. *)
Variable GOOGLE_MAPS_API_KEY : string.
Variable MONTHLY_API_LIMIT : Z.
Variable connect : string + Client.
Variable utcnow : string.

(** [PlacesService.__init__]: the exception raised, or the client of the
    service. *)
Definition new_service : exn + Client :=
  if String.eqb GOOGLE_MAPS_API_KEY "" then
    inl (PlacesAPIError "Google Maps API key not configured")
  else
    match connect with
    | inl msg => inl (ClientError msg)
    | inr client => inr client
    end.

(** The session of one request: [get_db] opens it on the tables and closes
    it afterwards, so that what is still pending is dropped. *)
Definition open_session (w : World) : State :=
  mkState (tables w) [] (called w) false.

Definition close_session (w : World) (st : State) : World :=
  mkWorld (limiter w) (db st) (calls st).

(** The three [except] clauses of the [search_businesses] endpoint. *)
Definition to_http (e : exn) : Http.HTTPException :=
  match e with
  | APILimitExceeded _ => Http.mkHTTPException 429 (str e) []
  | PlacesAPIError _ => Http.mkHTTPException 400 (str e) []
  | _ => Http.mkHTTPException 500 ("Search failed: " +:+ str e) []
  end.

(** The body of the [search_businesses] endpoint. *)
Definition search_businesses (request : SearchRequest)
    (req : RateLimiter.Request) (clock : RateLimiter.Clock) (w : World)
  : Http.reply Response * World :=
  match RateLimiter.check (limiter w) req clock with
  | (inl e, limiter') =>
      (Http.Raised (of_rate_limit e), mkWorld limiter' (tables w) (called w))
  | (inr _, limiter') =>
      let w := mkWorld limiter' (tables w) (called w) in
      match new_service with
      | inl e => (Http.Raised (to_http e), w)
      | inr client =>
          match PlacesApi.search_businesses client MONTHLY_API_LIMIT utcnow
                  (query request) (location request) (radius_km request)
                  (max_results request) (open_session w) with
          | (inr results, st) => (Http.Returned results, close_session w st)
          | (inl e, st) => (Http.Raised (to_http e), close_session w st)
          end
      end
  end.

(** [POST /api/search]: the body is validated before the endpoint function
    is called. *)
Definition post_search (request : SearchRequest)
    (req : RateLimiter.Request) (clock : RateLimiter.Clock) (w : World)
  : Http.reply Response * World :=
  if validates request then search_businesses request req clock w
  else (Http.Unprocessable, w).

(** [GET /api/search/usage]: only [PlacesAPIError] is caught. *)
Definition get_api_usage (w : World) : Http.reply UsageStats * World :=
  match new_service with
  | inl (PlacesAPIError msg) => (Http.Raised (Http.mkHTTPException 400 msg []), w)
  | inl e => (Http.Crashed (str e), w)
  | inr client =>
      match get_usage_stats MONTHLY_API_LIMIT utcnow (open_session w) with
      | (inr usage, st) => (Http.Returned usage, close_session w st)
      | (inl e, st) => (Http.Crashed (str e), close_session w st)
      end
  end.

End Endpoints.

(** A world with the module's limiter, no rows but [n] calls counted for
    January 2024, and no call made. *)
Definition quiet (n : Z) : World :=
  mkWorld RateLimiter.rate_limiter (db (counted n [])) [].

(** The same with the limiter of a client that has just sent ten requests. *)
Definition busy (n : Z) : World :=
  mkWorld RateLimiter.bursting (db (counted n [])) [].

Definition dentists (max_results : Z) : SearchRequest :=
  mkSearchRequest "dentists" "Cape Town" 10 max_results.

End SearchRouter.

(** * Properties *)

(** ** [Database] *)

Section DatabaseFacts.
Import Database.

Lemma to_dict_keys (b : Business) :
  Py.keys (to_dict b) =
  [ "id"; "place_id"; "name"; "address"; "phone"; "website"; "rating";
    "review_count"; "business_types"; "latitude"; "longitude"; "created_at" ].
Proof. reflexivity. Qed.

(** C1 (the code departs from the claim).  Whatever the record, the
    dictionary returned by [to_dict] has no ["lead_score"] entry: the
    serialization computes no score.  In particular both assertions of
    [test_to_dict_includes_lead_score], ["lead_score" in result] and
    [result["lead_score"] == 100], fail on the record that test builds. *)
Theorem to_dict_has_no_lead_score :
  (forall b : Business, Py.get "lead_score" (to_dict b) = None) /\
  ~ In "lead_score" (Py.keys (to_dict test_business)) /\
  Py.get "lead_score" (to_dict test_business) <> Some (Py.VInt 100).
Proof.
  split; [|split].
  - intros b. reflexivity.
  - rewrite to_dict_keys. simpl. intros H.
    repeat (destruct H as [H|H]; [discriminate H|]). exact H.
  - discriminate.
Qed.

End DatabaseFacts.

(** ** [RateLimiter] *)

Section RateLimiterFacts.
Import RateLimiter.

Lemma Qltb_lt (x y : Q) : Py.Qltb x y = true <-> (x < y)%Q.
Proof.
  unfold Py.Qltb. rewrite negb_true_iff, <- not_true_iff_false, Qle_bool_iff.
  split; [apply Qnot_le_lt | apply Qlt_not_le].
Qed.

Lemma window_set_window (self : t) (ip ip' : string) (w : list Q) :
  window (set_window self ip w) ip' = if decide (ip = ip') then w else window self ip'.
Proof.
  unfold window, set_window. simpl. rewrite lookup_insert.
  destruct (decide (ip = ip')); reflexivity.
Qed.

Lemma window_set_window_eq (self : t) (ip : string) (w : list Q) :
  window (set_window self ip w) ip = w.
Proof. rewrite window_set_window. destruct (decide (ip = ip)); congruence. Qed.

Lemma window_set_window_ne (self : t) (ip ip' : string) (w : list Q) :
  ip <> ip' -> window (set_window self ip w) ip' = window self ip'.
Proof. intros H. rewrite window_set_window. destruct (decide (ip = ip')); congruence. Qed.

Lemma window_clean (self : t) (ip : string) (now : Q) :
  window (_clean_old_requests self ip now) ip = within now 60 (window self ip).
Proof. apply window_set_window_eq. Qed.

Lemma window_clean_ne (self : t) (ip ip' : string) (now : Q) :
  ip <> ip' -> window (_clean_old_requests self ip now) ip' = window self ip'.
Proof. apply window_set_window_ne. Qed.

(** With a clock that does not run backwards, pruning to 60 seconds removes
    nothing the burst check counts. *)
Lemma within_5_within_60 (t1 t2 : Q) (l : list Q) :
  (t1 <= t2)%Q -> within t2 5 (within t1 60 l) = within t2 5 l.
Proof.
  intros Hmono. unfold within. induction l as [|x l IH]; [reflexivity|].
  simpl.
  destruct (Py.Qltb (t2 - x) (inject_Z 5)) eqn:H5.
  - assert (H60 : Py.Qltb (t1 - x) (inject_Z 60) = true).
    { apply Qltb_lt. apply Qltb_lt in H5.
      change (inject_Z 5) with 5%Q in H5. change (inject_Z 60) with 60%Q. lra. }
    rewrite H60. simpl. rewrite H5, IH. reflexivity.
  - destruct (Py.Qltb (t1 - x) (inject_Z 60)); simpl; [rewrite H5|]; exact IH.
Qed.

Lemma within_none (now : Q) (seconds : Z) (l : list Q) :
  Forall (fun t => (inject_Z seconds <= now - t)%Q) l -> within now seconds l = [].
Proof.
  unfold within. induction 1 as [|x l Hx _ IH]; [reflexivity|].
  simpl. destruct (Py.Qltb (now - x) (inject_Z seconds)) eqn:E; [|exact IH].
  apply Qltb_lt in E. exfalso. eapply Qlt_not_le; eassumption.
Qed.

(** Closes the cases of a goal about [check] once its two tests are decided;
    [Hnone] turns "no entry within 5 seconds" into a bound on the count. *)
Ltac settle_check Hnone :=
  repeat split; intros; try reflexivity; try discriminate; try lia;
  try (exfalso;
       first [ lia
             | match goal with
               | H : Forall _ _ |- _ => specialize (Hnone H); lia
               end ]).

(** C5.  For a limiter configured as the module's instance (30 per minute,
    burst of 10), a request from client [ip], and a clock that does not run
    backwards between the pruning and the burst check:
    - if 10 or more recorded requests of [ip] lie within the last 5 seconds,
      the request is rejected with status 429 and [Retry-After: 5], and the
      window holds the pruned old entries only (no timestamp is recorded);
      this is so whatever the 60-second count is (the burst check comes
      first);
    - if fewer than 10 lie within the last 5 seconds (in particular once
      all are 5 seconds old or older) and fewer than 30 remain within the
      trailing 60 seconds, the request is accepted and its timestamp is
      appended to the pruned window;
    - the 60-second rejection ([Retry-After: 60]) is given only when the
      burst check has passed. *)
Theorem check_burst_before_sustained
    (self : t) (request : Request) (clock : Clock) :
  requests_per_minute self = 30 ->
  burst_limit self = 10 ->
  (at_clean clock <= at_burst clock)%Q ->
  let ip := check_ip request in
  let recent := within (at_burst clock) 5 (window self ip) in
  let kept := within (at_clean clock) 60 (window self ip) in
  let '(outcome, self') := check self request clock in
  (10 <= Py.len recent ->
     outcome = inl burst_rejection /\ window self' ip = kept) /\
  (Py.len recent < 10 -> Py.len kept < 30 ->
     outcome = inr tt /\ window self' ip = kept ++ [at_record clock]) /\
  (Forall (fun t => (5 <= at_burst clock - t)%Q) (window self ip) ->
     Py.len kept < 30 ->
     outcome = inr tt /\ window self' ip = kept ++ [at_record clock]) /\
  (Py.len recent < 10 -> 30 <= Py.len kept ->
     outcome = inl minute_rejection /\ window self' ip = kept) /\
  (outcome = inl minute_rejection -> Py.len recent < 10).
Proof.
  intros Hrpm Hburst Hmono ip recent kept.
  unfold check. fold ip.
  unfold _check_burst.
  rewrite !window_clean.
  rewrite (within_5_within_60 _ _ _ Hmono).
  fold recent kept. simpl requests_per_minute. simpl burst_limit.
  rewrite Hrpm, Hburst.
  assert (Hnone : Forall (fun t => (5 <= at_burst clock - t)%Q) (window self ip) ->
                  Py.len recent < 10).
  { intros H. unfold recent. rewrite (within_none _ 5); [reflexivity|exact H]. }
  destruct (10 <=? Py.len recent) eqn:Eb.
  - apply Z.leb_le in Eb. rewrite window_clean. settle_check Hnone.
  - apply Z.leb_gt in Eb.
    destruct (30 <=? Py.len kept) eqn:Em.
    + apply Z.leb_le in Em. rewrite window_clean. settle_check Hnone.
    + apply Z.leb_gt in Em. rewrite window_set_window_eq.
      settle_check Hnone.
Qed.

(** What one call of [check] leaves: the limits as they were, and every
    window other than the caller's untouched. *)
Lemma check_frame (self : t) (request : Request) (clock : Clock) :
  let self' := snd (check self request clock) in
  requests_per_minute self' = requests_per_minute self /\
  burst_limit self' = burst_limit self /\
  forall ip, check_ip request <> ip -> window self' ip = window self ip.
Proof.
  unfold check.
  destruct (_check_burst _ _ _); [|destruct (_ <=? _)]; simpl;
    (split; [reflexivity|split; [reflexivity|]]); intros ip Hne;
    rewrite ?window_set_window_ne by exact Hne;
    apply window_clean_ne; exact Hne.
Qed.

Lemma get_remaining_spec (self : t) (request : Request) (now : Q) :
  let ip := remaining_ip request in
  let kept := within now 60 (window self ip) in
  fst (get_remaining self request now) =
    mkRemaining (requests_per_minute self)
      (Z.max 0 (requests_per_minute self - Py.len kept)) 60 /\
  window (snd (get_remaining self request now)) ip = kept /\
  forall ip', ip <> ip' ->
    window (snd (get_remaining self request now)) ip' = window self ip'.
Proof.
  unfold get_remaining. simpl. rewrite window_clean.
  split; [reflexivity|]. split; [reflexivity|].
  intros ip' Hne. apply window_clean_ne. exact Hne.
Qed.

(** C10.  [get_remaining] takes the client identifier from the socket
    address alone (the forwarded header has no part in it), whereas [check]
    takes the first entry of a non-empty [X-Forwarded-For] header, trimmed.
    Hence for every request whose forwarded entry differs from the socket
    identifier the two work on different windows: [get_remaining] answers
    from, and prunes, the socket window and leaves the forwarded one as it
    is; [check] leaves the socket window as it is; and what [get_remaining]
    reports is the same before and after [check] has run. *)
Theorem get_remaining_ignores_forwarded_for
    (self : t) (request : Request) (clock : Clock) (now : Q)
    (forwarded : string) :
  x_forwarded_for request = Some forwarded ->
  forwarded <> "" ->
  Py.strip (Py.split_first "," forwarded)
    <> default "unknown" (client_host request) ->
  (forall header, remaining_ip (mkRequest header (client_host request))
                  = default "unknown" (client_host request)) /\
  check_ip request = Py.strip (Py.split_first "," forwarded) /\
  check_ip request <> remaining_ip request /\
  let '(answer, after_remaining) := get_remaining self request now in
  let '(_, after_check) := check self request clock in
  remaining answer =
    Z.max 0 (requests_per_minute self
             - Py.len (within now 60 (window self (remaining_ip request)))) /\
  window after_remaining (remaining_ip request)
    = within now 60 (window self (remaining_ip request)) /\
  window after_remaining (check_ip request) = window self (check_ip request) /\
  window after_check (remaining_ip request)
    = window self (remaining_ip request) /\
  fst (get_remaining after_check request now) = answer.
Proof.
  intros Hfwd Hne Hdiff.
  assert (Hip : check_ip request = Py.strip (Py.split_first "," forwarded)).
  { unfold check_ip. rewrite Hfwd.
    destruct (String.eqb_spec forwarded ""); [contradiction|reflexivity]. }
  assert (Hips : check_ip request <> remaining_ip request).
  { rewrite Hip. exact Hdiff. }
  split; [reflexivity|]. split; [exact Hip|]. split; [exact Hips|].
  destruct (get_remaining_spec self request now) as (Hans & Hown & Hother).
  destruct (check_frame self request clock) as (Hrpm & _ & Hframe).
  destruct (get_remaining self request now) as [answer after_remaining].
  destruct (check self request clock) as [outcome after_check].
  simpl in Hans, Hown, Hother, Hrpm, Hframe.
  split; [rewrite Hans; reflexivity|].
  split; [exact Hown|].
  split; [apply Hother; congruence|].
  split; [apply Hframe; exact Hips|].
  destruct (get_remaining_spec after_check request now) as (Hans' & _).
  rewrite Hans', Hans, Hrpm, (Hframe _ Hips). reflexivity.
Qed.

Lemma check_burst_before_sustained_witness :
  fst (check bursting proxied (at_time 1)) = inl burst_rejection /\
  fst (check bursting proxied (at_time 6)) = inr tt.
Proof.
  split.
  - pose proof (check_burst_before_sustained bursting proxied (at_time 1)
                  eq_refl eq_refl (Qle_refl _)) as H.
    cbv zeta in H.
    destruct (check bursting proxied (at_time 1)) as [outcome self'].
    destruct H as (H & _). apply H. vm_compute. discriminate.
  - pose proof (check_burst_before_sustained bursting proxied (at_time 6)
                  eq_refl eq_refl (Qle_refl _)) as H.
    cbv zeta in H.
    destruct (check bursting proxied (at_time 6)) as [outcome self'].
    destruct H as (_ & H & _). apply H; vm_compute; reflexivity.
Defined.

Lemma get_remaining_ignores_forwarded_for_witness :
  check_ip proxied = "203.0.113.7" /\
  remaining_ip proxied = "10.0.0.1" /\
  remaining (fst (get_remaining bursting proxied 1)) = 30.
Proof.
  pose proof (get_remaining_ignores_forwarded_for bursting proxied (at_time 1) 1
                "203.0.113.7, 10.0.0.1" eq_refl
                ltac:(discriminate) ltac:(vm_compute; discriminate)) as H.
  destruct H as (_ & Hc & _ & H).
  split; [exact Hc|]. split; [reflexivity|].
  destruct (get_remaining bursting proxied 1) as [answer after_remaining].
  destruct (check bursting proxied (at_time 1)) as [outcome after_check].
  destruct H as (H & _). cbn [fst]. rewrite H. vm_compute. reflexivity.
Defined.

End RateLimiterFacts.

(** ** [Businesses] *)

Section BusinessesFacts.
Import Database Businesses.

Lemma rating_before_total (a b : Business) :
  rating_before a b = true \/ rating_before b a = true.
Proof.
  unfold rating_before. destruct (rating a) as [x|], (rating b) as [y|]; auto.
  rewrite !Qle_bool_iff. destruct (Qlt_le_dec x y) as [H|H]; [right|left]; auto.
  apply Qlt_le_weak. exact H.
Qed.

#[local] Instance ranks_before_trans : Transitive ranks_before.
Proof.
  intros a b c. unfold ranks_before, rating_before.
  destruct (rating a) as [x|], (rating b) as [y|], (rating c) as [z|];
    try discriminate; auto.
  rewrite !Qle_bool_iff. intros H1 H2. eapply Qle_trans; eassumption.
Qed.

Lemma insert_by_rating_perm (b : Business) (l : list Business) :
  Permutation (b :: l) (insert_by_rating b l).
Proof.
  induction l as [|c l IH]; simpl; [reflexivity|].
  destruct (rating_before b c); [reflexivity|].
  rewrite perm_swap. constructor. exact IH.
Qed.

Lemma order_by_rating_perm (l : list Business) :
  Permutation l (order_by_rating l).
Proof.
  induction l as [|b l IH]; simpl; [reflexivity|].
  rewrite <- insert_by_rating_perm. constructor. exact IH.
Qed.

Lemma insert_by_rating_sorted (b : Business) (l : list Business) :
  Sorted ranks_before l -> Sorted ranks_before (insert_by_rating b l).
Proof.
  induction 1 as [|c l Hl IH Hhd]; simpl.
  - repeat constructor.
  - destruct (rating_before b c) eqn:E.
    + constructor; [constructor; assumption|]. constructor. exact E.
    + assert (Hcb : ranks_before c b).
      { destruct (rating_before_total b c) as [H|H]; [congruence|exact H]. }
      constructor; [exact IH|].
      destruct Hhd as [|d l' Hcd]; simpl.
      * constructor. exact Hcb.
      * destruct (rating_before b d); constructor; assumption.
Qed.

Lemma order_by_rating_sorted (l : list Business) :
  StronglySorted ranks_before (order_by_rating l).
Proof.
  apply Sorted_StronglySorted; [exact ranks_before_trans|].
  induction l as [|b l IH]; simpl; [constructor|].
  apply insert_by_rating_sorted. exact IH.
Qed.

Lemma offset_limit_sorted (offset limit : Z) (l : list Business) :
  StronglySorted ranks_before l ->
  StronglySorted ranks_before (offset_limit offset limit l).
Proof.
  intros H. unfold offset_limit.
  assert (Hd : StronglySorted ranks_before (skipn (Z.to_nat offset) l)).
  { rewrite <- (firstn_skipn (Z.to_nat offset) l) in H.
    eapply StronglySorted_app_1_r. exact H. }
  destruct (limit <? 0); [exact Hd|].
  rewrite <- (firstn_skipn (Z.to_nat limit) (skipn (Z.to_nat offset) l)) in Hd.
  eapply StronglySorted_app_1_l. exact Hd.
Qed.

Lemma offset_limit_length (offset limit : Z) {A} (l : list A) :
  0 <= limit -> Py.len (offset_limit offset limit l) <= limit.
Proof.
  intros H. unfold offset_limit, Py.len.
  destruct (limit <? 0) eqn:E; [apply Z.ltb_lt in E; lia|].
  rewrite length_firstn. lia.
Qed.

(** The rows a page is cut from: those before it number [offset] (or all of
    them, or none for a negative offset). *)
Lemma offset_limit_segment (offset limit : Z) {A} (l : list A) :
  exists before after,
    l = before ++ offset_limit offset limit l ++ after /\
    length before = Nat.min (Z.to_nat offset) (length l).
Proof.
  unfold offset_limit.
  exists (firstn (Z.to_nat offset) l).
  destruct (limit <? 0).
  - exists []. rewrite app_nil_r, firstn_skipn, length_firstn. auto.
  - exists (skipn (Z.to_nat limit) (skipn (Z.to_nat offset) l)).
    rewrite !firstn_skipn, length_firstn. auto.
Qed.

Lemma ranks_before_spec (a b : Business) :
  ranks_before a b <->
  match rating a, rating b with
  | Some x, Some y => (y <= x)%Q
  | _, None => True
  | None, Some _ => False
  end.
Proof.
  unfold ranks_before, rating_before.
  destruct (rating a), (rating b); rewrite ?Qle_bool_iff; intuition discriminate.
Qed.

(** C6 (as amended).  [list_businesses] echoes [limit] and [offset]; its
    [total] is the number of rows passing the filters, whatever the limit and
    offset; the rows returned are a run of consecutive rows, starting after
    the first [offset] ones, of the matching rows put in order of rating,
    highest first and rows without a rating last, and so are themselves in
    that order; with a limit that is not negative at most [limit] rows are
    returned, while a negative limit returns every row after the offset. *)
Theorem list_businesses_page
    (search_id : option Z) (has_website : option bool) (min_rating : option Q)
    (limit offset : Z) (db : list Business) :
  let r := list_businesses search_id has_website min_rating limit offset db in
  let matching := apply_filters search_id has_website min_rating db in
  let ordered := order_by_rating matching in
  let page := offset_limit offset limit ordered in
  Businesses.limit r = limit /\
  Businesses.offset r = offset /\
  total r = Py.len matching /\
  (forall limit' offset',
     total (list_businesses search_id has_website min_rating limit' offset' db)
     = total r) /\
  Permutation matching ordered /\
  StronglySorted ranks_before ordered /\
  businesses r = map to_dict page /\
  StronglySorted ranks_before page /\
  (exists before after,
     ordered = before ++ page ++ after /\
     length before = Nat.min (Z.to_nat offset) (length ordered)) /\
  (0 <= limit -> Py.len (businesses r) <= limit) /\
  (limit < 0 -> page = skipn (Z.to_nat offset) ordered).
Proof.
  intros r matching ordered page.
  pose proof (order_by_rating_sorted matching) as Hsorted.
  repeat split; try reflexivity.
  - apply order_by_rating_perm.
  - exact Hsorted.
  - apply offset_limit_sorted. exact Hsorted.
  - apply offset_limit_segment.
  - intros H. unfold r, list_businesses. cbn [businesses].
    unfold Py.len. rewrite length_map. apply offset_limit_length. exact H.
  - intros H. unfold page, offset_limit.
    apply Z.ltb_lt in H. rewrite H. reflexivity.
Qed.

Lemma list_businesses_page_witness :
  Py.len (businesses (list_businesses None (Some true) None 2 0 three_of_four))
    <= 2.
Proof.
  apply (list_businesses_page None (Some true) None 2 0 three_of_four). lia.
Defined.

(** C6 as stated fails for a negative limit: with [limit = -1] the one
    stored business is returned, which is more than [limit]. *)
Lemma list_businesses_negative_limit :
  let r := list_businesses None None None (-1) 0 [unrated] in
  Businesses.limit r = -1 /\
  businesses r = [to_dict unrated] /\
  ~ Py.len (businesses r) <= Businesses.limit r.
Proof.
  cbv zeta. split; [reflexivity|]. split; [reflexivity|].
  vm_compute. intros H. apply H. reflexivity.
Qed.

(** C9.  A filter value of zero is not applied.  [search_id=0] gives what no
    [search_id] gives and [min_rating=0.0] what no [min_rating] gives, the
    other arguments being equal; with both and no [has_website] every row
    passes.  A row without a rating is therefore returned under
    [min_rating=0.0], although the comparison [rating >= 0] rejects it; a
    value other than zero is applied as a filter. *)
Theorem list_businesses_ignores_zero_filters
    (search_id : option Z) (has_website : option bool) (min_rating : option Q)
    (limit offset : Z) (db : list Business) :
  list_businesses (Some 0) has_website min_rating limit offset db
    = list_businesses None has_website min_rating limit offset db /\
  list_businesses search_id has_website (Some 0%Q) limit offset db
    = list_businesses search_id has_website None limit offset db /\
  apply_filters (Some 0) None (Some 0%Q) db = db /\
  list_businesses None None (Some 0%Q) 50 0 [unrated]
    = mkListing 1 50 0 [to_dict unrated] /\
  List.filter (rating_at_least 0) [unrated] = [] /\
  list_businesses (Some 0) None None 50 0 [unrated]
    = mkListing 1 50 0 [to_dict unrated] /\
  List.filter (search_id_is 0) [unrated] = [] /\
  (forall n, n <> 0 ->
     apply_filters (Some n) None None db = List.filter (search_id_is n) db) /\
  (forall x, ~ (x == 0)%Q ->
     apply_filters None None (Some x) db = List.filter (rating_at_least x) db).
Proof.
  repeat split; try reflexivity.
  - intros n Hn. unfold apply_filters, Py.truthy_int.
    destruct (Z.eqb_spec n 0); [contradiction|reflexivity].
  - intros x Hx. unfold apply_filters, Py.truthy_float.
    destruct (Z.eqb_spec (Qnum x) 0) as [E|E]; [|reflexivity].
    exfalso. apply Hx. unfold Qeq. rewrite E. reflexivity.
Qed.

Lemma list_businesses_ignores_zero_filters_witness :
  apply_filters (Some 2) None None three_of_four
    = List.filter (search_id_is 2) three_of_four /\
  apply_filters None None (Some 4%Q) three_of_four
    = List.filter (rating_at_least 4) three_of_four.
Proof.
  destruct (list_businesses_ignores_zero_filters None None None 0 0
              three_of_four) as (_ & _ & _ & _ & _ & _ & _ & Hs & Hr).
  split; [apply Hs; lia | apply Hr; discriminate].
Defined.

Lemma has_site_false (b : Business) :
  has_site b = false <-> website b = None \/ website b = Some "".
Proof.
  unfold has_site. destruct (website b) as [w|]; [|intuition].
  rewrite negb_false_iff. destruct (String.eqb_spec w "").
  - subst. intuition.
  - split; [discriminate|]. intros [H|H]; congruence.
Qed.

Lemma true_div_nonzero (a b : Z) :
  b <> 0 -> Py.true_div a b
            = Some (SFdiv Py.prec Py.emax (Py.int_as_float a) (Py.int_as_float b)).
Proof.
  intros H. unfold Py.true_div. destruct (Z.eqb_spec b 0); [contradiction|reflexivity].
Qed.

Lemma float_eqb_eq (x y : Py.float) : Py.float_eqb x y = true -> x = y.
Proof.
  destruct x as [a|a| |a m e], y as [b|b| |b n f]; simpl; try discriminate;
    try reflexivity.
  - intros H. apply Bool.eqb_prop in H. congruence.
  - intros H. apply Bool.eqb_prop in H. congruence.
  - rewrite !andb_true_iff, Pos.eqb_eq, Z.eqb_eq.
    intros [[H ->] ->]. apply Bool.eqb_prop in H. congruence.
Qed.

(** On tables of up to 100 rows the percentage reported is the float of a
    number of tenths nearest to the exact percentage: the two float
    roundings before [round] do not show. *)
Lemma percentage_nearest_tenth_small (a b : Z) :
  0 < b <= 100 -> 0 <= a <= b ->
  exists k,
    Py.percentage a b = Some (Py.tenth_float k) /\
    Z.abs (2 * (k * b - 1000 * a)) <= b.
Proof.
  intros Hb Ha.
  assert (Hall : forallb (fun n =>
                    forallb (fun m =>
                      Py.percentage_is_nearest (Z.of_nat m) (Z.of_nat n))
                      (seq 0 (S n)))
                    (seq 1 100) = true) by (vm_compute; reflexivity).
  rewrite forallb_forall in Hall.
  specialize (Hall (Z.to_nat b)). rewrite in_seq in Hall.
  specialize (Hall ltac:(lia)). rewrite forallb_forall in Hall.
  specialize (Hall (Z.to_nat a)). rewrite in_seq in Hall.
  specialize (Hall ltac:(lia)). rewrite !Z2Nat.id in Hall by lia.
  unfold Py.percentage_is_nearest in Hall.
  destruct (Py.percentage a b) as [x|]; [|discriminate].
  apply existsb_exists in Hall as (k & _ & Hk).
  apply andb_true_iff in Hk as [Hx Hnear].
  exists k. split; [f_equal; apply float_eqb_eq; exact Hx|].
  apply Z.leb_le. exact Hnear.
Qed.

Lemma filter_length_le {A} (f : A -> bool) (l : list A) :
  Py.len (List.filter f l) <= Py.len l.
Proof.
  unfold Py.len. induction l as [|x l IH]; simpl; [lia|].
  destruct (f x); simpl; lia.
Qed.

(** C8.  [get_stats] never raises [ZeroDivisionError]: it returns for every
    table.  It reports the number of rows, the number of rows whose website
    is neither NULL nor the empty string, and their difference.  With no row
    the percentage is the integer 0 and no division is made; with rows it
    is [with_website / total * 100] rounded by [round], the divisor being
    non-zero.  On tables of up to 100 rows the value reported is the float
    of a number of tenths between 0 and 100 that is nearest to the exact
    percentage.  Three websites among four rows give [75.0], and one among
    three gives [33.3]. *)
Theorem get_stats_never_divides_by_zero (db : list Business) :
  (exists stats,
     get_stats db = Some stats /\
     total_businesses stats = Py.len db /\
     with_website stats = Py.len (List.filter has_site db) /\
     without_website stats = total_businesses stats - with_website stats /\
     (db = [] -> website_percentage stats = Py.NInt 0) /\
     (db <> [] ->
        total_businesses stats > 0 /\
        exists q,
          Py.true_div (with_website stats) (total_businesses stats) = Some q /\
          website_percentage stats = Py.NFloat (Py.round1 (Py.mul_int q 100))) /\
     (db <> [] -> Py.len db <= 100 ->
        exists tenths,
          website_percentage stats = Py.NFloat (Py.tenth_float tenths) /\
          0 <= tenths <= 1000 /\
          Z.abs (2 * (tenths * total_businesses stats
                      - 1000 * with_website stats))
            <= total_businesses stats)) /\
  (forall b, has_site b = false <-> website b = None \/ website b = Some "") /\
  get_stats [] = Some (mkStats 0 0 0 (Py.NInt 0)) /\
  get_stats three_of_four = Some (mkStats 4 3 1 (Py.NFloat seventy_five)) /\
  get_stats one_of_three
    = Some (mkStats 3 1 2 (Py.NFloat thirty_three_point_three)).
Proof.
  split; [|split; [exact has_site_false|split; [|split]; reflexivity]].
  unfold get_stats.
  destruct db as [|b db].
  - eexists. split; [reflexivity|].
    split; [reflexivity|]. split; [reflexivity|]. split; [reflexivity|].
    split; [reflexivity|]. split; intros Hne; contradiction.
  - set (total := Py.len (b :: db)).
    set (sites := Py.len (List.filter has_site (b :: db))).
    assert (Hpos : 0 < total) by (unfold total, Py.len; simpl; lia).
    assert (Hsites : 0 <= sites <= total).
    { split; [unfold sites, Py.len; lia|apply filter_length_le]. }
    destruct (Z.ltb_spec 0 total) as [_|]; [|lia].
    destruct (Py.percentage sites total) as [x|] eqn:Epct.
    2: { unfold Py.percentage in Epct.
         rewrite (true_div_nonzero sites total) in Epct by lia. discriminate. }
    eexists. split; [reflexivity|]. cbn [total_businesses with_website
      without_website website_percentage].
    split; [reflexivity|]. split; [reflexivity|]. split; [reflexivity|].
    split; [discriminate|]. split.
    + intros _. split; [lia|].
      eexists. split; [apply true_div_nonzero; lia|].
      unfold Py.percentage in Epct.
      rewrite (true_div_nonzero sites total) in Epct by lia.
      injection Epct as <-. reflexivity.
    + intros _ Hsmall.
      destruct (percentage_nearest_tenth_small sites total ltac:(lia) Hsites)
        as (k & Hk & Hnear).
      rewrite Epct in Hk. injection Hk as ->.
      exists k. split; [reflexivity|]. split; [nia|exact Hnear].
Qed.

(** One website among three rows: the exact percentage is 33.33..., and the
    value reported is the float of 333 tenths. *)
Lemma get_stats_never_divides_by_zero_witness :
  exists stats,
    get_stats one_of_three = Some stats /\
    total_businesses stats = 3 /\
    with_website stats = 1 /\
    website_percentage stats = Py.NFloat (Py.tenth_float 333).
Proof.
  destruct (get_stats_never_divides_by_zero one_of_three)
    as ((stats & Hs & Ht & Hw & _ & _ & _ & Hround) & _).
  exists stats. split; [exact Hs|]. split; [exact Ht|]. split; [exact Hw|].
  destruct (Hround ltac:(discriminate) ltac:(vm_compute; discriminate))
    as (k & Hk & _ & Hnear).
  rewrite Ht, Hw in Hnear. change (Py.len one_of_three) with 3 in Hnear.
  change (Py.len (List.filter has_site one_of_three)) with 1 in Hnear.
  assert (k = 333) as -> by lia. exact Hk.
Defined.

End BusinessesFacts.

(** ** [PlacesApi] *)

Section PlacesApiFacts.
Import Database PlacesApi.

Variable client : Client.
Variable limit : Z.
Variable now : string.

(** *** The monad *)

Lemma bind_inr {A B} (m : M A) (f : A -> M B) (st st' : State) (a : A) :
  m st = (inr a, st') -> (m ≫= f) st = f a st'.
Proof. intros H. unfold mbind, M_bind. rewrite H. reflexivity. Qed.

Lemma bind_inl {A B} (m : M A) (f : A -> M B) (st st' : State) (e : exn) :
  m st = (inl e, st') -> (m ≫= f) st = (inl e, st').
Proof. intros H. unfold mbind, M_bind. rewrite H. reflexivity. Qed.

Lemma keeps_ret {A} (I : State -> Prop) (a : A) : keeps I (mret a).
Proof. intros st H. exact H. Qed.

Lemma keeps_raise {A} (I : State -> Prop) (e : exn) : keeps I (@raise A e).
Proof. intros st H. exact H. Qed.

Lemma keeps_bind {A B} (I : State -> Prop) (m : M A) (f : A -> M B) :
  keeps I m -> (forall a, keeps I (f a)) -> keeps I (m ≫= f).
Proof.
  intros Hm Hf st H. unfold mbind, M_bind.
  specialize (Hm st H). destruct (m st) as [[e|a] st']; simpl in *.
  - exact Hm.
  - apply Hf. exact Hm.
Qed.

Lemma keeps_try_except {A} (I : State -> Prop) (m : M A) (h : exn -> M A) :
  keeps I m -> (forall e, keeps I (h e)) -> keeps I (try_except m h).
Proof.
  intros Hm Hh st H. unfold try_except.
  specialize (Hm st H). destruct (m st) as [[e|a] st']; simpl in *.
  - apply Hh. exact Hm.
  - exact Hm.
Qed.

(** *** Database accesses *)

Lemma execute_active {A} (q : Db -> A) (st : State) :
  failed st = false -> execute q st = (inr (q (db st)), st).
Proof. intros H. unfold execute. rewrite H. reflexivity. Qed.

Lemma execute_failed {A} (q : Db -> A) (st : State) :
  failed st = true -> execute q st = (inl rolled_back, st).
Proof. intros H. unfold execute. rewrite H. reflexivity. Qed.

Lemma keeps_execute {A} (I : State -> Prop) (q : Db -> A) : keeps I (execute q).
Proof. intros st H. unfold execute. destruct (failed st); exact H. Qed.

Lemma check_api_limit_active (st : State) :
  failed st = false ->
  _check_api_limit limit now st = (inr (month_count now (db st), limit), st).
Proof.
  intros H. unfold _check_api_limit.
  rewrite (bind_inr _ _ _ _ _ (execute_active _ st H)). reflexivity.
Qed.

Lemma check_api_limit_failed (st : State) :
  failed st = true -> _check_api_limit limit now st = (inl rolled_back, st).
Proof.
  intros H. unfold _check_api_limit.
  rewrite (bind_inl _ _ _ _ _ (execute_failed _ st H)). reflexivity.
Qed.

(** *** Commits *)

Lemma commit_with_failed (f : Db -> Db) (st : State) :
  failed st = true -> commit_with now f st = (inl rolled_back, st).
Proof. intros H. unfold commit_with. rewrite H. reflexivity. Qed.

(** A commit on a session that has not failed either writes the pending
    businesses and leaves a session that has not failed, or fails on a
    constraint and leaves a failed session with the tables as they were. *)
Lemma commit_with_cases (f : Db -> Db) (st : State) :
  failed st = false ->
  (exists tbl,
     flush now (businesses (db st)) (pending st) = Some tbl /\
     commit_with now f st =
       (inr tt, mkState (f (mkDb (searches (db st)) tbl (api_usage (db st))))
                  [] (calls st) false)) \/
  (flush now (businesses (db st)) (pending st) = None /\
   exists msg,
     commit_with now f st
       = (inl (IntegrityError msg), mkState (db st) [] (calls st) true)).
Proof.
  intros Hact. unfold commit_with. rewrite Hact.
  destruct (flush now (businesses (db st)) (pending st)) as [tbl|].
  - left. exists tbl. auto.
  - right. eauto.
Qed.

(** *** The usage counter *)

Lemma month_is_current (u : APIUsage) :
  month_is (_get_current_month now) u = true <-> u_month u = _get_current_month now.
Proof. unfold month_is. apply String.eqb_eq. Qed.

Lemma find_bump (count : Z) (tbl : list APIUsage) (u : APIUsage) :
  find (month_is (_get_current_month now)) tbl = Some u ->
  find (month_is (_get_current_month now)) (bump now count tbl)
    = Some (mkAPIUsage (u_id u) (u_month u) (u_call_count u + count) (Some now)).
Proof.
  induction tbl as [|v tbl IH]; simpl; [discriminate|].
  destruct (month_is (_get_current_month now) v) eqn:E.
  - intros [= ->]. simpl. unfold month_is in *. simpl. rewrite E. reflexivity.
  - intros H. simpl. rewrite E. apply IH. exact H.
Qed.

Lemma find_new_row (tbl : list APIUsage) (u : APIUsage) :
  find (month_is (_get_current_month now)) tbl = None ->
  u_month u = _get_current_month now ->
  find (month_is (_get_current_month now)) (tbl ++ [u]) = Some u.
Proof.
  intros Hnone Hu. induction tbl as [|v tbl IH]; simpl in *.
  - apply month_is_current in Hu. rewrite Hu. reflexivity.
  - destruct (month_is (_get_current_month now) v); [discriminate|].
    apply IH. exact Hnone.
Qed.

(** On a session that has not failed, [_increment_api_usage] either
    commits, and then the month's count has grown by [count] and the pending
    businesses are stored, or fails on a constraint and leaves the tables as
    they were and the session failed. *)
Lemma increment_cases (count : Z) (st : State) :
  failed st = false ->
  (exists tbl d',
     flush now (businesses (db st)) (pending st) = Some tbl /\
     _increment_api_usage now count st = (inr tt, mkState d' [] (calls st) false) /\
     searches d' = searches (db st) /\
     businesses d' = tbl /\
     month_count now d' = month_count now (db st) + count) \/
  (flush now (businesses (db st)) (pending st) = None /\
   exists msg,
     _increment_api_usage now count st
       = (inl (IntegrityError msg), mkState (db st) [] (calls st) true)).
Proof.
  intros Hact. unfold _increment_api_usage.
  destruct (commit_with_cases
              (fun d => mkDb (searches d) (businesses d)
                 match usage_row now d with
                 | Some _ => bump now count (api_usage d)
                 | None =>
                     api_usage d ++
                     [mkAPIUsage (Some (next_id u_id (api_usage d)))
                        (_get_current_month now) count (Some now)]
                 end) st Hact)
    as [(tbl & Hflush & Hrun)|(Hflush & msg & Hrun)].
  - left. exists tbl. eexists. split; [exact Hflush|]. split; [exact Hrun|].
    split; [reflexivity|]. split; [reflexivity|].
    unfold month_count, usage_row. simpl.
    destruct (find (month_is (_get_current_month now)) (api_usage (db st)))
      as [u|] eqn:E.
    + rewrite (find_bump _ _ _ E). reflexivity.
    + rewrite find_new_row; [simpl; lia|exact E|reflexivity].
  - right. split; [exact Hflush|]. exists msg. exact Hrun.
Qed.

(** *** Uniqueness of place identifiers *)

Lemma clashes_false_not_in (b : Business) (tbl : list Business) (x : string) :
  existsb (clashes b) tbl = false -> place_id b = Some x ->
  x ∉ omap place_id tbl.
Proof.
  intros Hex Hb. induction tbl as [|c tbl IH]; simpl in *.
  - apply not_elem_of_nil.
  - apply orb_false_iff in Hex as [Hc Htbl].
    unfold clashes in Hc. rewrite Hb in Hc.
    destruct (place_id c) as [y|] eqn:Ec; simpl.
    + rewrite not_elem_of_cons. split; [|apply IH; exact Htbl].
      intros ->. rewrite String.eqb_refl in Hc. discriminate.
    + apply IH. exact Htbl.
Qed.

Lemma insert_business_spec (tbl tbl' : list Business) (b : Business) :
  insert_business now tbl b = Some tbl' ->
  exists b', tbl' = tbl ++ [b'] /\ place_id b' = place_id b /\
             existsb (clashes b) tbl = false.
Proof.
  unfold insert_business. destruct (name b); [|discriminate].
  destruct (existsb (clashes b) tbl) eqn:E; [discriminate|].
  intros [= <-]. eexists. split; [reflexivity|]. split; [reflexivity|reflexivity].
Qed.

Lemma insert_business_unique (tbl tbl' : list Business) (b : Business) :
  unique_place_ids tbl -> insert_business now tbl b = Some tbl' ->
  unique_place_ids tbl'.
Proof.
  unfold unique_place_ids. intros Hu Hins.
  apply insert_business_spec in Hins as (b' & -> & Hid & Hex).
  rewrite omap_app. simpl. rewrite Hid.
  destruct (place_id b) as [x|] eqn:Eb; simpl.
  - apply NoDup_app. split; [exact Hu|]. split.
    + intros y Hy Hin. apply list_elem_of_singleton in Hin as ->.
      exact (clashes_false_not_in b tbl x Hex Eb Hy).
    + apply NoDup_singleton.
  - rewrite app_nil_r. exact Hu.
Qed.

Lemma flush_unique (new tbl tbl' : list Business) :
  unique_place_ids tbl -> flush now tbl new = Some tbl' -> unique_place_ids tbl'.
Proof.
  revert tbl. induction new as [|b new IH]; simpl; intros tbl Hu.
  - intros [= <-]. exact Hu.
  - destruct (insert_business now tbl b) as [tbl1|] eqn:E; simpl; [|discriminate].
    apply IH. eapply insert_business_unique; eassumption.
Qed.

Lemma commit_with_unique (f : Db -> Db) :
  (forall d, businesses (f d) = businesses d) ->
  keeps unique_state (commit_with now f).
Proof.
  intros Hf st Hu. unfold unique_state in *.
  destruct (failed st) eqn:Hact.
  { rewrite (commit_with_failed f st Hact). exact Hu. }
  destruct (commit_with_cases f st Hact) as [(tbl & Hflush & ->)|(_ & msg & ->)];
    simpl.
  - rewrite Hf. simpl. eapply flush_unique; eassumption.
  - exact Hu.
Qed.

(** *** One iteration of the loop *)

(** The guarded [try] always falls through to the next statement.  The
    details call is made exactly when [current + 2 < limit]; [current]
    grows by one exactly when the month's count does, which is when the
    call is answered and the count is committed.  The session is left
    failed exactly when the call is answered and the commit that counts it
    fails. *)
Lemma fetch_details_spec (p : Place) (current : Z) (st : State) :
  failed st = false ->
  exists details current' st',
    fetch_details client now p current limit st = (inr (details, current'), st') /\
    calls st' = (if current + 2 <? limit
                 then calls st ++ [Details (p_place_id p)] else calls st) /\
    searches (db st') = searches (db st) /\
    month_count now (db st') = month_count now (db st) + (current' - current) /\
    (current' = current \/ current' = current + 1 /\ current + 2 < limit) /\
    (unique_state st -> unique_state st') /\
    (current + 2 < limit \/ st' = st /\ details = None) /\
    (forall msg, place client (calls st) (p_place_id p) = inl msg ->
       current' = current /\ details = None) /\
    (forall answer tbl,
       current + 2 < limit ->
       place client (calls st) (p_place_id p) = inr answer ->
       flush now (businesses (db st)) (pending st) = Some tbl ->
       current' = current + 1 /\ details = Some (default no_details answer)) /\
    (failed st' = true <->
     current + 2 < limit /\
     (exists answer, place client (calls st) (p_place_id p) = inr answer) /\
     flush now (businesses (db st)) (pending st) = None) /\
    (failed st' = true -> pending st' = [] /\ db st' = db st).
Proof.
  intros Hact. unfold fetch_details.
  destruct (Z.ltb_spec (current + 2) limit) as [Hroom|Hfull].
  2: { exists None, current, st.
       split; [reflexivity|]. split; [reflexivity|]. split; [reflexivity|].
       split; [lia|]. split; [left; reflexivity|]. split; [auto|].
       split; [right; auto|]. split; [auto|]. split; [intros; lia|].
       rewrite Hact. split; [split; [discriminate|intros [? _]; lia]|discriminate]. }
  unfold try_except at 1. unfold mbind, M_bind, external.
  destruct (place client (calls st) (p_place_id p)) as [msg|answer].
  - eexists None, current, _. split; [reflexivity|]. cbn [calls db failed pending].
    split; [reflexivity|]. split; [reflexivity|]. split; [lia|].
    split; [left; reflexivity|]. split; [auto|]. split; [left; exact Hroom|].
    split; [auto|]. split; [discriminate|].
    rewrite Hact.
    split; [split; [discriminate|intros (_ & (a & Ha) & _); discriminate]|discriminate].
  - unfold try_except.
    set (st1 := mkState (db st) (pending st)
                  (calls st ++ [Details (p_place_id p)]) (failed st)).
    destruct (increment_cases 1 st1 Hact)
      as [(tbl & d' & Hflush & Hrun & Hs & Hb & Hc)|(Hflush & msg & Hrun)];
      rewrite Hrun; clear Hrun; subst st1.
    + eexists _, (current + 1), _. split; [reflexivity|].
      cbn [calls db failed pending] in *.
      split; [reflexivity|]. split; [exact Hs|].
      split; [rewrite Hc; simpl; lia|]. split; [right; lia|].
      split.
      { unfold unique_state. simpl. rewrite Hb. intros Hu.
        eapply flush_unique; eassumption. }
      split; [left; exact Hroom|]. split; [discriminate|].
      split; [intros a tbl' _ [= <-] _; auto|].
      split; [split; [discriminate|]|discriminate].
      intros (_ & _ & Hnone). simpl in Hflush. congruence.
    + eexists _, current, _. split; [reflexivity|].
      cbn [calls db failed pending] in *.
      split; [reflexivity|]. split; [reflexivity|]. split; [lia|].
      split; [left; reflexivity|]. split; [auto|].
      split; [left; exact Hroom|]. split; [discriminate|].
      split; [intros a tbl' _ _ Hflush'; simpl in Hflush; congruence|].
      split; [|auto].
      split; [intros _|reflexivity].
      split; [exact Hroom|]. split; [eexists; reflexivity|exact Hflush].
Qed.

Lemma place_id_is_eq (p : option string) (b : Business) :
  place_id_is p b = true <-> place_id b = p.
Proof.
  unfold place_id_is. destruct p as [x|], (place_id b) as [y|];
    try (split; [discriminate|congruence]); [|tauto].
  rewrite String.eqb_eq. split; congruence.
Qed.

(** On a failed session the iteration stops at its query. *)
Lemma process_place_failed
    (search_id : Z) (p : Place) (locals : Z * list Py.dict) (st : State) :
  failed st = true ->
  process_place client now search_id limit p locals st = (inl rolled_back, st).
Proof.
  intros H. destruct locals as [current acc].
  unfold process_place, existing_business.
  rewrite (bind_inl _ _ _ _ _ (execute_failed _ st H)). reflexivity.
Qed.

(** A result whose identifier is stored: the stored record is serialized and
    nothing else happens. *)
Lemma process_place_existing
    (search_id : Z) (p : Place) (current : Z) (acc : list Py.dict)
    (st : State) (b : Business) :
  failed st = false ->
  find (place_id_is (p_place_id p)) (businesses (db st)) = Some b ->
  process_place client now search_id limit p (current, acc) st
    = (inr (current, acc ++ [to_dict b]), st).
Proof.
  intros Hact H. unfold process_place, existing_business.
  rewrite (bind_inr _ _ _ _ _ (execute_active _ st Hact)). cbv beta.
  rewrite H. reflexivity.
Qed.

(** A result whose identifier is not stored: after the guarded [try] the key
    of the [Search] row is read, which a failed session refuses; otherwise
    a new business is added to the session and serialized. *)
Lemma process_place_new
    (search_id : Z) (p : Place) (current : Z) (acc : list Py.dict)
    (st : State) :
  failed st = false ->
  find (place_id_is (p_place_id p)) (businesses (db st)) = None ->
  exists details current' st1,
    fetch_details client now p current limit st = (inr (details, current'), st1) /\
    process_place client now search_id limit p (current, acc) st
      = (if failed st1 then (inl rolled_back, st1)
         else (inr (current', acc ++ [to_dict (new_business search_id p details)]),
               mkState (db st1) (pending st1 ++ [new_business search_id p details])
                 (calls st1) false)).
Proof.
  intros Hact H.
  destruct (fetch_details_spec p current st Hact)
    as (details & current' & st1 & Hfetch & _).
  exists details, current', st1. split; [exact Hfetch|].
  unfold process_place, existing_business.
  rewrite (bind_inr _ _ _ _ _ (execute_active _ st Hact)). cbv beta.
  rewrite H. rewrite (bind_inr _ _ _ _ _ Hfetch). cbv beta iota.
  unfold search_record_id.
  destruct (failed st1) eqn:Hf1.
  - rewrite (bind_inl _ _ _ _ _ (execute_failed _ st1 Hf1)). reflexivity.
  - rewrite (bind_inr _ _ _ _ _ (execute_active _ st1 Hf1)).
    unfold mbind, M_bind, add, mret, M_ret. rewrite Hf1. reflexivity.
Qed.

Lemma unique_place_ids_inj (tbl : list Business) (b c : Business) (x : string) :
  unique_place_ids tbl -> b ∈ tbl -> c ∈ tbl ->
  place_id b = Some x -> place_id c = Some x -> b = c.
Proof.
  unfold unique_place_ids. intros Hu Hb Hc Eb Ec.
  induction tbl as [|d tbl IH]; [inversion Hb|].
  assert (Hin : forall e, e ∈ tbl -> place_id e = Some x -> x ∈ omap place_id tbl).
  { intros e He Ee. apply list_elem_of_omap. exists e. auto. }
  simpl in Hu.
  apply elem_of_cons in Hb as [->|Hb], Hc as [->|Hc].
  - reflexivity.
  - rewrite Eb in Hu. apply NoDup_cons in Hu as [Hnot _].
    destruct Hnot. eapply Hin; eassumption.
  - rewrite Ec in Hu. apply NoDup_cons in Hu as [Hnot _].
    destruct Hnot. eapply Hin; eassumption.
  - apply IH; try assumption.
    destruct (place_id d); [apply NoDup_cons in Hu as [_ Hu]|]; exact Hu.
Qed.

(** *** Invariants of the whole search *)

Lemma keeps_external {A} (I : State -> Prop) (c : Call)
    (answer : list Call -> string + A) :
  (forall st, I st -> I (mkState (db st) (pending st) (calls st ++ [c]) (failed st))) ->
  keeps I (external c answer).
Proof.
  intros H st Hst. unfold external.
  destruct (answer (calls st)); simpl; apply H; exact Hst.
Qed.

Lemma keeps_check_api_limit {A} (I : State -> Prop) (f : Z * Z -> M A) :
  (forall current, keeps I (f (current, limit))) ->
  keeps I (_check_api_limit limit now ≫= f).
Proof.
  intros H st Hst. destruct (failed st) eqn:Hact.
  - rewrite (bind_inl _ _ _ _ _ (check_api_limit_failed st Hact)). exact Hst.
  - rewrite (bind_inr _ _ _ _ _ (check_api_limit_active st Hact)).
    apply H. exact Hst.
Qed.

Lemma increment_unique (count : Z) :
  keeps unique_state (_increment_api_usage now count).
Proof. apply commit_with_unique. reflexivity. Qed.

Lemma fetch_details_unique (p : Place) (current : Z) :
  keeps unique_state (fetch_details client now p current limit).
Proof.
  unfold fetch_details. destruct (current + 2 <? limit); [|apply keeps_ret].
  apply keeps_try_except; [|intros e; apply keeps_ret].
  apply keeps_bind; [apply keeps_external; auto|]. intros r.
  apply keeps_try_except; [|intros e; apply keeps_ret].
  apply keeps_bind; [apply increment_unique|]. intros _. apply keeps_ret.
Qed.

Lemma process_place_unique (search_id : Z) (p : Place) (locals : Z * list Py.dict) :
  keeps unique_state (process_place client now search_id limit p locals).
Proof.
  destruct locals as [current acc]. unfold process_place.
  apply keeps_bind; [apply keeps_execute|]. intros [b|].
  - apply keeps_ret.
  - apply keeps_bind; [apply fetch_details_unique|]. intros [details current'].
    apply keeps_bind; [apply keeps_execute|]. intros key.
    apply keeps_bind; [intros st H; exact H|]. intros _. apply keeps_ret.
Qed.

Lemma process_places_unique (search_id : Z) (ps : list Place)
    (locals : Z * list Py.dict) :
  keeps unique_state (process_places client now search_id limit ps locals).
Proof.
  revert locals. induction ps as [|p ps IH]; intros locals; simpl.
  - apply keeps_ret.
  - apply keeps_bind; [apply process_place_unique|exact IH].
Qed.

Lemma add_search_unique (query location : string) (radius_km count : Z) :
  keeps unique_state (add_search now query location radius_km count).
Proof.
  intros st Hu. unfold add_search.
  pose proof (commit_with_unique
    (fun d => mkDb (searches d ++
       [mkSearch (Some (next_id s_id (searches (db st)))) query location
          radius_km count (Some now)]) (businesses d) (api_usage d))
    (fun d => eq_refl) st Hu) as H.
  destruct (commit_with now _ st) as [[e|[]] st']; exact H.
Qed.

Lemma get_usage_stats_state (st : State) :
  snd (get_usage_stats limit now st) = st.
Proof.
  unfold get_usage_stats.
  destruct (failed st) eqn:Hact.
  - rewrite (bind_inl _ _ _ _ _ (check_api_limit_failed st Hact)). reflexivity.
  - rewrite (bind_inr _ _ _ _ _ (check_api_limit_active st Hact)). cbv beta iota.
    unfold mbind, M_bind.
    destruct (0 <? limit); [|reflexivity].
    destruct (Py.percentage _ _); reflexivity.
Qed.

(** From a table without two rows of one place identifier, a search leaves
    such a table, whatever its outcome. *)
Lemma search_businesses_unique
    (query location : string) (radius_km max_results : Z) :
  keeps unique_state
    (search_businesses client limit now query location radius_km max_results).
Proof.
  unfold search_businesses.
  apply keeps_check_api_limit. intros current.
  destruct (limit <=? current); [apply keeps_raise|].
  apply keeps_bind.
  { apply keeps_try_except; [|intros e; apply keeps_raise].
    apply keeps_bind; [apply keeps_external; auto|]. intros r.
    apply keeps_bind; [apply increment_unique|]. intros _. apply keeps_ret. }
  intros [|g gs]; [apply keeps_raise|].
  apply keeps_bind.
  { apply keeps_try_except; [|intros e; apply keeps_raise].
    apply keeps_bind; [apply keeps_external; auto|]. intros r.
    apply keeps_bind; [apply increment_unique|]. intros _. apply keeps_ret. }
  intros results.
  apply keeps_bind; [apply add_search_unique|]. intros search_id.
  apply keeps_bind; [apply process_places_unique|]. intros [_ businesses].
  apply keeps_bind; [apply commit_with_unique; reflexivity|]. intros _.
  apply keeps_bind; [apply keeps_execute|]. intros key.
  apply keeps_bind; [|intros usage; apply keeps_ret].
  intros st Hu. rewrite get_usage_stats_state. exact Hu.
Qed.

(** *** The loop as a whole *)

(** One iteration on a session that has not failed.  It either returns,
    with one more dictionary, the serialization of a business with the
    identifier of the result, and the session has not failed; or it raises
    [PendingRollbackError] on a session that has failed.  Either way it
    stores no search, makes at most one external call, a details call, and
    the month's count has moved with the local [current']. *)
Lemma process_place_run
    (search_id : Z) (p : Place) (current : Z) (acc : list Py.dict) (st : State) :
  failed st = false ->
  exists outcome st' ds current',
    process_place client now search_id limit p (current, acc) st = (outcome, st') /\
    calls st' = calls st ++ ds /\
    Forall is_details ds /\
    (length ds <= 1)%nat /\
    searches (db st') = searches (db st) /\
    month_count now (db st') - current' = month_count now (db st) - current /\
    current <= current' <= Z.max current (limit - 2) /\
    current' - current <= Z.of_nat (length ds) /\
    match outcome with
    | inr (c, acc') =>
        c = current' /\ failed st' = false /\
        exists b, acc' = acc ++ [to_dict b] /\ place_id b = p_place_id p
    | inl e => e = rolled_back /\ failed st' = true /\ pending st' = []
    end.
Proof.
  intros Hact.
  destruct (find (place_id_is (p_place_id p)) (businesses (db st)))
    as [b|] eqn:Efind.
  - exists (inr (current, acc ++ [to_dict b])), st, [], current.
    split; [apply process_place_existing; assumption|].
    rewrite app_nil_r. simpl.
    split; [reflexivity|]. split; [constructor|]. split; [lia|].
    split; [reflexivity|]. split; [lia|]. split; [lia|]. split; [lia|].
    split; [reflexivity|]. split; [exact Hact|].
    exists b. split; [reflexivity|].
    apply find_some in Efind as [_ Hb]. apply place_id_is_eq. exact Hb.
  - destruct (process_place_new search_id p current acc st Hact Efind)
      as (details & current' & st1 & Hfetch & Hstep).
    destruct (fetch_details_spec p current st Hact)
      as (details' & current'' & st1' & Hfetch' & Hcalls & Hs & Hc & Hcur & _ & _
          & _ & _ & _ & Hempty).
    rewrite Hfetch in Hfetch'. injection Hfetch' as <- <- <-.
    set (ds := if current + 2 <? limit then [Details (p_place_id p)] else []).
    assert (Hcalls' : calls st1 = calls st ++ ds).
    { rewrite Hcalls. unfold ds. destruct (current + 2 <? limit);
        [reflexivity|rewrite app_nil_r; reflexivity]. }
    assert (Hds : Forall is_details ds /\ (length ds <= 1)%nat /\
                  current' - current <= Z.of_nat (length ds)).
    { unfold ds. destruct (Z.ltb_spec (current + 2) limit); simpl.
      - split; [repeat constructor|]. split; lia.
      - split; [constructor|]. split; lia. }
    destruct Hds as (Hds & Hlen & Hspent).
    destruct (failed st1) eqn:Hf1.
    + exists (inl rolled_back), st1, ds, current'.
      split; [exact Hstep|]. split; [exact Hcalls'|]. split; [exact Hds|].
      split; [exact Hlen|]. split; [exact Hs|]. split; [lia|]. split; [lia|].
      split; [exact Hspent|]. split; [reflexivity|]. split; [exact Hf1|].
      exact (proj1 (Hempty eq_refl)).
    + eexists (inr _), _, ds, current'.
      split; [exact Hstep|]. cbn [calls db failed].
      split; [exact Hcalls'|]. split; [exact Hds|].
      split; [exact Hlen|]. split; [exact Hs|]. split; [lia|]. split; [lia|].
      split; [exact Hspent|]. split; [reflexivity|]. split; [reflexivity|].
      eexists. split; reflexivity.
Qed.

(** The loop on a session that has not failed.  It either runs to its end,
    having appended one dictionary per result, in the order of the results,
    each the serialization of a business with the identifier of its result;
    or it raises [PendingRollbackError] on a session that has failed.
    Either way it stores no search, makes no external call but details
    calls, at most one per result, and the month's count has moved with the
    local [current']. *)
Lemma process_places_run
    (search_id : Z) (ps : list Place) (current : Z) (acc : list Py.dict)
    (st : State) :
  failed st = false ->
  exists outcome st' ds current',
    process_places client now search_id limit ps (current, acc) st = (outcome, st') /\
    calls st' = calls st ++ ds /\
    Forall is_details ds /\
    (length ds <= length ps)%nat /\
    searches (db st') = searches (db st) /\
    month_count now (db st') - current' = month_count now (db st) - current /\
    current <= current' <= Z.max current (limit - 2) /\
    current' - current <= Z.of_nat (length ds) /\
    match outcome with
    | inr (c, acc') =>
        c = current' /\ failed st' = false /\
        exists bs, acc' = acc ++ map to_dict bs /\
                   map place_id bs = map p_place_id ps
    | inl e => e = rolled_back /\ failed st' = true /\ pending st' = []
    end.
Proof.
  revert current acc st. induction ps as [|p ps IH]; intros current acc st Hact.
  - exists (inr (current, acc)), st, [], current.
    split; [reflexivity|]. rewrite app_nil_r. simpl.
    split; [reflexivity|]. split; [constructor|]. split; [lia|].
    split; [reflexivity|]. split; [lia|]. split; [lia|]. split; [lia|].
    split; [reflexivity|]. split; [exact Hact|].
    exists []. rewrite app_nil_r. auto.
  - cbn [process_places].
    destruct (process_place_run search_id p current acc st Hact)
      as (out1 & st1 & ds1 & c1 & Hrun1 & Hcalls1 & Hds1 & Hlen1 & Hs1 & Hc1
          & Hcur1 & Hspent1 & Hout1).
    destruct out1 as [e|[c acc1]].
    + rewrite (bind_inl _ _ _ _ _ Hrun1).
      exists (inl e), st1, ds1, c1.
      split; [reflexivity|]. split; [exact Hcalls1|]. split; [exact Hds1|].
      split; [simpl; lia|]. split; [exact Hs1|]. split; [exact Hc1|].
      split; [exact Hcur1|]. split; [exact Hspent1|]. exact Hout1.
    + destruct Hout1 as (-> & Hact1 & b & -> & Hb).
      rewrite (bind_inr _ _ _ _ _ Hrun1).
      destruct (IH c1 (acc ++ [to_dict b]) st1 Hact1)
        as (out2 & st2 & ds2 & c2 & Hrun2 & Hcalls2 & Hds2 & Hlen2 & Hs2 & Hc2
            & Hcur2 & Hspent2 & Hout2).
      exists out2, st2, (ds1 ++ ds2), c2.
      split; [exact Hrun2|].
      split; [rewrite Hcalls2, Hcalls1, app_assoc; reflexivity|].
      split; [apply Forall_app; auto|].
      rewrite length_app. simpl.
      split; [lia|]. split; [congruence|]. split; [lia|]. split; [lia|].
      split; [lia|].
      destruct out2 as [e|[c acc2]]; [exact Hout2|].
      destruct Hout2 as (-> & Hact2 & bs & -> & Hbs).
      split; [reflexivity|]. split; [exact Hact2|].
      exists (b :: bs). rewrite <- app_assoc.
      split; [reflexivity|]. simpl. f_equal; assumption.
Qed.

(** *** Up to the loop *)

(** An external call that is answered, followed by the counting of it. *)
Lemma counted_call {A} (c : Call) (answer : list Call -> string + A)
    (h : exn -> M A) (st : State) (a : A) (tbl : list Business) :
  failed st = false ->
  answer (calls st) = inr a ->
  flush now (businesses (db st)) (pending st) = Some tbl ->
  exists d',
    try_except (r ← external c answer; _ ← _increment_api_usage now 1; mret r) h st
      = (inr a, mkState d' [] (calls st ++ [c]) false) /\
    searches d' = searches (db st) /\
    businesses d' = tbl /\
    month_count now d' = month_count now (db st) + 1.
Proof.
  intros Hact Hanswer Hflush.
  set (st1 := mkState (db st) (pending st) (calls st ++ [c]) (failed st)).
  destruct (increment_cases 1 st1 Hact)
    as [(tbl' & d' & Hflush' & Hrun & Hs & Hb & Hc)|(Hnone & _)].
  2: { simpl in Hnone. congruence. }
  simpl in Hflush'. rewrite Hflush in Hflush'. injection Hflush' as <-.
  exists d'. split; [|auto].
  unfold try_except, mbind, M_bind, external. rewrite Hanswer.
  fold st1. rewrite Hrun. reflexivity.
Qed.

Lemma add_search_spec (query location : string) (radius_km count : Z) (st : State) :
  failed st = false ->
  pending st = [] ->
  add_search now query location radius_km count st
    = (inr (next_id s_id (searches (db st))),
       mkState
         (mkDb (searches (db st) ++
                  [mkSearch (Some (next_id s_id (searches (db st)))) query
                     location radius_km count (Some now)])
            (businesses (db st)) (api_usage (db st)))
         [] (calls st) false).
Proof.
  intros Hact Hp. unfold add_search, commit_with. rewrite Hact, Hp. reflexivity.
Qed.

(** A search on a session that has not failed, which passes the quota gate,
    finds the location and gets an answer to its text search, reaches the
    loop in a state where the [Search] row is stored, the two calls are
    recorded and counted, the session has not failed, and the local
    [current] still holds the count read at the start. *)
Lemma search_businesses_reaches_loop
    (query location : string) (radius_km max_results : Z) (st : State)
    (g : GeocodeResult) (gs : list GeocodeResult)
    (results : option (list Place)) (tbl : list Business) :
  failed st = false ->
  month_count now (db st) < limit ->
  flush now (businesses (db st)) (pending st) = Some tbl ->
  geocode client (calls st) location = inr (g :: gs) ->
  places client (calls st ++ [Geocode location]) (query +:+ " in " +:+ location)
    (g_lat g, g_lng g) (radius_km * 1000) = inr results ->
  let key := next_id s_id (searches (db st)) in
  let raw := default [] results in
  exists st5,
    searches (db st5)
      = searches (db st) ++
        [mkSearch (Some key) query location radius_km (Py.len raw) (Some now)] /\
    businesses (db st5) = tbl /\
    pending st5 = [] /\
    failed st5 = false /\
    calls st5
      = calls st ++
        [Geocode location;
         TextSearch (query +:+ " in " +:+ location) (g_lat g) (g_lng g)
           (radius_km * 1000)] /\
    month_count now (db st5) = month_count now (db st) + 2 /\
    search_businesses client limit now query location radius_km max_results st
      = ('(_, businesses) ←
           process_places client now key limit (Py.slice_to max_results raw)
             (month_count now (db st), []);
         _ ← commit now;
         search_id ← search_record_id key;
         usage ← get_usage_stats limit now;
         mret (mkResponse search_id query location radius_km
                 (Py.len businesses) businesses usage)) st5.
Proof.
  intros Hact Hquota Hflush Hgeo Hplaces key raw.
  destruct (counted_call (Geocode location)
              (fun h => geocode client h location)
              (fun e => raise (PlacesAPIError
                                 ("Failed to geocode location: " +:+ str e)))
              st (g :: gs) tbl Hact Hgeo Hflush)
    as (d2 & Hrun2 & Hs2 & Hb2 & Hc2).
  set (st2 := mkState d2 [] (calls st ++ [Geocode location]) false) in *.
  destruct (counted_call
              (TextSearch (query +:+ " in " +:+ location) (g_lat g) (g_lng g)
                 (radius_km * 1000))
              (fun h => places client h (query +:+ " in " +:+ location)
                          (g_lat g, g_lng g) (radius_km * 1000))
              (fun e => raise (PlacesAPIError
                                 ("Places search failed: " +:+ str e)))
              st2 results (businesses d2) eq_refl Hplaces eq_refl)
    as (d4 & Hrun4 & Hs4 & Hb4 & Hc4).
  set (st4 := mkState d4 [] (calls st2 ++
                [TextSearch (query +:+ " in " +:+ location) (g_lat g) (g_lng g)
                   (radius_km * 1000)]) false) in *.
  pose proof (add_search_spec query location radius_km (Py.len raw) st4
                eq_refl eq_refl) as Hrun5.
  assert (Hsearches : searches (db st4) = searches (db st)).
  { simpl. rewrite Hs4. simpl. exact Hs2. }
  rewrite Hsearches in Hrun5. fold key in Hrun5.
  eexists. split; [|split; [|split; [|split; [|split; [|split]]]]].
  7: { unfold search_businesses.
       rewrite (bind_inr _ _ _ _ _ (check_api_limit_active st Hact)).
       cbv beta iota.
       destruct (Z.leb_spec limit (month_count now (db st))) as [|_]; [lia|].
       rewrite (bind_inr _ _ _ _ _ Hrun2). cbv beta iota.
       rewrite (bind_inr _ _ _ _ _ Hrun4).
       rewrite (bind_inr _ _ _ _ _ Hrun5).
       reflexivity. }
  - reflexivity.
  - simpl. rewrite Hb4. simpl. exact Hb2.
  - reflexivity.
  - reflexivity.
  - simpl. rewrite <- app_assoc. reflexivity.
  - unfold month_count, usage_row in *. simpl in *. lia.
Qed.

Lemma get_usage_stats_returns (st : State) :
  failed st = false ->
  exists usage, get_usage_stats limit now st = (inr usage, st).
Proof.
  intros Hact. unfold get_usage_stats.
  rewrite (bind_inr _ _ _ _ _ (check_api_limit_active st Hact)). cbv beta iota.
  unfold mbind, M_bind, mret, M_ret.
  destruct (Z.ltb_spec 0 limit) as [Hpos|_]; [|eexists; reflexivity].
  unfold Py.percentage, Py.true_div.
  destruct (Z.eqb_spec limit 0); [lia|]. eexists. reflexivity.
Qed.

(** The statements after the loop: the last commit, the reading of the key
    and the usage statistics. *)
Lemma search_businesses_ends
    (key : Z) (query location : string) (radius_km : Z)
    (dicts : list Py.dict) (st : State) :
  failed st = false ->
  let '(outcome, st') :=
    (_ ← commit now;
     search_id ← search_record_id key;
     usage ← get_usage_stats limit now;
     mret (mkResponse search_id query location radius_km (Py.len dicts)
             dicts usage)) st in
  calls st' = calls st /\
  searches (db st') = searches (db st) /\
  month_count now (db st') = month_count now (db st) /\
  pending st' = [] /\
  ((exists msg, outcome = inl (IntegrityError msg)) /\
   flush now (businesses (db st)) (pending st) = None /\
   businesses (db st') = businesses (db st) \/
   exists usage tbl,
     outcome = inr (mkResponse key query location radius_km (Py.len dicts)
                      dicts usage) /\
     flush now (businesses (db st)) (pending st) = Some tbl /\
     businesses (db st') = tbl).
Proof.
  intros Hact. unfold commit.
  destruct (commit_with_cases (fun d => d) st Hact)
    as [(tbl & Hflush & Hcommit)|(Hflush & msg & Hcommit)].
  - rewrite (bind_inr _ _ _ _ _ Hcommit).
    unfold search_record_id.
    rewrite (bind_inr _ _ _ _ _
               (execute_active (fun _ => key)
                  (mkState (mkDb (searches (db st)) tbl (api_usage (db st)))
                     [] (calls st) false) eq_refl)).
    destruct (get_usage_stats_returns
                (mkState (mkDb (searches (db st)) tbl (api_usage (db st)))
                   [] (calls st) false) eq_refl) as (usage & Husage).
    rewrite (bind_inr _ _ _ _ _ Husage). unfold mret, M_ret.
    cbn [calls db searches pending businesses].
    split; [reflexivity|]. split; [reflexivity|]. split; [reflexivity|].
    split; [reflexivity|]. right. exists usage, tbl. auto.
  - rewrite (bind_inl _ _ _ _ _ Hcommit). cbn [calls db pending].
    split; [reflexivity|]. split; [reflexivity|]. split; [reflexivity|].
    split; [reflexivity|]. left. split; [exists msg; reflexivity|]. auto.
Qed.

Lemma slice_to_prefix {A} (n : Z) (l : list A) :
  exists dropped,
    l = Py.slice_to n l ++ dropped /\
    (0 <= n -> Py.len (Py.slice_to n l) = Z.min n (Py.len l)) /\
    (n < 0 -> Py.len dropped = Z.min (- n) (Py.len l)).
Proof.
  unfold Py.slice_to, Py.len.
  destruct (Z.leb_spec 0 n) as [Hn|Hn].
  - exists (skipn (Z.to_nat n) l). rewrite firstn_skipn.
    split; [reflexivity|]. split; [|lia]. intros _. rewrite length_firstn. lia.
  - exists (skipn (Z.to_nat (Z.of_nat (length l) + n)) l). rewrite firstn_skipn.
    split; [reflexivity|]. split; [lia|]. intros _. rewrite length_skipn. lia.
Qed.

(** *** The claims *)

(** C3.  When the month's count has reached the limit, [search_businesses]
    raises [APILimitExceeded] and leaves the state as it found it: no
    external call has been made and the stored count is the same.  The
    session is one that has not failed, as every session is when a request
    starts. *)
Theorem search_businesses_quota_gate
    (query location : string) (radius_km max_results : Z) (st : State) :
  failed st = false ->
  limit <= month_count now (db st) ->
  let '(outcome, st') :=
    search_businesses client limit now query location radius_km max_results st in
  (exists msg, outcome = inl (APILimitExceeded msg)) /\
  st' = st /\
  calls st' = calls st /\
  month_count now (db st') = month_count now (db st).
Proof.
  intros Hact Hfull. unfold search_businesses.
  rewrite (bind_inr _ _ _ _ _ (check_api_limit_active st Hact)).
  cbv beta iota.
  destruct (Z.leb_spec limit (month_count now (db st))) as [_|]; [|lia].
  unfold raise. split; [eexists; reflexivity|]. auto.
Qed.

(** C4.  When the identifier of a search result is that of a stored
    business, the iteration returns the serialization of a stored business
    of that identifier (of that very business when identifiers are unique
    and the identifier is set) and leaves the state as it was: no business
    is created or added to the session, no external call is made and the
    count does not move.  And a search started on a table where identifiers
    are unique ends on such a table.  The iteration is one that the loop
    reaches: its session has not failed. *)
Theorem stored_place_is_reused
    (query location : string) (radius_km max_results : Z)
    (search_id : Z) (p : Place) (current : Z) (acc : list Py.dict)
    (st : State) (c : Business) :
  failed st = false ->
  c ∈ businesses (db st) ->
  place_id c = p_place_id p ->
  (exists b,
     b ∈ businesses (db st) /\
     place_id b = p_place_id p /\
     (unique_state st -> p_place_id p <> None -> b = c) /\
     process_place client now search_id limit p (current, acc) st
       = (inr (current, acc ++ [to_dict b]), st)) /\
  (unique_state st ->
   unique_state
     (snd (search_businesses client limit now query location radius_km
             max_results st))).
Proof.
  intros Hact Hc Hid. split; [|apply search_businesses_unique].
  destruct (find (place_id_is (p_place_id p)) (businesses (db st)))
    as [b|] eqn:Efind.
  - pose proof (find_some _ _ Efind) as [Hin Hb].
    apply list_elem_of_In in Hin. apply place_id_is_eq in Hb.
    exists b. split; [exact Hin|]. split; [exact Hb|].
    split; [|apply process_place_existing; assumption].
    intros Hu Hset. destruct (p_place_id p) as [x|] eqn:Ep; [|congruence].
    eapply unique_place_ids_inj; eassumption.
  - exfalso. apply list_elem_of_In in Hc.
    pose proof (find_none _ _ Efind c Hc) as Hno.
    apply place_id_is_eq in Hid. congruence.
Qed.

(** C2 (as amended).  For a result whose identifier is not stored, processed
    when the month's count is [current + 2] (the count read at the start of
    the search plus the geocoding and text-search calls, as it is throughout
    the loop), the details call is made if and only if the limit exceeds the
    calls counted at that moment, that is, if the remaining headroom exceeds
    0.  A call that is answered and whose count is committed adds 1 to the
    count and to [current]; a call that raises adds nothing; the count is
    again [current + 2] afterwards.  A call that is answered but whose count
    cannot be committed, a business waiting in the session being refused by
    the table, adds nothing either: the failure is swallowed, and the
    iteration then raises [PendingRollbackError] when it reads the key of
    the [Search] row.  The iteration raises in that case only. *)
Theorem details_fetch_when_budget_left
    (search_id : Z) (p : Place) (current : Z) (acc : list Py.dict)
    (st : State) :
  failed st = false ->
  find (place_id_is (p_place_id p)) (businesses (db st)) = None ->
  month_count now (db st) = current + 2 ->
  let '(outcome, st') :=
    process_place client now search_id limit p (current, acc) st in
  let used := month_count now (db st) in
  let used' := month_count now (db st') in
  (0 < limit - used -> calls st' = calls st ++ [Details (p_place_id p)]) /\
  (~ 0 < limit - used -> calls st' = calls st /\ used' = used) /\
  (forall answer tbl,
     0 < limit - used ->
     place client (calls st) (p_place_id p) = inr answer ->
     flush now (businesses (db st)) (pending st) = Some tbl ->
     used' = used + 1) /\
  (forall msg,
     place client (calls st) (p_place_id p) = inl msg -> used' = used) /\
  (used' = used \/ used' = used + 1) /\
  ((exists current' acc', outcome = inr (current', acc') /\ used' = current' + 2) \/
   (exists msg, outcome = inl (PendingRollbackError msg)) /\ used' = used) /\
  ((exists msg, outcome = inl (PendingRollbackError msg)) <->
   0 < limit - used /\
   (exists answer, place client (calls st) (p_place_id p) = inr answer) /\
   flush now (businesses (db st)) (pending st) = None).
Proof.
  intros Hact Hnew Hinv.
  destruct (process_place_new search_id p current acc st Hact Hnew)
    as (details & current' & st1 & Hfetch & ->).
  destruct (fetch_details_spec p current st Hact)
    as (details' & current'' & st1' & Hfetch' & Hcalls & _ & Hcount & Hcur
        & _ & Hidle & Hraise & Hok & Hfailed & _).
  rewrite Hfetch in Hfetch'. injection Hfetch' as <- <- <-.
  assert (Hsame : failed st1 = true -> current' = current).
  { intros Hf. apply Hfailed in Hf as (Hroom & (answer & Hanswer) & Hnone).
    destruct Hcur as [->|[-> _]]; [reflexivity|].
    exfalso. revert Hfetch. unfold fetch_details.
    destruct (Z.ltb_spec (current + 2) limit) as [_|]; [|lia].
    unfold try_except at 1. unfold mbind at 1, M_bind at 1, external.
    rewrite Hanswer. unfold try_except.
    destruct (increment_cases 1
                (mkState (db st) (pending st)
                   (calls st ++ [Details (p_place_id p)]) (failed st)) Hact)
      as [(tbl & _ & Hsome & _)|(_ & msg & Hrun)].
    - simpl in Hsome. congruence.
    - rewrite (bind_inl _ _ _ _ _ Hrun). unfold mret, M_ret.
      intros [= _ Hc _]. lia. }
  assert (Hsides :
    (0 < limit - month_count now (db st) ->
     calls st1 = calls st ++ [Details (p_place_id p)]) /\
    (~ 0 < limit - month_count now (db st) ->
     calls st1 = calls st /\ month_count now (db st1) = month_count now (db st)) /\
    (forall answer tbl,
       0 < limit - month_count now (db st) ->
       place client (calls st) (p_place_id p) = inr answer ->
       flush now (businesses (db st)) (pending st) = Some tbl ->
       month_count now (db st1) = month_count now (db st) + 1) /\
    (forall msg,
       place client (calls st) (p_place_id p) = inl msg ->
       month_count now (db st1) = month_count now (db st)) /\
    (month_count now (db st1) = month_count now (db st) \/
     month_count now (db st1) = month_count now (db st) + 1)).
  { split; [|split; [|split; [|split]]].
    - intros Hroom. rewrite Hcalls.
      destruct (Z.ltb_spec (current + 2) limit); [reflexivity|lia].
    - intros Hfull. rewrite Hcalls.
      destruct (Z.ltb_spec (current + 2) limit); [lia|].
      split; [reflexivity|]. destruct Hidle as [|[-> _]]; [lia|reflexivity].
    - intros answer tbl Hroom Hanswer Hflush.
      destruct (Hok answer tbl ltac:(lia) Hanswer Hflush) as [-> _]. lia.
    - intros msg Hmsg. destruct (Hraise msg Hmsg) as [-> _]. lia.
    - destruct Hcur as [->|[-> _]]; [left|right]; lia. }
  destruct Hsides as (H1 & H2 & H3 & H4 & H5).
  assert (Hroom_iff : 0 < limit - month_count now (db st) <-> current + 2 < limit)
    by lia.
  destruct (failed st1) eqn:Hf1; cbv zeta; cbn [db calls].
  - specialize (Hsame eq_refl). subst current'.
    split; [exact H1|]. split; [exact H2|]. split; [exact H3|].
    split; [exact H4|]. split; [exact H5|].
    split; [right; split; [eexists; reflexivity|lia]|].
    split; [intros _|intros _; eexists; reflexivity].
    rewrite Hroom_iff. apply Hfailed. reflexivity.
  - split; [exact H1|]. split; [exact H2|]. split; [exact H3|].
    split; [exact H4|]. split; [exact H5|].
    split; [left; eexists _, _; split; [reflexivity|lia]|].
    split; [intros (msg & [=])|].
    rewrite Hroom_iff. intros H. apply Hfailed in H. discriminate.
Qed.

(** C7.  A search on a session that has not failed, which passes the quota
    gate, finds the location and gets an answer to its text search, stores
    exactly one [Search] row, whatever happens afterwards; the row carries
    the query, location and radius given and the number of results the text
    search returned, before truncation.  The search then returns, or
    raises the [IntegrityError] of its last commit, or raises
    [PendingRollbackError] in the loop.  If it returns, the results kept
    are the first [max_results] results (with [max_results] negative, the
    results but the last [- max_results]), and the businesses of the
    response are the serializations of one business per result kept, in the
    order of the results. *)
Theorem search_businesses_records_one_search
    (query location : string) (radius_km max_results : Z) (st : State)
    (g : GeocodeResult) (gs : list GeocodeResult)
    (results : option (list Place)) (tbl : list Business) :
  failed st = false ->
  month_count now (db st) < limit ->
  flush now (businesses (db st)) (pending st) = Some tbl ->
  geocode client (calls st) location = inr (g :: gs) ->
  places client (calls st ++ [Geocode location]) (query +:+ " in " +:+ location)
    (g_lat g, g_lng g) (radius_km * 1000) = inr results ->
  let key := next_id s_id (searches (db st)) in
  let raw := default [] results in
  let '(outcome, st') :=
    search_businesses client limit now query location radius_km max_results st in
  searches (db st')
    = searches (db st) ++
      [mkSearch (Some key) query location radius_km (Py.len raw) (Some now)] /\
  ((exists msg, outcome = inl (IntegrityError msg)) \/
   (exists msg, outcome = inl (PendingRollbackError msg)) \/
   (exists resp bs kept dropped,
      outcome = inr resp /\
      raw = kept ++ dropped /\
      (0 <= max_results -> Py.len kept = Z.min max_results (Py.len raw)) /\
      (max_results < 0 -> Py.len dropped = Z.min (- max_results) (Py.len raw)) /\
      r_search_id resp = key /\
      r_businesses resp = map to_dict bs /\
      map place_id bs = map p_place_id kept /\
      map (Py.get "place_id") (r_businesses resp)
        = map (fun p => Some (Py.of_str (p_place_id p))) kept /\
      total_results resp = Py.len kept)).
Proof.
  intros Hact Hquota Hflush Hgeo Hplaces key raw.
  destruct (search_businesses_reaches_loop query location radius_km
              max_results st g gs results tbl Hact Hquota Hflush Hgeo Hplaces)
    as (st5 & Hs5 & _ & _ & Hact5 & _ & _ & ->).
  fold key raw in Hs5 |- *.
  destruct (slice_to_prefix max_results raw) as (dropped & Hraw & Hlen & Hlen').
  remember (Py.slice_to max_results raw) as kept eqn:Ekept.
  destruct (process_places_run key kept (month_count now (db st)) [] st5 Hact5)
    as (out6 & st6 & ds & c6 & Hloop & _ & _ & _ & Hs6 & _ & _ & _ & Hout6).
  destruct out6 as [e|[c acc6]].
  - destruct Hout6 as (-> & _).
    rewrite (bind_inl _ _ _ _ _ Hloop).
    split; [rewrite Hs6; exact Hs5|]. right. left. eexists. reflexivity.
  - destruct Hout6 as (_ & Hact6 & bs & Hacc & Hids). simpl in Hacc. subst acc6.
    rewrite (bind_inr _ _ _ _ _ Hloop). cbv beta iota.
    pose proof (search_businesses_ends key query location radius_km
                  (map to_dict bs) st6 Hact6) as Hend.
    destruct ((_ ← commit now; _) st6) as [outcome st'].
    destruct Hend as (_ & Hs' & _ & _ & Hend).
    split; [rewrite Hs', Hs6; exact Hs5|].
    destruct Hend as [((msg & ->) & _)|(usage & tbl' & -> & _)].
    + left. exists msg. reflexivity.
    + right. right. eexists _, bs, kept, dropped.
      split; [reflexivity|]. split; [exact Hraw|]. split; [exact Hlen|].
      split; [exact Hlen'|]. cbn [r_search_id r_businesses total_results].
      split; [reflexivity|]. split; [reflexivity|]. split; [exact Hids|].
      split.
      * rewrite <- (map_map p_place_id (fun o => Some (Py.of_str o))).
        rewrite <- Hids, !map_map. reflexivity.
      * unfold Py.len. rewrite length_map.
        rewrite <- (length_map place_id bs), Hids, length_map. reflexivity.
Qed.

End PlacesApiFacts.

(** ** The claims on the example run *)

Section PlacesApiExamples.
Import Database PlacesApi.

Lemma search_businesses_quota_gate_witness :
  exists msg,
    search_businesses answering 10 january "dentists" "Cape Town" 10 10
      (counted 10 [])
    = (inl (APILimitExceeded msg), counted 10 []).
Proof.
  pose proof (search_businesses_quota_gate answering 10 january
                "dentists" "Cape Town" 10 10 (counted 10 []) eq_refl
                ltac:(vm_compute; discriminate)) as H.
  destruct (search_businesses _ _ _ _ _ _ _ _) as [outcome st'].
  destruct H as ((msg & ->) & -> & _). exists msg. reflexivity.
Defined.

Lemma stored_place_is_reused_witness :
  process_place answering january 8 10 dentist (3, [])
    (at_loop 3 [stored_dentist])
  = (inr (3, [to_dict stored_dentist]), at_loop 3 [stored_dentist]).
Proof.
  destruct (stored_place_is_reused answering 10 january
              "dentists" "Cape Town" 10 10 8 dentist 3 []
              (at_loop 3 [stored_dentist]) stored_dentist eq_refl
              ltac:(apply list_elem_of_singleton; reflexivity) eq_refl)
    as ((b & _ & _ & Hsame & Hrun) & _).
  rewrite Hrun, (Hsame ltac:(apply NoDup_singleton) ltac:(discriminate)).
  reflexivity.
Defined.

Lemma details_fetch_when_budget_left_witness :
  calls (snd (process_place answering january 1 10 dentist (6, [])
                (at_loop 6 [])))
  = calls (at_loop 6 []) ++ [Details (Some "A")].
Proof.
  pose proof (details_fetch_when_budget_left answering 10 january 1 dentist
                6 [] (at_loop 6 []) eq_refl eq_refl eq_refl) as H.
  destruct (process_place _ _ _ _ _ _ _) as [outcome st'].
  destruct H as (Hcall & _).
  apply Hcall. vm_compute. reflexivity.
Defined.

(** C2 as stated fails.  With a limit of 10 and 6 calls counted when the
    search starts, the loop starts with 8 calls counted: the headroom is 2,
    which does not exceed 2.  The dentist is not stored, and the details
    call is made all the same. *)
Lemma details_fetched_at_headroom_two :
  let st := at_loop 6 [] in
  search_businesses answering 10 january "dentists" "Cape Town" 10 1
    (counted 6 [])
  = ('(_, businesses) ←
       process_places answering january 1 10 [dentist] (6, []);
     _ ← commit january;
     search_id ← search_record_id 1;
     usage ← get_usage_stats 10 january;
     mret (mkResponse search_id "dentists" "Cape Town" 10 (Py.len businesses)
             businesses usage)) st /\
  find (place_id_is (p_place_id dentist)) (businesses (db st)) = None /\
  10 - month_count january (db st) = 2 /\
  ~ 10 - month_count january (db st) > 2 /\
  calls (snd (process_place answering january 1 10 dentist (6, []) st))
    = calls st ++ [Details (Some "A")] /\
  month_count january
    (db (snd (process_place answering january 1 10 dentist (6, []) st))) = 9.
Proof.
  cbv zeta. split; [vm_compute; reflexivity|].
  split; [reflexivity|]. split; [reflexivity|].
  split; [vm_compute; discriminate|].
  split; vm_compute; reflexivity.
Qed.

(** Two results and [max_results = 1]: the [Search] row counts two results,
    the response holds the first of them only. *)
Lemma search_businesses_records_one_search_witness :
  searches (db (snd (search_businesses answering 10 january
                       "dentists" "Cape Town" 10 1 (counted 0 []))))
  = [mkSearch (Some 1) "dentists" "Cape Town" 10 2 (Some january)] /\
  exists resp,
    fst (search_businesses answering 10 january "dentists" "Cape Town" 10 1
           (counted 0 [])) = inr resp /\
    map (Py.get "place_id") (r_businesses resp) = [Some (Py.VStr "A")] /\
    total_results resp = 1.
Proof.
  pose proof (search_businesses_records_one_search answering 10 january
                "dentists" "Cape Town" 10 1 (counted 0 [])
                (mkGeocodeResult (-33.9)%Q 18.4%Q) []
                (Some [dentist; clinic]) [] eq_refl
                ltac:(vm_compute; reflexivity) eq_refl eq_refl eq_refl) as H.
  cbv zeta in H.
  destruct (search_businesses _ _ _ _ _ _ _ _) as [[e|resp] st'] eqn:E.
  { exfalso. vm_compute in E. discriminate E. }
  destruct H as (H & Hout). split; [exact H|].
  exists resp. split; [reflexivity|].
  destruct Hout as [(msg & [=])|[(msg & [=])|Hout]].
  destruct Hout as (resp' & bs & kept & dropped & [= <-] & Hraw & Hlen & _ & _
                    & _ & _ & Hids & Htotal).
  specialize (Hlen ltac:(lia)). rewrite Htotal, Hids.
  destruct kept as [|a [|b kept]]; unfold Py.len in Hlen; simpl length in Hlen;
    try lia.
  simpl in Hraw. injection Hraw as <- _. split; reflexivity.
Defined.

End PlacesApiExamples.

(** * Further properties *)

(** ** [RateLimiter]: bounds and composition *)

Section RateLimiterMore.
Import RateLimiter.

Lemma within_length (now : Q) (seconds : Z) (l : list Q) :
  Py.len (within now seconds l) <= Py.len l.
Proof.
  unfold within, Py.len. induction l as [|x l IH]; simpl; [lia|].
  destruct (Py.Qltb _ _); simpl; lia.
Qed.

Lemma within_idem (now : Q) (seconds : Z) (l : list Q) :
  within now seconds (within now seconds l) = within now seconds l.
Proof.
  unfold within. induction l as [|x l IH]; simpl; [reflexivity|].
  destruct (Py.Qltb (now - x) (inject_Z seconds)) eqn:E; simpl;
    [rewrite E, IH; reflexivity|exact IH].
Qed.

Lemma within_app (now : Q) (seconds : Z) (l k : list Q) :
  within now seconds (l ++ k) = within now seconds l ++ within now seconds k.
Proof. unfold within. apply List.filter_app. Qed.

Lemma within_now (now : Q) : within now 60 [now] = [now].
Proof.
  unfold within. simpl.
  assert (H : Py.Qltb (now - now) (inject_Z 60) = true).
  { apply Qltb_lt. change (inject_Z 60) with 60%Q. lra. }
  rewrite H. reflexivity.
Qed.

(** No window ever holds more than [requests_per_minute] timestamps: the
    bound holds for a new limiter and is kept by [check] and by
    [get_remaining], for every client. *)
Theorem windows_stay_bounded
    (self : t) (request : Request) (clock : Clock) (now : Q) :
  (forall ip, Py.len (window self ip) <= requests_per_minute self) ->
  (forall ip,
     Py.len (window (snd (check self request clock)) ip)
     <= requests_per_minute (snd (check self request clock))) /\
  (forall ip,
     Py.len (window (snd (get_remaining self request now)) ip)
     <= requests_per_minute (snd (get_remaining self request now))).
Proof.
  intros Hbound. split; intros ip.
  - destruct (check_frame self request clock) as (Hrpm & _ & Hframe).
    rewrite Hrpm.
    destruct (decide (check_ip request = ip)) as [<-|Hne];
      [|rewrite (Hframe ip Hne); apply Hbound].
    pose proof (within_length (at_clean clock) 60 (window self (check_ip request))) as Hkept.
    specialize (Hbound (check_ip request)).
    unfold check. destruct (_check_burst _ _ _).
    + cbn [snd]. rewrite window_clean. lia.
    + rewrite !window_clean. cbn [requests_per_minute _clean_old_requests set_window].
      destruct (Z.leb_spec (requests_per_minute self)
                  (Py.len (within (at_clean clock) 60 (window self (check_ip request))))).
      * cbn [snd]. rewrite window_clean. lia.
      * cbn [snd]. rewrite window_set_window_eq.
        unfold Py.len in *. rewrite length_app. simpl. lia.
  - destruct (get_remaining_spec self request now) as (_ & Hown & Hother).
    unfold get_remaining at 2. cbn [snd requests_per_minute _clean_old_requests set_window].
    destruct (decide (remaining_ip request = ip)) as [<-|Hne].
    + rewrite Hown.
      pose proof (within_length now 60 (window self (remaining_ip request))).
      specialize (Hbound (remaining_ip request)). lia.
    + rewrite (Hother ip Hne). apply Hbound.
Qed.

Lemma init_bounded (rpm burst : Z) (ip : string) :
  0 <= rpm -> Py.len (window (init rpm burst) ip) <= requests_per_minute (init rpm burst).
Proof. intros H. unfold window, init. simpl. rewrite lookup_empty. simpl. exact H. Qed.

Lemma windows_stay_bounded_witness :
  Py.len (window (snd (check bursting proxied (at_time 6))) "203.0.113.7") <= 30.
Proof.
  apply (windows_stay_bounded bursting proxied (at_time 6) 6).
  intros ip. unfold bursting. rewrite window_set_window.
  destruct (decide (_ = ip)); [vm_compute; discriminate|].
  apply (init_bounded 30 10 ip). lia.
Defined.

(** For a request without a forwarded header [check] and [get_remaining]
    work on the same window.  Read at one instant: when [get_remaining]
    reports 0 the request is rejected with status 429, and a request that is
    accepted lowers what [get_remaining] reports by exactly one. *)
Theorem remaining_agrees_with_check
    (self : t) (request : Request) (now : Q) :
  x_forwarded_for request = None ->
  let before := remaining (fst (get_remaining self request now)) in
  let '(outcome, self') := check self request (at_time now) in
  let after := remaining (fst (get_remaining self' request now)) in
  (before = 0 -> exists e, outcome = inl e /\ status_code e = 429) /\
  (outcome = inr tt -> after = before - 1 /\ 0 < before).
Proof.
  intros Hnone.
  assert (Hip : check_ip request = remaining_ip request).
  { unfold check_ip. rewrite Hnone. reflexivity. }
  destruct (get_remaining_spec self request now) as (Hans & _).
  rewrite Hans. cbn [remaining]. clear Hans.
  unfold check. rewrite Hip.
  unfold _check_burst. rewrite !window_clean.
  remember (remaining_ip request) as ip eqn:Eip.
  remember (within now 60 (window self ip)) as kept eqn:Ekept.
  cbn [requests_per_minute burst_limit _clean_old_requests set_window at_time
       at_clean at_burst at_record].
  rewrite <- ?Ekept.
  destruct (burst_limit self <=? Py.len (within now 5 kept)).
  - cbv iota beta. split; [intros _; eexists; split; reflexivity|discriminate].
  - destruct (Z.leb_spec (requests_per_minute self) (Py.len kept)) as [Hfull|Hroom];
      cbv iota beta.
    + split; [intros _; eexists; split; reflexivity|discriminate].
    + split; [lia|]. intros _.
      destruct (get_remaining_spec
                  (set_window (_clean_old_requests self ip now) ip (kept ++ [now]))
                  request now) as (Hans' & _).
      rewrite Hans'. cbn [remaining requests_per_minute set_window _clean_old_requests].
      rewrite <- Eip, window_set_window_eq, within_app, within_now.
      rewrite Ekept at 1. rewrite within_idem, <- Ekept.
      unfold Py.len in *. rewrite length_app. simpl. lia.
Qed.

Lemma remaining_agrees_with_check_witness :
  remaining (fst (get_remaining
               (snd (check rate_limiter (mkRequest None (Some "10.0.0.1")) (at_time 1)))
               (mkRequest None (Some "10.0.0.1")) 1)) = 29.
Proof.
  pose proof (remaining_agrees_with_check rate_limiter
                (mkRequest None (Some "10.0.0.1")) 1 eq_refl) as H.
  cbv zeta in H.
  destruct (check rate_limiter (mkRequest None (Some "10.0.0.1")) (at_time 1))
    as [outcome self'] eqn:E.
  assert (Hout : outcome = inr tt).
  { apply (f_equal fst) in E. vm_compute in E. congruence. }
  destruct H as (_ & H). destruct (H Hout) as (Hafter & _).
  cbn [snd]. rewrite Hafter. vm_compute. reflexivity.
Defined.

(** A request whose client identifier has no recorded timestamp is accepted
    under any positive limits, whatever the other windows hold: a client
    that sends a forwarded value not seen before is never rejected. *)
Theorem unseen_identifier_is_admitted
    (self : t) (request : Request) (clock : Clock) :
  0 < burst_limit self ->
  0 < requests_per_minute self ->
  window self (check_ip request) = [] ->
  let '(outcome, self') := check self request clock in
  outcome = inr tt /\
  window self' (check_ip request) = [at_record clock] /\
  forall ip, ip <> check_ip request -> window self' ip = window self ip.
Proof.
  intros Hburst Hrpm Hempty.
  pose proof (check_frame self request clock) as (_ & _ & Hframe).
  assert (E : check self request clock
              = (inr tt,
                 set_window
                   (_clean_old_requests self (check_ip request) (at_clean clock))
                   (check_ip request) [at_record clock])).
  { unfold check, _check_burst. rewrite !window_clean, Hempty.
    cbn [requests_per_minute burst_limit _clean_old_requests set_window within
         List.filter Py.len length app].
    change (Py.len (@nil Q)) with 0.
    destruct (Z.leb_spec (burst_limit self) 0); [lia|].
    destruct (Z.leb_spec (requests_per_minute self) 0); [lia|].
    reflexivity. }
  rewrite E in *. cbn [snd] in Hframe.
  split; [reflexivity|]. split; [apply window_set_window_eq|].
  intros ip Hne. apply Hframe. congruence.
Qed.

Lemma unseen_identifier_is_admitted_witness :
  fst (check bursting (mkRequest (Some "198.51.100.9") (Some "10.0.0.1"))
         (at_time 1)) = inr tt.
Proof.
  pose proof (unseen_identifier_is_admitted bursting
                (mkRequest (Some "198.51.100.9") (Some "10.0.0.1")) (at_time 1)
                ltac:(reflexivity) ltac:(reflexivity)
                ltac:(vm_compute; reflexivity)) as H.
  destruct (check _ _ _) as [outcome self']. destruct H as (H & _). exact H.
Defined.

End RateLimiterMore.

(** ** [Businesses]: lookup, filters and pages *)

Section BusinessesMore.
Import Database Businesses.

Lemma id_is_eq (n : Z) (b : Business) : id_is n b = true <-> id b = Some n.
Proof.
  unfold id_is. destruct (id b) as [m|]; [|split; discriminate].
  rewrite Z.eqb_eq. split; congruence.
Qed.

(** [get_business] answers 404 exactly when no row carries the key; any
    dictionary it returns is that of a stored row and carries the key asked
    for; and when keys are unique it is the dictionary of the one row of
    that key. *)
Theorem get_business_finds_the_row (business_id : Z) (db : list Business) :
  (get_business business_id db
     = inl (Http.mkHTTPException 404 "Business not found" [])
   <-> forall b, b ∈ db -> id b <> Some business_id) /\
  (forall d, get_business business_id db = inr d ->
     Py.get "id" d = Some (Py.VInt business_id) /\
     exists b, b ∈ db /\ id b = Some business_id /\ d = to_dict b) /\
  (forall b, keyed db -> b ∈ db -> id b = Some business_id ->
     get_business business_id db = inr (to_dict b)).
Proof.
  unfold get_business.
  destruct (find (id_is business_id) db) as [c|] eqn:E.
  - apply find_some in E as [Hin Hc]. apply id_is_eq in Hc.
    apply list_elem_of_In in Hin.
    split; [split; [discriminate|intros H; destruct (H c Hin Hc)]|].
    split.
    + intros d [= <-]. split; [simpl; rewrite Hc; reflexivity|].
      exists c. auto.
    + intros b [Hnodup _] Hb Hid. do 2 f_equal.
      clear -Hnodup Hin Hb Hc Hid.
      induction db as [|x db IH]; [inversion Hin|].
      simpl in Hnodup. apply NoDup_cons in Hnodup as [Hx Hnodup].
      assert (Hmem : forall y, y ∈ db -> id y = id x -> False).
      { intros y Hy Heq. apply Hx. rewrite <- Heq.
        apply list_elem_of_fmap. exists y. auto. }
      apply elem_of_cons in Hin as [->|Hin], Hb as [->|Hb]; try reflexivity.
      * destruct (Hmem b Hb); congruence.
      * destruct (Hmem c Hin); congruence.
      * apply IH; assumption.
  - split; [split; [|reflexivity]|split; [discriminate|]].
    + intros _ b Hb Hid. apply list_elem_of_In in Hb.
      pose proof (find_none _ _ E b Hb) as Hno.
      apply id_is_eq in Hid. congruence.
    + intros b _ Hb Hid. apply list_elem_of_In in Hb.
      pose proof (find_none _ _ E b Hb) as Hno.
      apply id_is_eq in Hid. congruence.
Qed.

Lemma get_business_finds_the_row_witness :
  get_business 2 catalogue = inr (to_dict (mkBusiness (Some 2) (Some "B")
    (Some "Tooth Clinic") None None None (Some 3.9%Q) (Some 40) None None None
    (Some 1) None)) /\
  get_business 7 catalogue = inl (Http.mkHTTPException 404 "Business not found" []).
Proof.
  destruct (get_business_finds_the_row 2 catalogue) as (_ & _ & Hfound).
  destruct (get_business_finds_the_row 7 catalogue) as (Hmissing & _).
  split.
  - apply Hfound; [|apply list_elem_of_further, list_elem_of_here|reflexivity].
    split; [|repeat constructor; discriminate].
    simpl.
    repeat (apply NoDup_cons; split;
            [intros H; repeat (apply elem_of_cons in H as [H|H]; [discriminate|]);
             inversion H|]).
    apply NoDup_nil_2.
  - apply Hmissing. intros b Hb.
    repeat (apply elem_of_cons in Hb as [->|Hb]; [discriminate|]).
    inversion Hb.
Defined.

Lemma filter_split_length {A} (f : A -> bool) (l : list A) :
  Py.len (List.filter f l) + Py.len (List.filter (fun x => negb (f x)) l)
  = Py.len l.
Proof.
  unfold Py.len. induction l as [|x l IH]; simpl; [reflexivity|].
  destruct (f x); simpl; lia.
Qed.

Lemma filter_comm {A} (f g : A -> bool) (l : list A) :
  List.filter f (List.filter g l) = List.filter g (List.filter f l).
Proof.
  induction l as [|x l IH]; simpl; [reflexivity|].
  destruct (f x) eqn:Ef, (g x) eqn:Eg; simpl; rewrite ?Ef, ?Eg, IH; reflexivity.
Qed.

Lemma has_no_site_negb (b : Business) : has_no_site b = negb (has_site b).
Proof.
  unfold has_no_site, has_site. destruct (website b); [|reflexivity].
  rewrite negb_involutive. reflexivity.
Qed.

Lemma get_stats_never_divides_by_zero_support (db : list Business) :
  exists stats,
    get_stats db = Some stats /\
    with_website stats = Py.len (List.filter has_site db) /\
    without_website stats = Py.len db - Py.len (List.filter has_site db).
Proof.
  unfold get_stats.
  destruct (Z.ltb_spec 0 (Py.len db)) as [Hpos|_]; [|eexists; split; [reflexivity|auto]].
  unfold Py.percentage. rewrite true_div_nonzero by lia.
  eexists. split; [reflexivity|auto].
Qed.

(** The rows with a website and the rows without one split the matching
    rows: under equal [search_id] and [min_rating] the totals of
    [has_website=true] and [has_website=false] add up to the total with no
    [has_website]; and the two counts of [get_stats] are the totals of
    those two listings without other filters. *)
Theorem has_website_splits_the_total
    (search_id : option Z) (min_rating : option Q)
    (l1 o1 l2 o2 l3 o3 : Z) (db : list Business) :
  total (list_businesses search_id (Some true) min_rating l1 o1 db)
  + total (list_businesses search_id (Some false) min_rating l2 o2 db)
  = total (list_businesses search_id None min_rating l3 o3 db) /\
  with_website <$> get_stats db
  = Some (total (list_businesses None (Some true) None l1 o1 db)) /\
  without_website <$> get_stats db
  = Some (total (list_businesses None (Some false) None l2 o2 db)).
Proof.
  split.
  - unfold list_businesses. cbn [total]. unfold apply_filters.
    set (q := match search_id with
              | Some n => if Py.truthy_int search_id
                          then List.filter (search_id_is n) db else db
              | None => db
              end).
    assert (Hsplit : forall l : list Business,
              Py.len (List.filter has_site l) + Py.len (List.filter has_no_site l)
              = Py.len l).
    { intros l. rewrite (filter_ext has_no_site (fun b => negb (has_site b)))
        by exact has_no_site_negb. apply filter_split_length. }
    destruct min_rating as [x|]; [destruct (Py.truthy_float (Some x))|];
      try apply Hsplit.
    rewrite (filter_comm (rating_at_least x) has_site),
            (filter_comm (rating_at_least x) has_no_site).
    apply Hsplit.
  - destruct (get_stats_never_divides_by_zero_support db) as (stats & Hs & Hw & Hn).
    rewrite Hs. cbn [fmap option_fmap option_map].
    split; f_equal; [exact Hw|].
    rewrite Hn. unfold list_businesses, apply_filters. cbn [total].
    rewrite <- (filter_split_length has_site db).
    rewrite (filter_ext has_no_site (fun b => negb (has_site b)))
      by exact has_no_site_negb.
    lia.
Qed.

Lemma apply_filters_in
    (search_id : option Z) (has_website : option bool) (min_rating : option Q)
    (db : list Business) (b : Business) :
  In b (apply_filters search_id has_website min_rating db) ->
  In b db /\
  (forall n, search_id = Some n -> n <> 0 -> search_id_is n b = true) /\
  (has_website = Some true -> has_site b = true) /\
  (has_website = Some false -> has_no_site b = true) /\
  (forall x, min_rating = Some x -> ~ (x == 0)%Q -> rating_at_least x b = true).
Proof.
  unfold apply_filters. intros H.
  assert (H3 : In b (match has_website with
                     | Some true => List.filter has_site
                         (match search_id with
                          | Some n => if Py.truthy_int search_id
                                      then List.filter (search_id_is n) db else db
                          | None => db end)
                     | Some false => List.filter has_no_site
                         (match search_id with
                          | Some n => if Py.truthy_int search_id
                                      then List.filter (search_id_is n) db else db
                          | None => db end)
                     | None => match search_id with
                          | Some n => if Py.truthy_int search_id
                                      then List.filter (search_id_is n) db else db
                          | None => db end
                     end) /\
               forall x, min_rating = Some x -> ~ (x == 0)%Q ->
                         rating_at_least x b = true).
  { destruct min_rating as [x|]; [|split; [exact H|discriminate]].
    unfold Py.truthy_float in H.
    destruct (Z.eqb_spec (Qnum x) 0) as [E|E]; simpl in H.
    - split; [exact H|]. intros y [= <-] Hy. destruct Hy.
      unfold Qeq. rewrite E. reflexivity.
    - apply filter_In in H as [H Hr]. split; [exact H|].
      intros y [= <-] _. exact Hr. }
  destruct H3 as [H2 Hrating].
  assert (H1 : In b (match search_id with
                     | Some n => if Py.truthy_int search_id
                                 then List.filter (search_id_is n) db else db
                     | None => db end) /\
               (has_website = Some true -> has_site b = true) /\
               (has_website = Some false -> has_no_site b = true)).
  { destruct has_website as [[|]|].
    - apply filter_In in H2 as [H2 Hs]. repeat split; auto; discriminate.
    - apply filter_In in H2 as [H2 Hs]. repeat split; auto; discriminate.
    - repeat split; auto; discriminate. }
  destruct H1 as (H1 & Hyes & Hno).
  assert (H0 : In b db /\
               forall n, search_id = Some n -> n <> 0 -> search_id_is n b = true).
  { destruct search_id as [n|]; [|split; [exact H1|discriminate]].
    unfold Py.truthy_int in H1. destruct (Z.eqb_spec n 0) as [E|E]; simpl in H1.
    - split; [exact H1|]. intros m [= <-] Hm. contradiction.
    - apply filter_In in H1 as [H1 Hs]. split; [exact H1|].
      intros m [= <-] _. exact Hs. }
  destruct H0 as (H0 & Hsearch). auto.
Qed.

Lemma offset_limit_incl {A} (offset limit : Z) (l : list A) (x : A) :
  In x (offset_limit offset limit l) -> In x l.
Proof.
  intros H. destruct (offset_limit_segment offset limit l) as (before & after & -> & _).
  apply in_or_app. right. apply in_or_app. left. exact H.
Qed.

(** Every business listed is a stored row that passes each filter given with
    a value other than zero: it belongs to the search asked for, has (or has
    not) a non-empty website as asked, and is rated at least [min_rating];
    and no page is longer than the total reported. *)
Theorem listed_rows_pass_the_filters
    (search_id : option Z) (has_website : option bool) (min_rating : option Q)
    (limit offset : Z) (db : list Business) :
  let r := list_businesses search_id has_website min_rating limit offset db in
  exists page,
    businesses r = map to_dict page /\
    Py.len (businesses r) <= total r /\
    Forall (fun b =>
      In b db /\
      (forall n, search_id = Some n -> n <> 0 ->
         Database.search_id b = Some n) /\
      (has_website = Some true ->
         exists w, website b = Some w /\ w <> "") /\
      (has_website = Some false ->
         website b = None \/ website b = Some "") /\
      (forall x, min_rating = Some x -> ~ (x == 0)%Q ->
         exists y, rating b = Some y /\ (x <= y)%Q)) page.
Proof.
  cbv zeta. unfold list_businesses. cbn [businesses total].
  set (matching := apply_filters search_id has_website min_rating db).
  exists (offset_limit offset limit (order_by_rating matching)).
  split; [reflexivity|]. split.
  - unfold Py.len. rewrite length_map.
    destruct (offset_limit_segment offset limit (order_by_rating matching))
      as (before & after & Hseg & _).
    rewrite (Permutation_length (order_by_rating_perm matching)).
    rewrite Hseg at 2. rewrite !length_app. lia.
  - apply List.Forall_forall. intros b Hb.
    apply offset_limit_incl in Hb.
    apply (Permutation_in _ (Permutation_sym (order_by_rating_perm matching))) in Hb.
    apply apply_filters_in in Hb as (Hdb & Hsearch & Hyes & Hno & Hrating).
    split; [exact Hdb|]. split; [|split; [|split]].
    + intros n Hn Hz. specialize (Hsearch n Hn Hz).
      unfold search_id_is in Hsearch.
      destruct (Database.search_id b) as [m|]; [|discriminate].
      apply Z.eqb_eq in Hsearch. congruence.
    + intros H. specialize (Hyes H). unfold has_site in Hyes.
      destruct (website b) as [w|]; [|discriminate].
      exists w. split; [reflexivity|]. intros ->. discriminate.
    + intros H. specialize (Hno H). rewrite has_no_site_negb in Hno.
      apply negb_true_iff, has_site_false in Hno. exact Hno.
    + intros x Hx Hz. specialize (Hrating x Hx Hz).
      unfold rating_at_least in Hrating.
      destruct (rating b) as [y|]; [|discriminate].
      exists y. split; [reflexivity|]. apply Qle_bool_iff. exact Hrating.
Qed.

Lemma firstn_plus {A} (a b : nat) (l : list A) :
  firstn (a + b) l = firstn a l ++ firstn b (skipn a l).
Proof.
  revert l. induction a as [|a IH]; intros l; [reflexivity|].
  destruct l as [|x l]; simpl; [destruct b; reflexivity|].
  rewrite IH. reflexivity.
Qed.

(** Pages follow one another: with offsets and limits that are not negative,
    the page of [l1] rows at [offset] followed by the page of [l2] rows at
    [offset + l1] is the page of [l1 + l2] rows at [offset]; and a page that
    starts at or after the total is empty. *)
Theorem pages_follow_one_another
    (search_id : option Z) (has_website : option bool) (min_rating : option Q)
    (l1 l2 offset : Z) (db : list Business) :
  0 <= offset -> 0 <= l1 -> 0 <= l2 ->
  let page := fun limit offset =>
    businesses (list_businesses search_id has_website min_rating limit offset db) in
  page l1 offset ++ page l2 (offset + l1) = page (l1 + l2) offset /\
  (total (list_businesses search_id has_website min_rating l1 offset db)
     <= offset -> page l1 offset = []).
Proof.
  intros Ho H1 H2. cbv zeta. unfold list_businesses. cbn [businesses total].
  set (ordered := order_by_rating
                    (apply_filters search_id has_website min_rating db)).
  unfold offset_limit.
  destruct (Z.ltb_spec l1 0); [lia|]. destruct (Z.ltb_spec l2 0); [lia|].
  destruct (Z.ltb_spec (l1 + l2) 0); [lia|].
  split.
  - rewrite <- map_app. f_equal.
    rewrite !Z2Nat.inj_add by lia.
    rewrite (Nat.add_comm (Z.to_nat offset)), <- List.skipn_skipn.
    symmetry. apply firstn_plus.
  - intros Hpast. unfold Py.len in Hpast.
    rewrite (Permutation_length
               (order_by_rating_perm
                  (apply_filters search_id has_website min_rating db))) in Hpast.
    fold ordered in Hpast.
    rewrite List.skipn_all2 by lia. destruct (Z.to_nat l1); reflexivity.
Qed.

Lemma pages_follow_one_another_witness :
  businesses (list_businesses None None None 1 0 three_of_four)
  ++ businesses (list_businesses None None None 2 1 three_of_four)
  = businesses (list_businesses None None None 3 0 three_of_four).
Proof.
  apply (pages_follow_one_another None None None 1 2 0 three_of_four); lia.
Defined.

(** *** The extremes of the percentage *)

Lemma div_core_self (p : positive) :
  SFdiv_core_binary Py.prec Py.emax (Z.pos p) 0 (Z.pos p) 0
  = (2 ^ 53, -53, loc_Exact).
Proof.
  unfold SFdiv_core_binary.
  replace (Zdigits2 (Z.pos p) + 0 - (Zdigits2 (Z.pos p) + 0)) with 0 by lia.
  change (Z.min (fexp Py.prec Py.emax 0) (0 - 0)) with (-53).
  change (0 - 0 - -53) with 53. cbv iota.
  rewrite Z.shiftl_mul_pow2 by lia.
  assert (Hq : Z.pos p * 2 ^ 53 / Z.pos p = 2 ^ 53).
  { rewrite Z.mul_comm. apply Z.div_mul. discriminate. }
  assert (Hr : Z.pos p * 2 ^ 53 mod Z.pos p = 0).
  { rewrite Z.mul_comm. apply Z.mod_mul. discriminate. }
  unfold Z.div, Z.modulo in Hq, Hr.
  destruct (Z.div_eucl (Z.pos p * 2 ^ 53) (Z.pos p)) as [q r].
  subst q r. unfold new_location.
  destruct (Z.even (Z.pos p)); reflexivity.
Qed.

(** A number divided by itself is the float [1.0], and nothing divided by a
    positive number is [+0.0]. *)
Lemma true_div_self (b : Z) :
  0 < b -> Py.true_div b b = Some (Py.float_of_int 1).
Proof.
  intros Hb. rewrite true_div_nonzero by lia.
  destruct b as [|p|p]; try lia. f_equal.
  unfold SFdiv, Py.int_as_float. rewrite div_core_self. reflexivity.
Qed.

Lemma true_div_zero (b : Z) :
  0 < b -> Py.true_div 0 b = Some (S754_zero false).
Proof.
  intros Hb. rewrite true_div_nonzero by lia.
  destruct b as [|p|p]; try lia. reflexivity.
Qed.

Lemma filter_all {A} (f : A -> bool) (l : list A) :
  Forall (fun x => f x = true) l -> List.filter f l = l.
Proof.
  induction 1 as [|x l Hx _ IH]; simpl; [reflexivity|].
  rewrite Hx, IH. reflexivity.
Qed.

Lemma filter_none {A} (f : A -> bool) (l : list A) :
  Forall (fun x => f x = false) l -> List.filter f l = [].
Proof.
  induction 1 as [|x l Hx _ IH]; simpl; [reflexivity|].
  rewrite Hx. exact IH.
Qed.

(** With rows stored, the percentage is a float also at the extremes: when
    every row has a website it is exactly [100.0], and when none has one it
    is the float [0.0], not the integer [0] reported for an empty table. *)
Theorem get_stats_extremes (db : list Business) :
  db <> [] ->
  (Forall (fun b => has_site b = true) db ->
     website_percentage <$> get_stats db
     = Some (Py.NFloat (Py.float_of_int 100))) /\
  (Forall (fun b => has_site b = false) db ->
     website_percentage <$> get_stats db = Some (Py.NFloat (S754_zero false))).
Proof.
  intros Hne.
  assert (Hpos : 0 < Py.len db).
  { destruct db; [contradiction|]. unfold Py.len. simpl. lia. }
  unfold get_stats. destruct (Z.ltb_spec 0 (Py.len db)) as [_|]; [|lia].
  split; intros Hall.
  - rewrite (filter_all _ _ Hall). unfold Py.percentage.
    rewrite (true_div_self _ Hpos). reflexivity.
  - rewrite (filter_none _ _ Hall). unfold Py.percentage.
    change (Py.len []) with 0. rewrite (true_div_zero _ Hpos). reflexivity.
Qed.

Lemma get_stats_extremes_witness :
  website_percentage <$> get_stats [unrated] = Some (Py.NFloat (S754_zero false)).
Proof.
  apply (get_stats_extremes [unrated]); [discriminate|].
  repeat constructor.
Defined.

End BusinessesMore.

(** ** [PlacesApi]: the counter, the error paths and the budget *)

Section PlacesApiMore.
Import Database PlacesApi.

Variable client : Client.
Variable limit : Z.
Variable now : string.

(** *** The usage counter *)

Lemma bump_months (count : Z) (tbl : list APIUsage) :
  map u_month (bump now count tbl) = map u_month tbl.
Proof.
  induction tbl as [|u tbl IH]; simpl; [reflexivity|].
  destruct (month_is (_get_current_month now) u); simpl; [|rewrite IH]; reflexivity.
Qed.

Lemma bump_other_months (count : Z) (tbl : list APIUsage) (u : APIUsage) :
  u_month u <> _get_current_month now ->
  (In u (bump now count tbl) <-> In u tbl).
Proof.
  intros Hu. induction tbl as [|v tbl IH]; simpl; [reflexivity|].
  destruct (month_is (_get_current_month now) v) eqn:E; simpl.
  - apply month_is_current in E.
    split; (intros [H|H]; [left|right; exact H]); subst u; simpl in *; congruence.
  - rewrite IH. reflexivity.
Qed.

Lemma find_none_month (tbl : list APIUsage) :
  find (month_is (_get_current_month now)) tbl = None ->
  ~ In (_get_current_month now) (map u_month tbl).
Proof.
  intros Hnone Hin. apply in_map_iff in Hin as (u & Hu & Hin).
  pose proof (find_none _ _ Hnone u Hin) as H.
  apply month_is_current in Hu. congruence.
Qed.

(** Counting and reading back, on a session that has not failed.  When the
    commit goes through, [_increment_api_usage count] raises the count that
    [_check_api_limit] reads by [count], from 0 when the month has no row
    yet; a table with at most one row per month keeps that shape; and the
    rows of other months are left as they are. *)
Theorem increment_then_read (count : Z) (st : State) (tbl : list Business) :
  failed st = false ->
  flush now (businesses (db st)) (pending st) = Some tbl ->
  let '(outcome, st') := _increment_api_usage now count st in
  outcome = inr tt /\
  fst (_check_api_limit limit now st')
    = inr (month_count now (db st) + count, limit) /\
  (usage_row now (db st) = None -> month_count now (db st') = count) /\
  (one_row_per_month (db st) -> one_row_per_month (db st')) /\
  (forall u, u_month u <> _get_current_month now ->
     (In u (api_usage (db st')) <-> In u (api_usage (db st)))).
Proof.
  intros Hact Hflush. unfold _increment_api_usage, commit_with.
  rewrite Hact, Hflush.
  cbn [db api_usage searches businesses].
  rewrite check_api_limit_active by reflexivity. cbn [fst db].
  unfold one_row_per_month, month_count, usage_row. cbn [api_usage].
  destruct (find (month_is (_get_current_month now)) (api_usage (db st)))
    as [u|] eqn:E.
  - split; [reflexivity|]. rewrite (find_bump now count _ u E). cbn.
    split; [reflexivity|]. split; [discriminate|].
    split; [rewrite bump_months; auto|].
    intros v Hv. apply bump_other_months. exact Hv.
  - split; [reflexivity|].
    rewrite find_new_row by (exact E || reflexivity). cbn.
    split; [reflexivity|]. split; [reflexivity|]. split.
    + intros Hnodup. rewrite map_app.
      apply NoDup_app. split; [exact Hnodup|]. split; [|apply NoDup_singleton].
      intros m Hm Hin. apply list_elem_of_singleton in Hin. subst m.
      apply list_elem_of_In in Hm. exact (find_none_month _ E Hm).
    + intros v Hv. rewrite in_app_iff. simpl.
      split; [intros [H|[H|[]]]; [exact H|subst v; contradiction]|auto].
Qed.

Lemma get_usage_stats_fields (st : State) :
  failed st = false ->
  exists usage,
    get_usage_stats limit now st = (inr usage, st) /\
    month usage = _get_current_month now /\
    calls_used usage = month_count now (db st) /\
    calls_limit usage = limit /\
    calls_remaining usage = Z.max 0 (limit - month_count now (db st)) /\
    (limit <= 0 -> percentage_used usage = Py.NInt 0) /\
    (0 < limit ->
       Some (percentage_used usage)
       = Py.NFloat <$> Py.percentage (month_count now (db st)) limit).
Proof.
  intros Hact. unfold get_usage_stats.
  rewrite (bind_inr _ _ _ _ _ (check_api_limit_active limit now st Hact)).
  cbv beta iota. unfold mbind, M_bind, mret, M_ret.
  destruct (Z.ltb_spec 0 limit) as [Hpos|Hnon].
  - unfold Py.percentage. rewrite true_div_nonzero by lia. cbn.
    eexists. split; [reflexivity|]. cbn.
    repeat split; try lia; reflexivity.
  - eexists. split; [reflexivity|]. cbn.
    repeat split; try lia; reflexivity.
Qed.

(** On a session that has not failed [get_usage_stats] never raises,
    whatever the limit (zero and negative limits included), and leaves the
    state as it is.  What it reports is consistent: the calls remaining are
    never negative, and add up with the calls used to the limit as long as
    the limit is not exceeded; the percentage is the integer 0 for a limit
    that is not positive and a float otherwise. *)
Theorem get_usage_stats_is_consistent (st : State) :
  failed st = false ->
  exists usage,
    get_usage_stats limit now st = (inr usage, st) /\
    calls_used usage = month_count now (db st) /\
    calls_limit usage = limit /\
    0 <= calls_remaining usage /\
    (calls_used usage <= limit ->
       calls_used usage + calls_remaining usage = limit) /\
    (limit <= calls_used usage -> calls_remaining usage = 0) /\
    (limit <= 0 -> percentage_used usage = Py.NInt 0) /\
    (0 < limit ->
       Some (percentage_used usage)
       = Py.NFloat <$> Py.percentage (month_count now (db st)) limit).
Proof.
  intros Hact.
  destruct (get_usage_stats_fields st Hact)
    as (usage & Hrun & _ & Hused & Hlimit & Hleft & Hzero & Hpct).
  exists usage. rewrite Hused, Hlimit, Hleft.
  split; [exact Hrun|]. split; [reflexivity|]. split; [reflexivity|].
  split; [lia|]. split; [lia|]. split; [lia|]. split; [exact Hzero|exact Hpct].
Qed.

(** *** Calls that fail *)

Lemma failed_call {A} (c : Call) (answer : list Call -> string + A)
    (h : exn -> M A) (st : State) (msg : string) :
  answer (calls st) = inl msg ->
  try_except (r ← external c answer; _ ← _increment_api_usage now 1; mret r) h st
  = h (ClientError msg) (mkState (db st) (pending st) (calls st ++ [c]) (failed st)).
Proof.
  intros H. unfold try_except, mbind, M_bind, external. rewrite H. reflexivity.
Qed.

Lemma uncounted_call {A} (c : Call) (answer : list Call -> string + A)
    (h : exn -> M A) (st : State) (a : A) :
  failed st = false ->
  answer (calls st) = inr a ->
  flush now (businesses (db st)) (pending st) = None ->
  exists msg,
    try_except (r ← external c answer; _ ← _increment_api_usage now 1; mret r) h st
    = h (IntegrityError msg) (mkState (db st) [] (calls st ++ [c]) true).
Proof.
  intros Hact Hanswer Hflush.
  set (st1 := mkState (db st) (pending st) (calls st ++ [c]) (failed st)).
  destruct (increment_cases now 1 st1 Hact)
    as [(tbl & _ & Hsome & _)|(_ & msg & Hrun)].
  { simpl in Hsome. congruence. }
  exists msg. unfold try_except, mbind, M_bind, external. rewrite Hanswer.
  fold st1. rewrite Hrun. reflexivity.
Qed.

Lemma past_the_gate {A} (f : Z * Z -> M A) (st : State) :
  failed st = false ->
  (_check_api_limit limit now ≫= f) st = f (month_count now (db st), limit) st.
Proof.
  intros Hact. apply bind_inr. apply check_api_limit_active. exact Hact.
Qed.

(** A failed session refuses the query of the quota gate. *)
Lemma search_businesses_failed
    (query location : string) (radius_km max_results : Z) (st : State) :
  failed st = true ->
  search_businesses client limit now query location radius_km max_results st
  = (inl rolled_back, st).
Proof.
  intros H. unfold search_businesses.
  apply bind_inl. apply check_api_limit_failed. exact H.
Qed.

(** When geocoding raises, the search raises [PlacesAPIError] with the text
    of the cause after ["Failed to geocode location: "].  The call has been
    made but is not counted, and nothing is stored. *)
Theorem geocoding_failure_is_not_counted
    (query location : string) (radius_km max_results : Z) (st : State)
    (msg : string) :
  failed st = false ->
  month_count now (db st) < limit ->
  geocode client (calls st) location = inl msg ->
  search_businesses client limit now query location radius_km max_results st
  = (inl (PlacesAPIError ("Failed to geocode location: " +:+ msg)),
     mkState (db st) (pending st) (calls st ++ [Geocode location]) false).
Proof.
  intros Hact Hquota Hgeo. unfold search_businesses.
  rewrite past_the_gate by exact Hact.
  cbv beta iota.
  destruct (Z.leb_spec limit (month_count now (db st))) as [|_]; [lia|].
  unfold mbind at 1, M_bind at 1.
  rewrite (failed_call (Geocode location) (fun h => geocode client h location)
             _ st msg Hgeo).
  rewrite Hact. reflexivity.
Qed.

(** When geocoding finds no match, the search raises [PlacesAPIError] with
    ["Could not find location: "] and the location.  The geocoding call is
    counted; no text search is made and no [Search] row is stored. *)
Theorem unknown_location_is_counted
    (query location : string) (radius_km max_results : Z) (st : State)
    (tbl : list Business) :
  failed st = false ->
  month_count now (db st) < limit ->
  flush now (businesses (db st)) (pending st) = Some tbl ->
  geocode client (calls st) location = inr [] ->
  let '(outcome, st') :=
    search_businesses client limit now query location radius_km max_results st in
  outcome = inl (PlacesAPIError ("Could not find location: " +:+ location)) /\
  calls st' = calls st ++ [Geocode location] /\
  month_count now (db st') = month_count now (db st) + 1 /\
  searches (db st') = searches (db st) /\
  businesses (db st') = tbl.
Proof.
  intros Hact Hquota Hflush Hgeo. unfold search_businesses.
  rewrite past_the_gate by exact Hact.
  cbv beta iota.
  destruct (Z.leb_spec limit (month_count now (db st))) as [|_]; [lia|].
  destruct (counted_call now (Geocode location)
              (fun h => geocode client h location)
              (fun e => raise (PlacesAPIError
                                 ("Failed to geocode location: " +:+ str e)))
              st [] tbl Hact Hgeo Hflush) as (d' & Hrun & Hs & Hb & Hc).
  rewrite (bind_inr _ _ _ _ _ Hrun). unfold raise. auto.
Qed.

(** The run of a search whose text search raises. *)
Lemma text_search_failure_run
    (query location : string) (radius_km max_results : Z) (st : State)
    (g : GeocodeResult) (gs : list GeocodeResult) (tbl : list Business)
    (msg : string) :
  failed st = false ->
  month_count now (db st) < limit ->
  flush now (businesses (db st)) (pending st) = Some tbl ->
  geocode client (calls st) location = inr (g :: gs) ->
  places client (calls st ++ [Geocode location]) (query +:+ " in " +:+ location)
    (g_lat g, g_lng g) (radius_km * 1000) = inl msg ->
  exists d',
    search_businesses client limit now query location radius_km max_results st
    = (inl (PlacesAPIError ("Places search failed: " +:+ msg)),
       mkState d' []
         (calls st ++
          [Geocode location;
           TextSearch (query +:+ " in " +:+ location) (g_lat g) (g_lng g)
             (radius_km * 1000)]) false) /\
    searches d' = searches (db st) /\
    businesses d' = tbl /\
    month_count now d' = month_count now (db st) + 1.
Proof.
  intros Hact Hquota Hflush Hgeo Hplaces. unfold search_businesses.
  rewrite past_the_gate by exact Hact. cbv beta iota.
  destruct (Z.leb_spec limit (month_count now (db st))) as [|_]; [lia|].
  destruct (counted_call now (Geocode location)
              (fun h => geocode client h location)
              (fun e => raise (PlacesAPIError
                                 ("Failed to geocode location: " +:+ str e)))
              st (g :: gs) tbl Hact Hgeo Hflush) as (d' & Hrun & Hs & Hb & Hc).
  rewrite (bind_inr _ _ _ _ _ Hrun). cbv beta iota.
  unfold mbind at 1, M_bind at 1.
  rewrite (failed_call
             (TextSearch (query +:+ " in " +:+ location) (g_lat g) (g_lng g)
                (radius_km * 1000))
             (fun h => places client h (query +:+ " in " +:+ location)
                         (g_lat g, g_lng g) (radius_km * 1000))
             _ (mkState d' [] (calls st ++ [Geocode location]) false) msg Hplaces).
  unfold raise. cbn [db calls pending failed str].
  rewrite <- app_assoc. exists d'. auto.
Qed.

(** When the text search raises, the search raises [PlacesAPIError] with the
    text of the cause after ["Places search failed: "].  Only the geocoding
    call is counted, both calls have been made, and no [Search] row is
    stored. *)
Theorem text_search_failure_is_not_counted
    (query location : string) (radius_km max_results : Z) (st : State)
    (g : GeocodeResult) (gs : list GeocodeResult) (tbl : list Business)
    (msg : string) :
  failed st = false ->
  month_count now (db st) < limit ->
  flush now (businesses (db st)) (pending st) = Some tbl ->
  geocode client (calls st) location = inr (g :: gs) ->
  places client (calls st ++ [Geocode location]) (query +:+ " in " +:+ location)
    (g_lat g, g_lng g) (radius_km * 1000) = inl msg ->
  let '(outcome, st') :=
    search_businesses client limit now query location radius_km max_results st in
  outcome = inl (PlacesAPIError ("Places search failed: " +:+ msg)) /\
  calls st'
    = calls st ++
      [Geocode location;
       TextSearch (query +:+ " in " +:+ location) (g_lat g) (g_lng g)
         (radius_km * 1000)] /\
  month_count now (db st') = month_count now (db st) + 1 /\
  searches (db st') = searches (db st) /\
  businesses (db st') = tbl.
Proof.
  intros Hact Hquota Hflush Hgeo Hplaces.
  destruct (text_search_failure_run query location radius_km max_results st
              g gs tbl msg Hact Hquota Hflush Hgeo Hplaces)
    as (d' & -> & Hs & Hb & Hc).
  cbn [db calls]. auto.
Qed.

(** *** The budget of one search *)

Lemma slice_to_length {A} (n : Z) (l : list A) :
  (length (Py.slice_to n l) <= length l)%nat /\
  (0 <= n -> (length (Py.slice_to n l) <= Z.to_nat n)%nat).
Proof.
  unfold Py.slice_to. destruct (Z.leb_spec 0 n); rewrite length_firstn; lia.
Qed.

(** What any run of [search_businesses] does to the record of calls, to the
    count and to the [Search] rows, and what it can raise. *)
Lemma search_businesses_run
    (query location : string) (radius_km max_results : Z) (st : State) :
  exists outcome st' ds rows,
    search_businesses client limit now query location radius_km max_results st
      = (outcome, st') /\
    calls st' = calls st ++ ds /\
    (0 <= max_results -> (length ds <= 2 + Z.to_nat max_results)%nat) /\
    month_count now (db st) <= month_count now (db st') /\
    month_count now (db st') - month_count now (db st) <= Z.of_nat (length ds) /\
    (month_count now (db st) < limit -> month_count now (db st') <= limit + 1) /\
    (limit <= month_count now (db st) -> st' = st) /\
    searches (db st') = searches (db st) ++ rows /\
    (length rows <= 1)%nat /\
    match outcome with
    | inl e => classified e
    | inr _ => length rows = 1%nat
    end.
Proof.
  destruct (failed st) eqn:Hact.
  { rewrite (search_businesses_failed query location radius_km max_results st Hact).
    eexists _, st, [], []. split; [reflexivity|]. rewrite !app_nil_r. simpl.
    repeat split; auto; lia. }
  destruct (Z.le_gt_cases limit (month_count now (db st))) as [Hfull|Hquota].
  { unfold search_businesses. rewrite past_the_gate by exact Hact. cbv beta iota.
    destruct (Z.leb_spec limit (month_count now (db st))) as [_|]; [|lia].
    eexists _, st, [], []. split; [reflexivity|]. rewrite !app_nil_r. simpl.
    repeat split; auto; lia. }
  destruct (geocode client (calls st) location) as [msg|r] eqn:Hgeo.
  { unfold search_businesses. rewrite past_the_gate by exact Hact. cbv beta iota.
    destruct (Z.leb_spec limit (month_count now (db st))) as [|_]; [lia|].
    unfold mbind at 1, M_bind at 1.
    rewrite (failed_call (Geocode location) (fun h => geocode client h location)
               _ st msg Hgeo).
    eexists _, _, [Geocode location], []. split; [reflexivity|].
    cbn [raise fst snd db calls]. rewrite app_nil_r. simpl.
    repeat split; auto; lia. }
  destruct (flush now (businesses (db st)) (pending st)) as [tbl|] eqn:Hflush.
  2: { unfold search_businesses. rewrite past_the_gate by exact Hact.
       cbv beta iota.
       destruct (Z.leb_spec limit (month_count now (db st))) as [|_]; [lia|].
       unfold mbind at 1, M_bind at 1.
       destruct (uncounted_call (Geocode location)
                   (fun h => geocode client h location)
                   (fun e => raise (PlacesAPIError
                                      ("Failed to geocode location: " +:+ str e)))
                   st r Hact Hgeo Hflush) as (m & ->).
       eexists _, _, [Geocode location], []. split; [reflexivity|].
       cbn [raise fst snd db calls]. rewrite app_nil_r. simpl.
       repeat split; auto; lia. }
  destruct r as [|g gs].
  { unfold search_businesses. rewrite past_the_gate by exact Hact. cbv beta iota.
    destruct (Z.leb_spec limit (month_count now (db st))) as [|_]; [lia|].
    destruct (counted_call now (Geocode location)
                (fun h => geocode client h location)
                (fun e => raise (PlacesAPIError
                                   ("Failed to geocode location: " +:+ str e)))
                st [] tbl Hact Hgeo Hflush) as (d' & Hrun & Hs & Hb & Hc).
    rewrite (bind_inr _ _ _ _ _ Hrun).
    eexists _, _, [Geocode location], []. split; [reflexivity|].
    cbn [raise fst snd db calls]. rewrite app_nil_r, Hs, Hc. simpl.
    repeat split; auto; lia. }
  destruct (places client (calls st ++ [Geocode location])
              (query +:+ " in " +:+ location) (g_lat g, g_lng g)
              (radius_km * 1000)) as [msg|results] eqn:Hplaces.
  { destruct (text_search_failure_run query location radius_km max_results st
                g gs tbl msg Hact Hquota Hflush Hgeo Hplaces)
      as (d' & -> & Hs & Hb & Hc).
    eexists _, _, [Geocode location;
                   TextSearch (query +:+ " in " +:+ location) (g_lat g) (g_lng g)
                     (radius_km * 1000)], [].
    split; [reflexivity|].
    cbn [db calls]. rewrite app_nil_r, Hs, Hc. simpl.
    repeat split; auto; lia. }
  destruct (search_businesses_reaches_loop client limit now query location
              radius_km max_results st g gs results tbl Hact Hquota Hflush Hgeo
              Hplaces) as (st5 & Hs5 & _ & _ & Hact5 & Hcalls5 & Hc5 & ->).
  set (kept := Py.slice_to max_results (default [] results)).
  destruct (process_places_run client limit now (next_id s_id (searches (db st)))
              kept (month_count now (db st)) [] st5 Hact5)
    as (out6 & st6 & ds & c6 & Hloop & Hcalls6 & _ & Hlen & Hs6 & Hc6 & Hcur
        & Hspent & Hout6).
  assert (Hbudget : 0 <= max_results -> (length ds <= Z.to_nat max_results)%nat).
  { intros Hm. destruct (slice_to_length max_results (default [] results))
      as [_ H]. specialize (H Hm). fold kept in H. lia. }
  assert (Htwo : forall a b : Call, length [a; b] = 2%nat) by reflexivity.
  destruct out6 as [e|[c acc6]].
  - destruct Hout6 as (-> & _). rewrite (bind_inl _ _ _ _ _ Hloop).
    eexists _, _, (_ ++ ds), [_]. split; [reflexivity|].
    rewrite Hcalls6, Hcalls5, Hs6, Hs5, <- app_assoc, length_app, Htwo.
    cbn [classified rolled_back].
    repeat split; auto; try lia.
  - destruct Hout6 as (-> & Hact6 & _).
    rewrite (bind_inr _ _ _ _ _ Hloop). cbv beta iota.
    pose proof (search_businesses_ends limit now
                  (next_id s_id (searches (db st))) query location radius_km
                  acc6 st6 Hact6) as Hend.
    destruct ((_ ← commit now; _) st6) as [outcome st'].
    destruct Hend as (Hcalls' & Hs' & Hc' & _ & Hend).
    eexists outcome, st', (_ ++ ds), [_]. split; [reflexivity|].
    rewrite Hcalls', Hc', Hs', Hcalls6, Hcalls5, Hs6, Hs5, <- app_assoc,
      length_app, Htwo.
    assert (Hout : match outcome with
                   | inl e => classified e
                   | inr _ => True
                   end).
    { destruct Hend as [((m & ->) & _)|(usage & tbl' & -> & _)]; exact I. }
    repeat split; auto; try lia.
    destruct outcome; [exact Hout|reflexivity].
Qed.

(** Whatever [search_businesses] raises is an [APILimitExceeded], a
    [PlacesAPIError], the [IntegrityError] of a commit or the
    [PendingRollbackError] of a session that has failed: an exception of
    the Google Maps client never escapes as it is, and neither does a
    [ZeroDivisionError]. *)
Theorem client_errors_never_escape
    (query location : string) (radius_km max_results : Z) (st : State)
    (e : exn) :
  fst (search_businesses client limit now query location radius_km max_results st)
    = inl e ->
  (exists msg, e = APILimitExceeded msg) \/
  (exists msg, e = PlacesAPIError msg) \/
  (exists msg, e = IntegrityError msg) \/
  (exists msg, e = PendingRollbackError msg).
Proof.
  intros He.
  destruct (search_businesses_run query location radius_km max_results st)
    as (outcome & st' & ds & rows & Hrun & _ & _ & _ & _ & _ & _ & _ & _ & Hout).
  rewrite Hrun in He. cbn [fst] in He. subst outcome.
  destruct e as [msg|msg|msg|msg|msg|]; try contradiction; eauto 6.
Qed.

(** The count of one month never goes down during a search, grows by no more
    than the number of external calls the search made, stays as it is when
    the search is refused at the quota gate, and, for a search that starts
    below the limit, ends at [limit + 1] at most: the limit can be overshot
    by one call, not by more. *)
Theorem quota_is_overshot_by_one_at_most
    (query location : string) (radius_km max_results : Z) (st : State) :
  let '(_, st') :=
    search_businesses client limit now query location radius_km max_results st in
  let used := month_count now (db st) in
  let used' := month_count now (db st') in
  used <= used' /\
  (exists ds, calls st' = calls st ++ ds /\ used' - used <= Z.of_nat (length ds)) /\
  (limit <= used -> used' = used) /\
  (used < limit -> used' <= limit + 1).
Proof.
  destruct (search_businesses_run query location radius_km max_results st)
    as (outcome & st' & ds & rows & -> & Hcalls & _ & Hmono & Hspent & Hbound
        & Hgate & _).
  cbv zeta. split; [exact Hmono|]. split; [exists ds; auto|].
  split; [intros H; rewrite (Hgate H); reflexivity|exact Hbound].
Qed.

(** [max_results] bounds the external calls: a search only adds to the
    record of calls, and with [max_results] not negative it makes at most
    [2 + max_results] of them; and it stores at most one [Search] row, and
    exactly one when it returns. *)
Theorem max_results_bounds_the_calls
    (query location : string) (radius_km max_results : Z) (st : State) :
  0 <= max_results ->
  let '(outcome, st') :=
    search_businesses client limit now query location radius_km max_results st in
  exists ds rows,
    calls st' = calls st ++ ds /\
    (length ds <= 2 + Z.to_nat max_results)%nat /\
    searches (db st') = searches (db st) ++ rows /\
    (length rows <= 1)%nat /\
    (forall response, outcome = inr response -> length rows = 1%nat).
Proof.
  intros Hmax.
  destruct (search_businesses_run query location radius_km max_results st)
    as (outcome & st' & ds & rows & -> & Hcalls & Hlen & _ & _ & _ & _ & Hs
        & Hrows & Hout).
  exists ds, rows. split; [exact Hcalls|]. split; [exact (Hlen Hmax)|].
  split; [exact Hs|]. split; [exact Hrows|].
  intros response ->. exact Hout.
Qed.

(** A business that the search creates is serialized before it is written:
    its dictionary in the response carries the place identifier of the
    result, but [None] for ["id"] and for ["created_at"], and the business
    waits in the session.  Without budget for the details call, or when that
    call raises, ["phone"] and ["website"] are [None] too.  No business is
    created when the details call is answered and the commit that counts it
    is refused, a business waiting in the session being rejected by the
    table: the failure is swallowed, the iteration raises
    [PendingRollbackError] when it reads the key of the [Search] row, and
    nothing waits in the session any more. *)
Theorem created_business_is_serialized_unsaved
    (search_id : Z) (p : Place) (current : Z) (acc : list Py.dict) (st : State) :
  failed st = false ->
  find (place_id_is (p_place_id p)) (businesses (db st)) = None ->
  let '(outcome, st') :=
    process_place client now search_id limit p (current, acc) st in
  let refused :=
    current + 2 < limit /\
    (exists answer, place client (calls st) (p_place_id p) = inr answer) /\
    flush now (businesses (db st)) (pending st) = None in
  (refused ->
   (exists msg, outcome = inl (PendingRollbackError msg)) /\
   pending st' = [] /\
   db st' = db st) /\
  (~ refused ->
   exists current' d b,
     outcome = inr (current', acc ++ [d]) /\
     d = to_dict b /\
     (exists waiting, pending st' = waiting ++ [b]) /\
     Py.get "id" d = Some Py.VNone /\
     Py.get "created_at" d = Some Py.VNone /\
     Py.get "place_id" d = Some (Py.of_str (p_place_id p)) /\
     (limit <= current + 2 \/
      (exists msg, place client (calls st) (p_place_id p) = inl msg) ->
      Py.get "phone" d = Some Py.VNone /\ Py.get "website" d = Some Py.VNone)).
Proof.
  intros Hact Hnew.
  destruct (process_place_new client limit now search_id p current acc st Hact Hnew)
    as (details & current' & st1 & Hfetch & ->).
  destruct (fetch_details_spec client limit now p current st Hact)
    as (details' & current'' & st1' & Hfetch' & _ & _ & _ & _ & _ & Hidle
        & Hraise & _ & Hfailed & Hempty).
  rewrite Hfetch in Hfetch'. injection Hfetch' as <- <- <-.
  cbv zeta. destruct (failed st1) eqn:Hf1.
  - split.
    + intros _. split; [eexists; reflexivity|]. apply Hempty. reflexivity.
    + intros Hnot. exfalso. apply Hnot. apply Hfailed. reflexivity.
  - split.
    + intros Hyes. apply Hfailed in Hyes. discriminate.
    + intros _.
      exists current', (to_dict (new_business search_id p details)),
             (new_business search_id p details).
      split; [reflexivity|]. split; [reflexivity|].
      split; [exists (pending st1); reflexivity|].
      split; [reflexivity|]. split; [reflexivity|]. split; [reflexivity|].
      intros Hnone.
      assert (details = None) as ->; [|split; reflexivity].
      destruct Hnone as [Hfull|(msg & Hmsg)].
      * destruct Hidle as [|[_ H]]; [lia|exact H].
      * destruct (Hraise msg Hmsg) as [_ H]. exact H.
Qed.

(** *** Results that repeat a place *)

Lemma flush_some_distinct (new tbl tbl' : list Business) :
  flush now tbl new = Some tbl' ->
  (forall x, x ∈ omap place_id tbl -> x ∉ omap place_id new) /\
  NoDup (omap place_id new).
Proof.
  revert tbl. induction new as [|b new IH]; intros tbl; simpl.
  - intros _. split; [intros x _; apply not_elem_of_nil|apply NoDup_nil_2].
  - destruct (insert_business now tbl b) as [tbl1|] eqn:E; [|discriminate].
    simpl. intros Hflush.
    apply insert_business_spec in E as (b' & -> & Hid & Hclash).
    destruct (IH _ Hflush) as [Hdisj Hnodup].
    assert (Hold : forall x, x ∈ omap place_id tbl -> x ∉ omap place_id new).
    { intros x Hx. apply Hdisj. rewrite omap_app. apply elem_of_app. auto. }
    destruct (place_id b) as [y|] eqn:Eb; simpl; [|auto].
    assert (Hy : y ∉ omap place_id new).
    { apply Hdisj. rewrite omap_app. apply elem_of_app. right.
      simpl. rewrite Hid. simpl. apply list_elem_of_here. }
    split.
    + intros x Hx. apply not_elem_of_cons. split; [|auto].
      intros ->. exact (clashes_false_not_in b tbl y Hclash Eb Hx).
    + apply NoDup_cons. auto.
Qed.

(** Without budget for details the loop makes no call and commits nothing:
    it leaves in the session one new business per result that is not
    stored. *)
Lemma process_places_no_budget
    (search_id : Z) (ps : list Place) (current : Z) (acc : list Py.dict)
    (d : Db) (waiting : list Business) (cs : list Call) :
  limit <= current + 2 ->
  exists acc',
    process_places client now search_id limit ps (current, acc)
      (mkState d waiting cs false)
    = (inr (current, acc'),
       mkState d
         (waiting ++ map (fun p => new_business search_id p None)
                       (List.filter (unknown (businesses d)) ps))
         cs false).
Proof.
  intros Hfull. revert acc waiting.
  induction ps as [|p ps IH]; intros acc waiting.
  - exists acc. simpl. rewrite app_nil_r. reflexivity.
  - cbn [process_places List.filter]. unfold unknown at 1.
    destruct (find (place_id_is (p_place_id p)) (businesses d)) as [b|] eqn:E.
    + rewrite (bind_inr _ _ _ _ _
                 (process_place_existing client limit now search_id p current acc
                    (mkState d waiting cs false) b eq_refl E)).
      apply IH.
    + destruct (process_place_new client limit now search_id p current acc
                  (mkState d waiting cs false) eq_refl E)
        as (details & current' & st1 & Hfetch & Hstep).
      destruct (fetch_details_spec client limit now p current
                  (mkState d waiting cs false) eq_refl)
        as (details' & current'' & st1' & Hfetch' & _ & _ & _ & Hcur & _ & Hidle & _).
      rewrite Hfetch in Hfetch'. injection Hfetch' as <- <- <-.
      destruct Hidle as [|[-> ->]]; [lia|].
      destruct Hcur as [->|[_ ?]]; [|lia].
      cbn [failed] in Hstep.
      rewrite (bind_inr _ _ _ _ _ Hstep). cbn [db pending calls map].
      destruct (IH (acc ++ [to_dict (new_business search_id p None)])
                  (waiting ++ [new_business search_id p None])) as (acc' & ->).
      exists acc'. rewrite <- app_assoc. reflexivity.
Qed.

(** When the truncated results name the same new place twice and there is no
    budget left for details calls, the search fails at its last commit with
    [IntegrityError]: none of its businesses is stored, while its [Search]
    row and the two counted calls remain. *)
Theorem repeated_place_fails_the_search
    (query location : string) (radius_km max_results : Z) (st : State)
    (g : GeocodeResult) (gs : list GeocodeResult)
    (results : option (list Place)) (tbl : list Business)
    (l1 l2 l3 : list Place) (p q : Place) (x : string) :
  failed st = false ->
  month_count now (db st) < limit ->
  limit <= month_count now (db st) + 2 ->
  flush now (businesses (db st)) (pending st) = Some tbl ->
  geocode client (calls st) location = inr (g :: gs) ->
  places client (calls st ++ [Geocode location]) (query +:+ " in " +:+ location)
    (g_lat g, g_lng g) (radius_km * 1000) = inr results ->
  Py.slice_to max_results (default [] results) = l1 ++ p :: l2 ++ q :: l3 ->
  p_place_id p = Some x ->
  p_place_id q = Some x ->
  find (place_id_is (Some x)) tbl = None ->
  let '(outcome, st') :=
    search_businesses client limit now query location radius_km max_results st in
  (exists msg, outcome = inl (IntegrityError msg)) /\
  businesses (db st') = tbl /\
  pending st' = [] /\
  length (searches (db st')) = S (length (searches (db st))) /\
  month_count now (db st') = month_count now (db st) + 2.
Proof.
  intros Hact Hquota Hfull Hflush Hgeo Hplaces Hkept Hp Hq Hnew.
  destruct (search_businesses_reaches_loop client limit now query location
              radius_km max_results st g gs results tbl Hact Hquota Hflush Hgeo
              Hplaces) as (st5 & Hs5 & Hb5 & Hp5 & Hact5 & _ & Hc5 & ->).
  destruct st5 as [d waiting cs f5]. cbn [db pending failed] in Hs5, Hb5, Hp5, Hc5, Hact5.
  subst waiting f5.
  destruct (process_places_no_budget (next_id s_id (searches (db st)))
              (Py.slice_to max_results (default [] results))
              (month_count now (db st)) [] d [] cs Hfull) as (acc' & Hloop).
  rewrite (bind_inr _ _ _ _ _ Hloop). cbv beta iota.
  match type of Hloop with _ = (_, ?s) => set (st6 := s) in * end.
  pose proof (search_businesses_ends limit now
                (next_id s_id (searches (db st))) query location radius_km
                acc' st6 eq_refl) as Hend.
  destruct ((_ ← commit now; _) st6) as [outcome st'].
  destruct Hend as (_ & Hs' & Hc' & Hp' & Hend).
  destruct Hend as [((msg & ->) & _ & Hb')|(usage & tbl' & _ & Hsome & _)].
  - split; [exists msg; reflexivity|]. rewrite Hb', Hs', Hc'.
    cbn [st6 db pending].
    split; [exact Hb5|]. split; [exact Hp'|]. split; [|exact Hc5].
    rewrite Hs5, length_app. simpl. lia.
  - exfalso. cbn [st6 db pending app] in Hsome.
    apply flush_some_distinct in Hsome as [_ Hnodup].
    rewrite Hkept, Hb5 in Hnodup.
    assert (Hup : unknown tbl p = true) by (unfold unknown; rewrite Hp, Hnew; reflexivity).
    assert (Huq : unknown tbl q = true) by (unfold unknown; rewrite Hq, Hnew; reflexivity).
    rewrite List.filter_app in Hnodup. cbn [List.filter] in Hnodup.
    rewrite Hup, List.filter_app in Hnodup. cbn [List.filter] in Hnodup.
    rewrite Huq in Hnodup.
    rewrite map_app in Hnodup. cbn [map] in Hnodup.
    rewrite map_app in Hnodup. cbn [map] in Hnodup.
    rewrite omap_app in Hnodup. cbn [omap list_omap new_business place_id] in Hnodup.
    rewrite Hp in Hnodup.
    apply NoDup_app in Hnodup as (_ & _ & Hnodup).
    apply NoDup_cons in Hnodup as [Hnot _]. apply Hnot.
    rewrite omap_app. apply elem_of_app. right.
    cbn [omap list_omap new_business place_id]. rewrite Hq.
    apply list_elem_of_here.
Qed.

(** *** What a search does to the stored businesses *)

Section TableInvariant.

(** A property of the [businesses] table that every successful flush keeps. *)
Variable P : list Business -> Prop.
Hypothesis P_flush :
  forall tbl new tbl', P tbl -> flush now tbl new = Some tbl' -> P tbl'.

Let holds (st : State) : Prop := P (businesses (db st)).

Lemma commit_with_table (f : Db -> Db) :
  (forall d, businesses (f d) = businesses d) ->
  keeps holds (commit_with now f).
Proof.
  intros Hf st H. unfold holds in *.
  destruct (failed st) eqn:Hact.
  { rewrite (commit_with_failed now f st Hact). exact H. }
  destruct (commit_with_cases now f st Hact)
    as [(tbl & Hflush & ->)|(_ & msg & ->)]; cbn [snd db].
  - rewrite Hf. cbn [businesses]. eapply P_flush; eassumption.
  - exact H.
Qed.

Lemma fetch_details_table (p : Place) (current : Z) :
  keeps holds (fetch_details client now p current limit).
Proof.
  unfold fetch_details. destruct (current + 2 <? limit); [|apply keeps_ret].
  apply keeps_try_except; [|intros e; apply keeps_ret].
  apply keeps_bind; [apply keeps_external; auto|]. intros r.
  apply keeps_try_except; [|intros e; apply keeps_ret].
  apply keeps_bind; [apply commit_with_table; reflexivity|].
  intros _. apply keeps_ret.
Qed.

Lemma process_places_table (search_id : Z) (ps : list Place)
    (locals : Z * list Py.dict) :
  keeps holds (process_places client now search_id limit ps locals).
Proof.
  revert locals. induction ps as [|p ps IH]; intros locals; simpl.
  - apply keeps_ret.
  - apply keeps_bind; [|exact IH].
    destruct locals as [current acc]. unfold process_place.
    apply keeps_bind; [apply keeps_execute|]. intros [b|].
    + apply keeps_ret.
    + apply keeps_bind; [apply fetch_details_table|]. intros [details current'].
      apply keeps_bind; [apply keeps_execute|]. intros key.
      apply keeps_bind; [intros st H; exact H|]. intros _. apply keeps_ret.
Qed.

Lemma search_businesses_table
    (query location : string) (radius_km max_results : Z) :
  keeps holds
    (search_businesses client limit now query location radius_km max_results).
Proof.
  unfold search_businesses.
  apply keeps_check_api_limit. intros current.
  destruct (limit <=? current); [apply keeps_raise|].
  apply keeps_bind.
  { apply keeps_try_except; [|intros e; apply keeps_raise].
    apply keeps_bind; [apply keeps_external; auto|]. intros r.
    apply keeps_bind; [apply commit_with_table; reflexivity|].
    intros _. apply keeps_ret. }
  intros [|g gs]; [apply keeps_raise|].
  apply keeps_bind.
  { apply keeps_try_except; [|intros e; apply keeps_raise].
    apply keeps_bind; [apply keeps_external; auto|]. intros r.
    apply keeps_bind; [apply commit_with_table; reflexivity|].
    intros _. apply keeps_ret. }
  intros results.
  apply keeps_bind.
  { intros st H. unfold add_search.
    pose proof (commit_with_table
      (fun d => mkDb (searches d ++
         [mkSearch (Some (next_id s_id (searches (db st)))) query location
            radius_km (Py.len (default [] results)) (Some now)])
         (businesses d) (api_usage d))
      (fun d => eq_refl) st H) as Hc.
    destruct (commit_with now _ st) as [[e|[]] st']; exact Hc. }
  intros search_id.
  apply keeps_bind; [apply process_places_table|]. intros [_ businesses].
  apply keeps_bind; [apply commit_with_table; reflexivity|]. intros _.
  apply keeps_bind; [apply keeps_execute|]. intros key.
  apply keeps_bind; [|intros usage; apply keeps_ret].
  intros st H. unfold holds. rewrite get_usage_stats_state. exact H.
Qed.

End TableInvariant.

Lemma insert_business_row (tbl tbl' : list Business) (b : Business) :
  insert_business now tbl b = Some tbl' ->
  exists b', tbl' = tbl ++ [b'] /\ id b' = Some (next_id id tbl).
Proof.
  unfold insert_business. destruct (name b); [|discriminate].
  destruct (existsb (clashes b) tbl); [discriminate|].
  intros [= <-]. eexists. split; reflexivity.
Qed.

Lemma flush_appends (new tbl tbl' : list Business) :
  flush now tbl new = Some tbl' -> exists added, tbl' = tbl ++ added.
Proof.
  revert tbl. induction new as [|b new IH]; intros tbl; simpl.
  - intros [= <-]. exists []. rewrite app_nil_r. reflexivity.
  - destruct (insert_business now tbl b) as [tbl1|] eqn:E; [|discriminate].
    simpl. intros Hflush.
    apply insert_business_row in E as (b' & -> & _).
    destruct (IH _ Hflush) as (added & ->).
    exists (b' :: added). rewrite <- app_assoc. reflexivity.
Qed.

Lemma next_id_above (tbl : list Business) (b : Business) (n : Z) :
  In b tbl -> id b = Some n -> n < next_id id tbl.
Proof.
  unfold next_id. induction tbl as [|c tbl IH]; [intros []|].
  intros [->|Hin] Hid; simpl.
  - rewrite Hid. simpl. lia.
  - specialize (IH Hin Hid). lia.
Qed.

Lemma flush_keyed (new tbl tbl' : list Business) :
  Businesses.keyed tbl -> flush now tbl new = Some tbl' -> Businesses.keyed tbl'.
Proof.
  revert tbl. induction new as [|b new IH]; intros tbl Hk; simpl.
  - intros [= <-]. exact Hk.
  - destruct (insert_business now tbl b) as [tbl1|] eqn:E; [|discriminate].
    simpl. apply IH.
    apply insert_business_row in E as (b' & -> & Hid).
    destruct Hk as [Hnodup Hsome]. split.
    + rewrite map_app. apply NoDup_app. split; [exact Hnodup|].
      split; [|apply NoDup_singleton].
      intros k Hk Hin. apply list_elem_of_singleton in Hin. subst k.
      simpl in Hk. rewrite Hid in Hk.
      apply list_elem_of_fmap in Hk as (c & Hc & Hin).
      apply list_elem_of_In in Hin.
      pose proof (next_id_above tbl c _ Hin (eq_sym Hc)). lia.
    + apply Forall_app. split; [exact Hsome|].
      constructor; [rewrite Hid; discriminate|constructor].
Qed.

Lemma find_app_some {A} (f : A -> bool) (l k : list A) (x : A) :
  find f l = Some x -> find f (l ++ k) = Some x.
Proof.
  induction l as [|y l IH]; simpl; [discriminate|].
  destruct (f y); auto.
Qed.

(** Stored businesses are only ever added to.  Whatever a search does, the
    table afterwards is the table before followed by new rows, so every
    business that [get_business] found before is found afterwards with the
    same dictionary; and a table in which every row has a key of its own
    stays such a table: new rows get keys not used before. *)
Theorem search_only_adds_businesses
    (query location : string) (radius_km max_results : Z) (st : State) :
  let st' :=
    snd (search_businesses client limit now query location radius_km
           max_results st) in
  (exists added, businesses (db st') = businesses (db st) ++ added) /\
  (forall n d,
     Businesses.get_business n (businesses (db st)) = inr d ->
     Businesses.get_business n (businesses (db st')) = inr d) /\
  (Businesses.keyed (businesses (db st)) ->
   Businesses.keyed (businesses (db st'))).
Proof.
  cbv zeta.
  assert (Hprefix :
    exists added,
      businesses (db (snd (search_businesses client limit now query location
                             radius_km max_results st)))
      = businesses (db st) ++ added).
  { apply (search_businesses_table
             (fun tbl => exists added, tbl = businesses (db st) ++ added)).
    - intros tbl new tbl' (added & ->) Hflush.
      apply flush_appends in Hflush as (more & ->).
      exists (added ++ more). rewrite app_assoc. reflexivity.
    - exists []. rewrite app_nil_r. reflexivity. }
  split; [exact Hprefix|]. split.
  - intros n d. destruct Hprefix as (added & ->).
    unfold Businesses.get_business.
    destruct (find (Businesses.id_is n) (businesses (db st))) as [b|] eqn:E;
      [|discriminate].
    rewrite (find_app_some _ _ added b E). auto.
  - apply (search_businesses_table Businesses.keyed).
    intros tbl new tbl'. apply flush_keyed.
Qed.

End PlacesApiMore.

(** ** [Database]: what the serialization keeps *)

Section DatabaseMore.
Import Database.

Lemma of_int_inj (a b : option Z) : Py.of_int a = Py.of_int b -> a = b.
Proof. destruct a, b; simpl; congruence. Qed.

Lemma of_str_inj (a b : option string) : Py.of_str a = Py.of_str b -> a = b.
Proof. destruct a, b; simpl; congruence. Qed.

Lemma of_float_inj (a b : option Q) : Py.of_float a = Py.of_float b -> a = b.
Proof. destruct a, b; simpl; congruence. Qed.

Lemma map_VStr_inj (l k : list string) :
  map Py.VStr l = map Py.VStr k -> l = k.
Proof.
  revert k. induction l as [|x l IH]; intros [|y k]; simpl; try discriminate;
    [reflexivity|].
  intros [= -> H]. f_equal. apply IH. exact H.
Qed.

(** [to_dict] exposes every column but [search_id], and does not tell a
    NULL [business_types] from an empty list: two businesses have the same
    dictionary exactly when they agree on the other eleven columns, with
    [business_types] read as a list. *)
Theorem to_dict_forgets_only_search_id (b c : Business) :
  to_dict b = to_dict c <->
  id b = id c /\ place_id b = place_id c /\ name b = name c /\
  address b = address c /\ phone b = phone c /\ website b = website c /\
  rating b = rating c /\ review_count b = review_count c /\
  types_of b = types_of c /\
  latitude b = latitude c /\ longitude b = longitude c /\
  created_at b = created_at c.
Proof.
  unfold to_dict, types_of. split.
  - intros H. injection H as Hid Hplace Hname Haddr Hphone Hweb Hrating Hcount
      Htypes Hlat Hlng Hcreated.
    apply of_int_inj in Hid, Hcount.
    apply of_str_inj in Hplace, Hname, Haddr, Hphone, Hweb, Hcreated.
    apply of_float_inj in Hrating, Hlat, Hlng.
    repeat split; try assumption.
    destruct (business_types b) as [l|], (business_types c) as [k|]; simpl in *.
    + injection Htypes as Htypes. apply map_VStr_inj. exact Htypes.
    + destruct l; [reflexivity|discriminate].
    + destruct k; [reflexivity|discriminate].
    + reflexivity.
  - intros (-> & -> & -> & -> & -> & -> & -> & -> & Htypes & -> & -> & ->).
    repeat f_equal.
    destruct (business_types b) as [l|], (business_types c) as [k|];
      simpl in Htypes; subst; reflexivity.
Qed.

End DatabaseMore.

(** ** [SearchRouter]: the endpoints *)

Section SearchRouterFacts.
Import PlacesApi SearchRouter.

Variable key : string.
Variable limit : Z.
Variable connect : string + Client.
Variable now : string.

Lemma check_rejects_with_429
    (self : RateLimiter.t) (req : RateLimiter.Request) (clock : RateLimiter.Clock)
    (e : RateLimiter.HTTPException) :
  fst (RateLimiter.check self req clock) = inl e ->
  RateLimiter.status_code e = 429 /\
  (RateLimiter.retry_after e = "5" \/ RateLimiter.retry_after e = "60").
Proof.
  unfold RateLimiter.check.
  destruct (RateLimiter._check_burst _ _ _); [|destruct (_ <=? _)]; cbn [fst];
    intros [= <-]; auto.
Qed.

(** A search request that the rate limiter rejects is answered with status
    429 and a [Retry-After] header of 5 or 60 seconds before the service is
    built: no external call is made, the tables and the month's count are
    untouched, and only the limiter has changed. *)
Theorem rate_limited_search_costs_nothing
    (request : SearchRequest) (req : RateLimiter.Request)
    (clock : RateLimiter.Clock) (w : World) (e : RateLimiter.HTTPException) :
  fst (RateLimiter.check (limiter w) req clock) = inl e ->
  let '(reply, w') := search_businesses key limit connect now request req clock w in
  reply = Http.Raised (of_rate_limit e) /\
  Http.status reply = 429 /\
  (Http.headers (of_rate_limit e) = [("Retry-After", "5")] \/
   Http.headers (of_rate_limit e) = [("Retry-After", "60")]) /\
  tables w' = tables w /\
  called w' = called w /\
  limiter w' = snd (RateLimiter.check (limiter w) req clock).
Proof.
  intros He. destruct (check_rejects_with_429 _ _ _ _ He) as [Hcode Hretry].
  unfold search_businesses.
  destruct (RateLimiter.check (limiter w) req clock) as [[e'|[]] limiter'];
    cbn [fst] in He; [|discriminate].
  injection He as ->. cbn [snd tables called SearchRouter.limiter Http.status].
  split; [reflexivity|]. split; [exact Hcode|].
  split; [|auto]. unfold of_rate_limit. cbn [Http.headers].
  destruct Hretry as [-> | ->]; auto.
Qed.

(** Without an API key an admitted search request is answered with status
    400 and the text of the configuration error; no external call is made
    and the tables are untouched, but the request has been recorded by the
    rate limiter. *)
Theorem search_without_key_is_a_400
    (request : SearchRequest) (req : RateLimiter.Request)
    (clock : RateLimiter.Clock) (w : World) :
  key = "" ->
  fst (RateLimiter.check (limiter w) req clock) = inr tt ->
  let '(reply, w') := search_businesses key limit connect now request req clock w in
  reply = Http.Raised
            (Http.mkHTTPException 400 "Google Maps API key not configured" []) /\
  tables w' = tables w /\
  called w' = called w /\
  RateLimiter.window (limiter w') (RateLimiter.check_ip req)
    = RateLimiter.within (RateLimiter.at_clean clock) 60
        (RateLimiter.window (limiter w) (RateLimiter.check_ip req))
      ++ [RateLimiter.at_record clock].
Proof.
  intros -> Hok. unfold search_businesses, new_service.
  assert (Hwin : RateLimiter.window
                   (snd (RateLimiter.check (limiter w) req clock))
                   (RateLimiter.check_ip req)
                 = RateLimiter.within (RateLimiter.at_clean clock) 60
                     (RateLimiter.window (limiter w) (RateLimiter.check_ip req))
                   ++ [RateLimiter.at_record clock]).
  { revert Hok. unfold RateLimiter.check.
    destruct (RateLimiter._check_burst _ _ _); [discriminate|].
    destruct (_ <=? _); [discriminate|]. intros _. cbn [snd].
    rewrite window_set_window_eq, window_clean. reflexivity. }
  destruct (RateLimiter.check (limiter w) req clock) as [[e|[]] limiter'];
    cbn [fst] in Hok; [discriminate|].
  cbn [snd] in Hwin. cbn. auto.
Qed.


Lemma validates_bounds (request : SearchRequest) :
  validates request = true <->
  1 <= radius_km request <= 50 /\ 1 <= max_results request <= 20.
Proof.
  unfold validates. rewrite !andb_true_iff, !Z.leb_le. lia.
Qed.

Lemma search_endpoint_budget
    (request : SearchRequest) (req : RateLimiter.Request)
    (clock : RateLimiter.Clock) (w : World) :
  0 <= max_results request ->
  let w' := snd (search_businesses key limit connect now request req clock w) in
  exists ds rows,
    called w' = called w ++ ds /\
    (length ds <= 2 + Z.to_nat (max_results request))%nat /\
    month_count now (tables w) <= month_count now (tables w') /\
    month_count now (tables w') - month_count now (tables w)
      <= Z.of_nat (length ds) /\
    searches (tables w') = searches (tables w) ++ rows /\
    (length rows <= 1)%nat.
Proof.
  intros Hmax. cbv zeta. unfold search_businesses.
  destruct (RateLimiter.check (limiter w) req clock) as [[e|[]] limiter'].
  { exists [], []. cbn. rewrite !app_nil_r. repeat split; auto; lia. }
  destruct (new_service key connect) as [e|client].
  { exists [], []. cbn. rewrite !app_nil_r. repeat split; auto; lia. }
  destruct (search_businesses_run client limit now (query request)
              (location request) (radius_km request) (max_results request)
              (open_session (mkWorld limiter' (tables w) (called w))))
    as (outcome & st' & ds & rows & Hrun & Hcalls & Hlen & Hmono & Hspent & _
        & _ & Hs & Hrows & _).
  rewrite Hrun. cbn [open_session db calls tables called] in *.
  specialize (Hlen Hmax).
  exists ds, rows.
  destruct outcome; cbn [snd close_session tables called]; auto 10.
Qed.

(** A request whose radius is outside 1..50 or whose [max_results] is
    outside 1..20 is answered 422 and changes nothing, the rate limiter
    included.  Any request makes at most 22 external calls, adds at most 22
    to the month's count and stores at most one [Search] row. *)
Theorem post_search_budget
    (request : SearchRequest) (req : RateLimiter.Request)
    (clock : RateLimiter.Clock) (w : World) :
  let run := post_search key limit connect now request req clock w in
  (~ (1 <= radius_km request <= 50 /\ 1 <= max_results request <= 20) ->
     run = (Http.Unprocessable, w)) /\
  (exists ds rows,
     called (snd run) = called w ++ ds /\
     (length ds <= 22)%nat /\
     month_count now (tables w) <= month_count now (tables (snd run))
       <= month_count now (tables w) + 22 /\
     searches (tables (snd run)) = searches (tables w) ++ rows /\
     (length rows <= 1)%nat).
Proof.
  cbv zeta. unfold post_search.
  destruct (validates request) eqn:Ev.
  - apply validates_bounds in Ev. split; [intros H; contradiction|].
    destruct (search_endpoint_budget request req clock w ltac:(lia))
      as (ds & rows & Hcalls & Hlen & Hmono & Hspent & Hs & Hrows).
    exists ds, rows. repeat split; auto; lia.
  - split; [reflexivity|]. exists [], []. cbn [snd]. rewrite !app_nil_r. simpl.
    repeat split; auto; lia.
Qed.

(** [GET /api/search/usage] consults neither the rate limiter nor the
    client and writes nothing: the world is as it was.  Without an API key
    the reply is status 400; with a key and a client it is the month's
    count and the limit. *)
Theorem usage_endpoint_only_reads (w : World) :
  snd (get_api_usage key limit connect now w) = w /\
  (key = "" ->
   fst (get_api_usage key limit connect now w)
   = Http.Raised
       (Http.mkHTTPException 400 "Google Maps API key not configured" [])) /\
  (forall client, key <> "" -> connect = inr client ->
   exists usage,
     fst (get_api_usage key limit connect now w) = Http.Returned usage /\
     calls_used usage = month_count now (tables w) /\
     calls_limit usage = limit /\
     calls_remaining usage = Z.max 0 (limit - month_count now (tables w))).
Proof.
  unfold get_api_usage, new_service.
  destruct (String.eqb_spec key "") as [->|Hkey].
  - split; [reflexivity|]. split; [reflexivity|]. intros c H. contradiction.
  - destruct connect as [msg|client].
    + split; [reflexivity|]. split; [contradiction|]. discriminate.
    + destruct (get_usage_stats_fields limit now (open_session w) eq_refl)
        as (usage & Husage & _ & Hused & Hlimit & Hleft & _).
      rewrite Husage. cbn [fst snd].
      split; [destruct w; reflexivity|]. split; [contradiction|].
      intros c _ _. exists usage. auto.
Qed.

End SearchRouterFacts.

(** ** Further properties on the example runs *)

Section PlacesApiMoreExamples.
Import Database PlacesApi.

Lemma increment_then_read_witness :
  fst (_check_api_limit 10 january
         (snd (_increment_api_usage january 1 (counted 6 []))))
  = inr (7, 10).
Proof.
  pose proof (increment_then_read 10 january 1 (counted 6 []) [] eq_refl
                eq_refl) as H.
  destruct (_increment_api_usage january 1 (counted 6 [])) as [outcome st'].
  destruct H as (_ & H & _). exact H.
Defined.

Lemma get_usage_stats_is_consistent_witness :
  exists usage,
    get_usage_stats 10 january (counted 12 []) = (inr usage, counted 12 []) /\
    calls_used usage = 12 /\
    calls_remaining usage = 0.
Proof.
  destruct (get_usage_stats_is_consistent 10 january (counted 12 []) eq_refl)
    as (usage & Hrun & Hused & _ & _ & _ & Hnone & _).
  exists usage. split; [exact Hrun|]. split; [exact Hused|].
  apply Hnone. rewrite Hused. vm_compute. discriminate.
Defined.

(** A client whose calls all raise gives [PlacesAPIError]; a result that the
    table refuses, followed by a result whose details are fetched, gives
    [PendingRollbackError]. *)
Lemma client_errors_never_escape_witness :
  (exists msg,
     fst (search_businesses failing 10 january "dentists" "Cape Town" 10 10
            (counted 0 [])) = inl (PlacesAPIError msg)) /\
  (exists msg,
     fst (search_businesses careless 100 january "dentists" "Cape Town" 10 10
            (counted 0 [])) = inl (PendingRollbackError msg)).
Proof.
  split.
  - destruct (client_errors_never_escape failing 10 january "dentists"
                "Cape Town" 10 10 (counted 0 [])
                (PlacesAPIError "Failed to geocode location: timeout") eq_refl)
      as [(msg & H)|[(msg & H)|[(msg & H)|(msg & H)]]]; try discriminate H.
    exists "Failed to geocode location: timeout". reflexivity.
  - destruct (client_errors_never_escape careless 100 january "dentists"
                "Cape Town" 10 10 (counted 0 []) rolled_back
                ltac:(vm_compute; reflexivity))
      as [(msg & H)|[(msg & H)|[(msg & H)|(msg & H)]]]; try discriminate H.
    exists msg. rewrite <- H. vm_compute. reflexivity.
Defined.

(** The state in which the second iteration of that search starts. *)
Lemma at_clinic_is_reached :
  process_place careless january 1 100 nameless (0, []) (at_loop 0 [])
  = (inr (1, [to_dict (new_business 1 nameless (Some no_details))]), at_clinic).
Proof. vm_compute. reflexivity. Qed.

(** The run behind the second case: four calls are made and three are
    counted, the [Search] row is stored and no business is. *)
Lemma swallowed_commit_failure :
  let '(outcome, st') :=
    search_businesses careless 100 january "dentists" "Cape Town" 10 10
      (counted 0 []) in
  outcome = inl rolled_back /\
  calls st'
    = [Geocode "Cape Town";
       TextSearch "dentists in Cape Town" (-33.9)%Q 18.4%Q 10000;
       Details (Some "N"); Details (Some "B")] /\
  month_count january (db st') = 3 /\
  searches (db st')
    = [mkSearch (Some 1) "dentists" "Cape Town" 10 2 (Some january)] /\
  businesses (db st') = [] /\
  pending st' = [] /\
  failed st' = true.
Proof. vm_compute. repeat split; reflexivity. Qed.

Lemma quota_is_overshot_by_one_at_most_witness :
  month_count january
    (db (snd (search_businesses answering 10 january "dentists" "Cape Town"
                10 10 (counted 9 []))))
  <= 11.
Proof.
  pose proof (quota_is_overshot_by_one_at_most answering 10 january "dentists"
                "Cape Town" 10 10 (counted 9 [])) as H.
  destruct (search_businesses _ _ _ _ _ _ _ _) as [outcome st'].
  destruct H as (_ & _ & _ & H). apply H. vm_compute. reflexivity.
Defined.

(** The bound is reached: a search that starts one call below the limit
    counts its geocoding and its text search and ends one call above it. *)
Lemma quota_overshoot_is_reached :
  month_count january
    (db (snd (search_businesses answering 10 january "dentists" "Cape Town"
                10 10 (counted 9 []))))
  = 11.
Proof. vm_compute. reflexivity. Qed.

Lemma max_results_bounds_the_calls_witness :
  (length (calls (snd (search_businesses answering 10 january "dentists"
                         "Cape Town" 10 1 (counted 0 [])))) <= 3)%nat.
Proof.
  pose proof (max_results_bounds_the_calls answering 10 january "dentists"
                "Cape Town" 10 1 (counted 0 []) ltac:(lia)) as H.
  destruct (search_businesses _ _ _ _ _ _ _ _) as [outcome st'].
  destruct H as (ds & rows & Hcalls & Hlen & _).
  cbn [snd]. rewrite Hcalls. exact Hlen.
Defined.

(** The dentist is created and serialized without a key.  The clinic is not
    created when the nameless business waits in the session: the count of
    its details call cannot be committed. *)
Lemma created_business_is_serialized_unsaved_witness :
  (exists current' d,
     fst (process_place answering january 1 10 dentist (6, []) (at_loop 6 []))
       = inr (current', [d]) /\
     Py.get "id" d = Some Py.VNone) /\
  (exists msg,
     fst (process_place careless january 1 100 clinic (1, []) at_clinic)
       = inl (PendingRollbackError msg)) /\
  pending (snd (process_place careless january 1 100 clinic (1, []) at_clinic))
    = [].
Proof.
  split.
  - pose proof (created_business_is_serialized_unsaved answering 10 january 1
                  dentist 6 [] (at_loop 6 []) eq_refl eq_refl) as H.
    destruct (process_place _ _ _ _ _ _ _) as [outcome st'].
    destruct H as (_ & H).
    destruct H as (current' & d & b & -> & _ & _ & Hid & _).
    { intros (_ & _ & Hnone). vm_compute in Hnone. discriminate Hnone. }
    exists current', d. split; [reflexivity|exact Hid].
  - pose proof (created_business_is_serialized_unsaved careless 100 january 1
                  clinic 1 [] at_clinic eq_refl eq_refl) as H.
    destruct (process_place _ _ _ _ _ _ _) as [outcome st'].
    destruct H as (H & _).
    destruct H as ((msg & ->) & Hp & _).
    { split; [vm_compute; reflexivity|].
      split; [eexists; reflexivity|]. vm_compute. reflexivity. }
    split; [exists msg; reflexivity|exact Hp].
Defined.

Lemma geocoding_failure_is_not_counted_witness :
  search_businesses failing 10 january "dentists" "Cape Town" 10 10 (counted 3 [])
  = (inl (PlacesAPIError "Failed to geocode location: timeout"),
     mkState (db (counted 3 [])) [] [Geocode "Cape Town"] false).
Proof.
  apply (geocoding_failure_is_not_counted failing 10 january "dentists"
           "Cape Town" 10 10 (counted 3 []) "timeout");
    [reflexivity|vm_compute|]; reflexivity.
Defined.

Lemma unknown_location_is_counted_witness :
  month_count january
    (db (snd (search_businesses lost 10 january "dentists" "Atlantis" 10 10
                (counted 3 []))))
  = 4.
Proof.
  pose proof (unknown_location_is_counted lost 10 january "dentists"
                "Atlantis" 10 10 (counted 3 []) [] eq_refl
                ltac:(vm_compute; reflexivity) eq_refl eq_refl) as H.
  destruct (search_businesses _ _ _ _ _ _ _ _) as [outcome st'].
  destruct H as (_ & _ & H & _). exact H.
Defined.

Lemma text_search_failure_is_not_counted_witness :
  month_count january
    (db (snd (search_businesses half_failing 10 january "dentists" "Cape Town"
                10 10 (counted 3 []))))
  = 4.
Proof.
  pose proof (text_search_failure_is_not_counted half_failing 10 january
                "dentists" "Cape Town" 10 10 (counted 3 [])
                (mkGeocodeResult (-33.9)%Q 18.4%Q) [] [] "OVER_QUERY_LIMIT"
                eq_refl ltac:(vm_compute; reflexivity) eq_refl eq_refl eq_refl)
    as H.
  destruct (search_businesses _ _ _ _ _ _ _ _) as [outcome st'].
  destruct H as (_ & _ & H & _). exact H.
Defined.

Lemma repeated_place_fails_the_search_witness :
  exists msg,
    fst (search_businesses repeating 10 january "dentists" "Cape Town" 10 10
           (counted 8 []))
    = inl (IntegrityError msg).
Proof.
  pose proof (repeated_place_fails_the_search repeating 10 january
                "dentists" "Cape Town" 10 10 (counted 8 [])
                (mkGeocodeResult (-33.9)%Q 18.4%Q) []
                (Some [dentist; dentist]) [] [] [] [] dentist dentist "A"
                eq_refl
                ltac:(vm_compute; reflexivity) ltac:(vm_compute; discriminate)
                eq_refl eq_refl eq_refl eq_refl eq_refl eq_refl eq_refl) as H.
  destruct (search_businesses _ _ _ _ _ _ _ _) as [outcome st'].
  destruct H as ((msg & ->) & _). exists msg. reflexivity.
Defined.

End PlacesApiMoreExamples.

Section SearchRouterExamples.
Import PlacesApi SearchRouter.

Lemma rate_limited_search_costs_nothing_witness :
  Http.status
    (fst (search_businesses "AIza-key" 10 (inr answering) january (dentists 10)
            RateLimiter.proxied (RateLimiter.at_time 1) (busy 0)))
  = 429 /\
  called
    (snd (search_businesses "AIza-key" 10 (inr answering) january (dentists 10)
            RateLimiter.proxied (RateLimiter.at_time 1) (busy 0)))
  = [].
Proof.
  pose proof (rate_limited_search_costs_nothing "AIza-key" 10 (inr answering)
                january (dentists 10) RateLimiter.proxied
                (RateLimiter.at_time 1) (busy 0) RateLimiter.burst_rejection
                ltac:(vm_compute; reflexivity)) as H.
  destruct (search_businesses _ _ _ _ _ _ _ _) as [reply w'].
  destruct H as (_ & Hstatus & _ & _ & Hcalled & _).
  split; [exact Hstatus|exact Hcalled].
Defined.

Lemma search_without_key_is_a_400_witness :
  Http.status
    (fst (search_businesses "" 10 (inr answering) january (dentists 10)
            RateLimiter.proxied (RateLimiter.at_time 1) (quiet 0)))
  = 400.
Proof.
  pose proof (search_without_key_is_a_400 "" 10 (inr answering) january
                (dentists 10) RateLimiter.proxied (RateLimiter.at_time 1)
                (quiet 0) eq_refl ltac:(vm_compute; reflexivity)) as H.
  destruct (search_businesses _ _ _ _ _ _ _ _) as [reply w'].
  destruct H as (-> & _). reflexivity.
Defined.

(** The four statuses are reached.  The 500 is that of a search one of whose
    results the table refuses while the details of a later result are
    fetched. *)
Lemma search_statuses_reached :
  Http.status
    (fst (search_businesses "AIza-key" 10 (inr answering) january (dentists 10)
            RateLimiter.proxied (RateLimiter.at_time 1) (quiet 0))) = 200 /\
  Http.status
    (fst (search_businesses "AIza-key" 10 (inr failing) january (dentists 10)
            RateLimiter.proxied (RateLimiter.at_time 1) (quiet 0))) = 400 /\
  Http.status
    (fst (search_businesses "AIza-key" 10 (inr answering) january (dentists 10)
            RateLimiter.proxied (RateLimiter.at_time 1) (quiet 10))) = 429 /\
  Http.status
    (fst (search_businesses "AIza-key" 100 (inr careless) january (dentists 10)
            RateLimiter.proxied (RateLimiter.at_time 1) (quiet 0))) = 500.
Proof. repeat split; vm_compute; reflexivity. Qed.

End SearchRouterExamples.
